(** * device-rotation-test.js: a shallow embedding and its properties

    The program drives a headless browser through a fixed catalog of device
    profiles against one URL.  Everything the browser, the file system, the
    clock and the operating system decide is supplied by an explicit
    environment; everything the script itself decides (string handling,
    control flow, the [testResults] record, the cleanup guard, the timers of
    [sleep], the rotation loop) is translated from the source.

    Console output is not modelled, except for the per-iteration banner of
    [runTests] that names the profile under test. *)

From Stdlib Require Import ZArith NArith List Bool Lia Ascii String.
From Stdlib Require Import Permutation DecimalString Sorted.
Import ListNotations.

Local Open Scope string_scope.
Local Open Scope Z_scope.

(** ** JavaScript strings

    A string is a sequence of code units; the model covers code units below
    256 (Latin-1), which includes every name of the catalog. *)

Module Js.

(** [String.prototype.toLowerCase] on one Latin-1 code unit: [A-Z] and
    U+00C0..U+00DE (except the multiplication sign U+00D7) move up by 32. *)
Definition isUpper (c : ascii) : bool :=
  let n := N_of_ascii c in
  (((65 <=? n) && (n <=? 90)) ||
   ((192 <=? n) && (n <=? 222) && negb (n =? 215)))%N.

Definition lowerChar (c : ascii) : ascii :=
  if isUpper c then ascii_of_N (N_of_ascii c + 32) else c.

Fixpoint toLowerCase (s : string) : string :=
  match s with
  | EmptyString => EmptyString
  | String c s' => String (lowerChar c) (toLowerCase s')
  end.

(** [s.replace(/[cls]/g, rep)] for a one-character class [cls]: every
    matching code unit is replaced, one match at a time, by [rep]. *)
Fixpoint replaceAll (cls : ascii -> bool) (rep : string) (s : string) : string :=
  match s with
  | EmptyString => EmptyString
  | String c s' =>
      if cls c then rep ++ replaceAll cls rep s'
      else String c (replaceAll cls rep s')
  end.

(** [s.startsWith(p)] *)
Definition startsWith (s p : string) : bool := String.prefix p s.

(** Template-literal rendering of an integer. *)
Definition ofZ (z : Z) : string := NilEmpty.string_of_int (Z.to_int z).

(** [path.join(dir, file)] for two plain relative segments. *)
Definition pathJoin (dir file : string) : string := dir ++ "/" ++ file.

(** The largest delay a timer takes as given; Node replaces a delay below 1
    or above this bound by 1 ms. *)
Definition TIMEOUT_MAX : Z := 2147483647.

End Js.

(** The character classes of the two regular expressions of the source. *)

(** [[a-z0-9]] *)
Definition lowerAlnum (c : ascii) : bool :=
  let n := N_of_ascii c in
  (((97 <=? n) && (n <=? 122)) || ((48 <=? n) && (n <=? 57)))%N.

(** [[^a-z0-9]] *)
Definition notLowerAlnum (c : ascii) : bool := negb (lowerAlnum c).

(** [[:.]] *)
Definition colonOrDot (c : ascii) : bool :=
  let n := N_of_ascii c in ((n =? 58) || (n =? 46))%N.

(** ** Configuration (the [CONFIG] object) *)

Module CONFIG.
Definition INTERVAL : Z := 60000.
Definition SDK_WAIT : Z := 20000.
Definition PAGE_LOAD_TIMEOUT : Z := 60000.
Definition SCREENSHOT_PREFIX : string := "screenshot".
Definition MAX_ITERATIONS : Z := 1000.
Definition SCREENSHOT_DIR : string := "screenshots".
End CONFIG.

(** ** File names of screenshots *)

(** [this.profileName.toLowerCase().replace(/[^a-z0-9]/g, '-')],
    as written in [takeScreenshot] and again in [takeErrorScreenshot]. *)
Definition safeName (profileName : string) : string :=
  Js.replaceAll notLowerAlnum "-" (Js.toLowerCase profileName).

(** [new Date().toISOString().replace(/[:.]/g, '-')] applied to the clock's
    ISO string [iso]. *)
Definition timestamp (iso : string) : string :=
  Js.replaceAll colonOrDot "-" iso.

Definition screenshotPathFor (iso profileName : string) : string :=
  Js.pathJoin CONFIG.SCREENSHOT_DIR
    (CONFIG.SCREENSHOT_PREFIX ++ "-" ++ timestamp iso ++ "-"
       ++ safeName profileName ++ ".png").

Definition errorScreenshotPath (profileName : string) : string :=
  Js.pathJoin CONFIG.SCREENSHOT_DIR
    ("error-" ++ CONFIG.SCREENSHOT_PREFIX ++ "-" ++ safeName profileName ++ ".png").

(** The slug as the specification words it: lowercase, then every maximal
    run of characters outside [[a-z0-9]] becomes ONE separator.  [inRun]
    tells whether the previous character already opened a run. *)
Fixpoint collapseRuns (inRun : bool) (s : string) : string :=
  match s with
  | EmptyString => EmptyString
  | String c s' =>
      if notLowerAlnum c
      then (if inRun then collapseRuns true s'
            else String "-" (collapseRuns true s'))
      else String c (collapseRuns false s')
  end.

Definition slugCollapsed (profileName : string) : string :=
  collapseRuns false (Js.toLowerCase profileName).

(** Two neighbouring separators somewhere in the string. *)
Fixpoint adjacentSeparators (s : string) : bool :=
  match s with
  | String "-" (String "-" _ as s') => true
  | String _ s' => adjacentSeparators s'
  | EmptyString => false
  end.

(** What one code unit of the name becomes in [safeName]. *)
Definition slugChar (c : ascii) : ascii :=
  if lowerAlnum (Js.lowerChar c) then Js.lowerChar c else "-"%char.

(** ** Device profiles (the [DEVICE_PROFILES] array)

    Four entries spread a descriptor of Playwright's [devices] registry,
    which is not part of this repository: the registry is a parameter, and a
    key it does not know spreads to nothing (every field [undefined]). *)

Record Viewport := { width : Z; height : Z }.

Record Descriptor := {
  d_viewport : Viewport;
  d_userAgent : string;
  d_deviceScaleFactor : Z * Z;      (* numerator, denominator *)
  d_isMobile : bool;
  d_hasTouch : bool
}.

Definition Registry := string -> option Descriptor.

Record Profile := {
  name : string;
  category : string;
  viewport : option Viewport;
  userAgent : option string;
  deviceScaleFactor : option (Z * Z);
  isMobile : option bool;
  hasTouch : option bool
}.

(** [{ ...devices[key], name: key, category: cat }] *)
Definition spread (devices : Registry) (key cat : string) : Profile :=
  match devices key with
  | Some d =>
      {| name := key; category := cat;
         viewport := Some (d_viewport d);
         userAgent := Some (d_userAgent d);
         deviceScaleFactor := Some (d_deviceScaleFactor d);
         isMobile := Some (d_isMobile d);
         hasTouch := Some (d_hasTouch d) |}
  | None =>
      {| name := key; category := cat;
         viewport := None; userAgent := None; deviceScaleFactor := None;
         isMobile := None; hasTouch := None |}
  end.

Definition desktopChromeUA : string :=
  "Mozilla/5.0 (Windows NT 10.0; Win64; x64) AppleWebKit/537.36 (KHTML, like Gecko) Chrome/120.0.0.0 Safari/537.36".

Definition DEVICE_PROFILES (devices : Registry) : list Profile :=
  [ spread devices "iPhone 15 Pro" "mobile";
    spread devices "Pixel 6" "mobile";
    spread devices "iPad (gen 7)" "tablet";
    {| name := "Desktop Chrome"; category := "desktop";
       viewport := Some {| width := 1366; height := 768 |};
       userAgent := Some desktopChromeUA;
       deviceScaleFactor := Some (1, 1);
       isMobile := Some false;
       hasTouch := Some false |};
    spread devices "Galaxy S23" "mobile" ].

(** The options object handed to [browser.newContext]; [x || d] falls back
    to [d] when [x] is [undefined], [0] or [false]. *)
Record ContextOptions := {
  o_viewport : option Viewport;
  o_userAgent : option string;
  o_deviceScaleFactor : Z * Z;
  o_isMobile : bool;
  o_hasTouch : bool;
  o_ignoreHTTPSErrors : bool
}.

Definition contextOptions (p : Profile) : ContextOptions :=
  {| o_viewport := viewport p;
     o_userAgent := userAgent p;
     o_deviceScaleFactor :=
       match deviceScaleFactor p with
       | Some (n, d) => if n =? 0 then (1, 1) else (n, d)
       | None => (1, 1)
       end;
     o_isMobile := match isMobile p with Some b => b | None => false end;
     o_hasTouch := match hasTouch p with Some b => b | None => false end;
     o_ignoreHTTPSErrors := true |}.

(** ** Errors, environment, observable actions *)

Record JsError := { e_name : string; e_message : string }.

Record Response := { r_status : Z; r_statusText : string }.

(** What can happen while the script is suspended at an [await]: the
    operating system delivers a signal, the page emits a ['response'] event,
    or the page becomes closed (a crash, or a close completing). *)
Inductive Event :=
| Signal (signal : string)
| ResponseSeen (httpStatus : Z)
| PageGone.

(** How an awaited promise ends: fulfilled, rejected, or not settled before
    the process ends (the continuation never runs). *)
Inductive Outcome (A : Type) :=
| Resolved (a : A)
| Rejected (e : JsError)
| Unsettled.
Arguments Resolved {A} a.
Arguments Rejected {A} e.
Arguments Unsettled {A}.

Record Susp (A : Type) := { events : list Event; outcome : Outcome A }.
Arguments events {A} s.
Arguments outcome {A} s.

(** Calls the script makes on the outside world. *)
Inductive Action :=
| FsAccess (dir : string)
| FsMkdir (dir : string)
| Launch
| NewContext (o : ContextOptions)
| NewPage
| Goto (url : string) (timeout : Z)
| WaitForTimeout (ms : Z)
| Screenshot (path : string) (fullPage : bool)
| Title
| ClosePage
| CloseContext
| CloseBrowser.

(** ** The objects of the script *)

(** [this.testResults]; [status] holds the strings of the source. *)
Record TestResults := {
  status : string;
  error : option string;
  screenshotTaken : bool;
  httpStatus : Z;
  screenshotPath : option string
}.

(** A Playwright page as far as the script looks at it. *)
Record Page := {
  isClosed : bool;
  responseObserver : bool       (* [page.on('response', ...)] registered *)
}.

(** A [DeviceTester]; [browser] and [context] are [null] ([false]) or an
    object ([true]). *)
Record DeviceTester := {
  profile : Profile;
  iteration : Z;
  targetUrl : string;
  profileName : string;
  browser : bool;
  context : bool;
  page : option Page;
  cleanupCalled : bool;
  testResults : TestResults
}.

(** One line of the per-iteration banner of [runTests]. *)
Record Banner := { b_iteration : Z; b_profile : Profile }.

(** Process-wide state: the two globals, the one tester object alive at a
    time ([currentTest] is [null] or refers to it), the actions so far
    (oldest first), the banners printed, the pending [process.exit(0)]
    timers and the interval timers that were never cleared. *)
Record World := {
  isShuttingDown : bool;
  currentTest : bool;
  tester : DeviceTester;
  trace : list Action;
  console : list Banner;
  exitTimers : nat;
  liveIntervals : nat
}.

Definition newTestResults : TestResults :=
  {| status := "unknown"; error := None; screenshotTaken := false;
     httpStatus := 0; screenshotPath := None |}.

(** [new DeviceTester(profile, iteration, targetUrl)] *)
Definition newDeviceTester (p : Profile) (i : Z) (url : string) : DeviceTester :=
  {| profile := p; iteration := i; targetUrl := url; profileName := name p;
     browser := false; context := false; page := None;
     cleanupCalled := false; testResults := newTestResults |}.

Definition withResults (f : TestResults -> TestResults) (t : DeviceTester) : DeviceTester :=
  {| profile := profile t; iteration := iteration t; targetUrl := targetUrl t;
     profileName := profileName t; browser := browser t; context := context t;
     page := page t; cleanupCalled := cleanupCalled t;
     testResults := f (testResults t) |}.

Definition setStatus (s : string) (r : TestResults) : TestResults :=
  {| status := s; error := error r; screenshotTaken := screenshotTaken r;
     httpStatus := httpStatus r; screenshotPath := screenshotPath r |}.

Definition setError (m : string) (r : TestResults) : TestResults :=
  {| status := status r; error := Some m; screenshotTaken := screenshotTaken r;
     httpStatus := httpStatus r; screenshotPath := screenshotPath r |}.

Definition setHttpStatus (n : Z) (r : TestResults) : TestResults :=
  {| status := status r; error := error r; screenshotTaken := screenshotTaken r;
     httpStatus := n; screenshotPath := screenshotPath r |}.

Definition setScreenshot (p : string) (r : TestResults) : TestResults :=
  {| status := status r; error := error r; screenshotTaken := true;
     httpStatus := httpStatus r; screenshotPath := Some p |}.

Definition setBrowser (t : DeviceTester) : DeviceTester :=
  {| profile := profile t; iteration := iteration t; targetUrl := targetUrl t;
     profileName := profileName t; browser := true; context := context t;
     page := page t; cleanupCalled := cleanupCalled t;
     testResults := testResults t |}.

Definition setContext (t : DeviceTester) : DeviceTester :=
  {| profile := profile t; iteration := iteration t; targetUrl := targetUrl t;
     profileName := profileName t; browser := browser t; context := true;
     page := page t; cleanupCalled := cleanupCalled t;
     testResults := testResults t |}.

Definition setPage (p : option Page) (t : DeviceTester) : DeviceTester :=
  {| profile := profile t; iteration := iteration t; targetUrl := targetUrl t;
     profileName := profileName t; browser := browser t; context := context t;
     page := p; cleanupCalled := cleanupCalled t;
     testResults := testResults t |}.

Definition setCleanupCalled (t : DeviceTester) : DeviceTester :=
  {| profile := profile t; iteration := iteration t; targetUrl := targetUrl t;
     profileName := profileName t; browser := browser t; context := context t;
     page := page t; cleanupCalled := true;
     testResults := testResults t |}.

Definition withTester (f : DeviceTester -> DeviceTester) (w : World) : World :=
  {| isShuttingDown := isShuttingDown w; currentTest := currentTest w;
     tester := f (tester w); trace := trace w; console := console w;
     exitTimers := exitTimers w; liveIntervals := liveIntervals w |}.

Definition emit (a : Action) (w : World) : World :=
  {| isShuttingDown := isShuttingDown w; currentTest := currentTest w;
     tester := tester w; trace := trace w ++ [a]; console := console w;
     exitTimers := exitTimers w; liveIntervals := liveIntervals w |}.

Definition print (b : Banner) (w : World) : World :=
  {| isShuttingDown := isShuttingDown w; currentTest := currentTest w;
     tester := tester w; trace := trace w; console := console w ++ [b];
     exitTimers := exitTimers w; liveIntervals := liveIntervals w |}.

Definition setShuttingDown (w : World) : World :=
  {| isShuttingDown := true; currentTest := currentTest w;
     tester := tester w; trace := trace w; console := console w;
     exitTimers := exitTimers w; liveIntervals := liveIntervals w |}.

Definition setCurrentTest (t : option DeviceTester) (w : World) : World :=
  {| isShuttingDown := isShuttingDown w;
     currentTest := match t with Some _ => true | None => false end;
     tester := match t with Some t' => t' | None => tester w end;
     trace := trace w; console := console w;
     exitTimers := exitTimers w; liveIntervals := liveIntervals w |}.

(** [setTimeout(() => process.exit(0), 2000)] *)
Definition scheduleExit (w : World) : World :=
  {| isShuttingDown := isShuttingDown w; currentTest := currentTest w;
     tester := tester w; trace := trace w; console := console w;
     exitTimers := S (exitTimers w); liveIntervals := liveIntervals w |}.

(** An interval timer of [sleep] that nobody cleared.  The count is exact
    as long as no signal has arrived; once the flag is set, every armed
    interval clears itself at its next tick, and the process exits through
    the shutdown timer anyway. *)
Definition leakInterval (w : World) : World :=
  {| isShuttingDown := isShuttingDown w; currentTest := currentTest w;
     tester := tester w; trace := trace w; console := console w;
     exitTimers := exitTimers w; liveIntervals := S (liveIntervals w) |}.

Definition initialWorld : World :=
  {| isShuttingDown := false; currentTest := false;
     tester := newDeviceTester (spread (fun _ => None) "" "") 0 "";
     trace := []; console := []; exitTimers := 0; liveIntervals := 0 |}.

(** ** Control flow: state, exceptions, process exit

    A computation runs on the [World] and ends by returning a value, by
    throwing, by [process.exit(code)], or by being suspended for good at an
    [await] that never settles ([Halt]). *)

Inductive Result (A : Type) :=
| Ok (a : A)
| Throw (e : JsError)
| Exit (code : Z)
| Halt.
Arguments Ok {A} a.
Arguments Throw {A} e.
Arguments Exit {A} code.
Arguments Halt {A}.

Definition M (A : Type) : Type := World -> Result A * World.

Definition ret {A} (a : A) : M A := fun w => (Ok a, w).

Definition bind {A B} (m : M A) (k : A -> M B) : M B := fun w =>
  match m w with
  | (Ok a, w') => k a w'
  | (Throw e, w') => (Throw e, w')
  | (Exit c, w') => (Exit c, w')
  | (Halt, w') => (Halt, w')
  end.

Notation "x <- m ;; k" := (bind m (fun x => k))
  (at level 61, m at next level, right associativity).
Notation "m ;; k" := (bind m (fun _ => k))
  (at level 61, right associativity).

Definition throw {A} (e : JsError) : M A := fun w => (Throw e, w).

(** [process.exit(code)] *)
Definition exit {A} (code : Z) : M A := fun w => (Exit code, w).

Definition get : M World := fun w => (Ok w, w).

Definition modify (f : World -> World) : M unit := fun w => (Ok tt, f w).

(** [try { m } catch (error) { h error }] *)
Definition try_catch {A} (m : M A) (h : JsError -> M A) : M A := fun w =>
  match m w with
  | (Throw e, w') => h e w'
  | r => r
  end.

(** [try { m } finally { f }]: [f] runs after a normal or an abrupt end of
    [m], and an abrupt end of [f] replaces the outcome of [m]. *)
Definition finally {A} (m : M A) (f : M unit) : M A := fun w =>
  match m w with
  | (Ok a, w') =>
      match f w' with
      | (Ok _, w'') => (Ok a, w'')
      | (Throw e, w'') => (Throw e, w'')
      | (Exit c, w'') => (Exit c, w'')
      | (Halt, w'') => (Halt, w'')
      end
  | (Throw e, w') =>
      match f w' with
      | (Ok _, w'') => (Throw e, w'')
      | (Throw e', w'') => (Throw e', w'')
      | (Exit c, w'') => (Exit c, w'')
      | (Halt, w'') => (Halt, w'')
      end
  | (Exit c, w') => (Exit c, w')
  | (Halt, w') => (Halt, w')
  end.

(** ** Cleanup and the shutdown handler *)

(** [cleanup()] up to its [await]: the guard, and the three close calls
    pushed onto [cleanupTasks] (each with its own [.catch], so no close
    outcome reaches the caller). *)
Definition cleanupStart (w : World) : World :=
  if cleanupCalled (tester w) then w
  else
    let w1 := withTester setCleanupCalled w in
    let w2 := match page (tester w1) with
              | Some p => if negb (isClosed p) then emit ClosePage w1 else w1
              | None => w1
              end in
    let w3 := if context (tester w2) then emit CloseContext w2 else w2 in
    if browser (tester w3) then emit CloseBrowser w3 else w3.

(** [gracefulShutdown(signal)] *)
Definition gracefulShutdown (signal : string) (w : World) : World :=
  let w1 := setShuttingDown w in
  let w2 := if currentTest w1 then cleanupStart w1 else w1 in
  scheduleExit w2.

(** The ['response'] observer of [setupEventHandlers]. *)
Definition onResponse (st : Z) (w : World) : World :=
  if st >=? 400 then withTester (withResults (setHttpStatus st)) w else w.

Definition closePageObject (t : DeviceTester) : DeviceTester :=
  match page t with
  | Some p => setPage (Some {| isClosed := true;
                               responseObserver := responseObserver p |}) t
  | None => t
  end.

(** Delivery of one event while the script is suspended. *)
Definition deliver (w : World) (ev : Event) : World :=
  match ev with
  | Signal s => gracefulShutdown s w
  | ResponseSeen st =>
      match page (tester w) with
      | Some p => if responseObserver p then onResponse st w else w
      | None => w
      end
  | PageGone => withTester closePageObject w
  end.

Definition deliverAll (evs : list Event) (w : World) : World :=
  fold_left deliver evs w.

(** Suspension at an [await]: the events arrive, then the promise settles
    (or never does). *)
Definition suspend {A} (s : Susp A) : M A := fun w =>
  let w' := deliverAll (events s) w in
  match outcome s with
  | Resolved a => (Ok a, w')
  | Rejected e => (Throw e, w')
  | Unsettled => (Halt, w')
  end.

(** [await call(...)]: the call is made, then the script is suspended. *)
Definition await {A} (a : Action) (s : Susp A) : M A :=
  modify (emit a) ;; suspend s.

(** ** The environment of one visit *)

Record Env := {
  e_access : Susp unit;               (* fs.access *)
  e_mkdir : Susp unit;                (* fs.mkdir *)
  e_launch : Susp unit;               (* chromium.launch *)
  e_newContext : Susp unit;           (* browser.newContext *)
  e_newPage : Susp unit;              (* context.newPage *)
  e_goto : Susp (option Response);    (* page.goto; [None] is a null response *)
  e_waitForTimeout : Susp unit;       (* page.waitForTimeout *)
  e_now : string;                     (* new Date().toISOString() *)
  e_screenshot : Susp unit;           (* page.screenshot in takeScreenshot *)
  e_title : Susp string;              (* page.title *)
  e_errorScreenshot : Susp unit;      (* page.screenshot in takeErrorScreenshot *)
  e_allSettled : list Event;          (* while cleanup awaits Promise.allSettled *)
  e_allSettledDone : bool             (* whether that await ever resumes *)
}.

(** ** The methods of [DeviceTester] *)

(** [async cleanup()] *)
Definition cleanup (env : Env) : M unit :=
  w <- get ;;
  if cleanupCalled (tester w) then ret tt
  else
    modify cleanupStart ;;
    suspend {| events := e_allSettled env;
               outcome := if e_allSettledDone env then Resolved tt else Unsettled |}.

(** [async ensureScreenshotDir()] *)
Definition ensureScreenshotDir (env : Env) : M unit :=
  try_catch
    (await (FsAccess CONFIG.SCREENSHOT_DIR) (e_access env))
    (fun _ => await (FsMkdir CONFIG.SCREENSHOT_DIR) (e_mkdir env)).

Definition nullPageError (property : string) : JsError :=
  {| e_name := "TypeError";
     e_message := "Cannot read properties of null (reading '"
                    ++ property ++ "')" |}.

(** [await this.page.method(...)]: on a [null] page the property access
    throws before any call is made. *)
Definition onPage {A} (method : string) (a : Action) (s : Susp A) : M A :=
  w <- get ;;
  match page (tester w) with
  | Some _ => await a s
  | None => throw (nullPageError method)
  end.

(** [setupEventHandlers()]: only the ['response'] observer changes state;
    the ['console'] and ['pageerror'] observers print. *)
Definition setupEventHandlers : M unit :=
  w <- get ;;
  match page (tester w) with
  | Some p => modify (withTester (setPage (Some {| isClosed := isClosed p;
                                                   responseObserver := true |})))
  | None => throw (nullPageError "on")
  end.

Definition httpError (r : Response) : JsError :=
  {| e_name := "Error";
     e_message := "HTTP " ++ Js.ofZ (r_status r) ++ " - " ++ r_statusText r |}.

(** [async loadPage()] *)
Definition loadPage (env : Env) : M unit :=
  try_catch
    (w <- get ;;
     response <- onPage "goto"
                   (Goto (targetUrl (tester w)) CONFIG.PAGE_LOAD_TIMEOUT)
                   (e_goto env) ;;
     match response with
     | Some r =>
         modify (withTester (withResults (setHttpStatus (r_status r)))) ;;
         if r_status r >=? 400 then throw (httpError r) else ret tt
     | None => ret tt
     end)
    (fun error =>
       if String.eqb (e_name error) "TimeoutError" then ret tt
       else throw error).

(** [async takeScreenshot()] *)
Definition takeScreenshot (env : Env) : M unit :=
  try_catch
    (w <- get ;;
     let path := screenshotPathFor (e_now env) (profileName (tester w)) in
     onPage "screenshot" (Screenshot path true) (e_screenshot env) ;;
     modify (withTester (withResults (setScreenshot path))))
    (fun _ => ret tt).

(** [async takeErrorScreenshot()] *)
Definition takeErrorScreenshot (env : Env) : M unit :=
  w <- get ;;
  match page (tester w) with
  | None => ret tt
  | Some _ =>
      try_catch
        (await (Screenshot (errorScreenshotPath (profileName (tester w))) false)
               (e_errorScreenshot env))
        (fun _ => ret tt)
  end.

(** [async collectPageInfo()] *)
Definition collectPageInfo (env : Env) : M unit :=
  try_catch
    (_ <- onPage "title" Title (e_title env) ;; ret tt)
    (fun _ => ret tt).

Definition viewportTypeError : JsError :=
  {| e_name := "TypeError";
     e_message := "Cannot read properties of undefined (reading 'width')" |}.

(** The banner of [test()] reads [this.profile.viewport.width]: a profile
    without viewport throws there. *)
Definition readViewport : M unit :=
  w <- get ;;
  match viewport (profile (tester w)) with
  | Some _ => ret tt
  | None => throw viewportTypeError
  end.

(** The [try] block of [test()], first half: from the banner to the
    assignment of [this.page]. *)
Definition openPage (env : Env) : M unit :=
  readViewport ;;
  ensureScreenshotDir env ;;
  await Launch (e_launch env) ;;
  modify (withTester setBrowser) ;;
  w <- get ;;
  await (NewContext (contextOptions (profile (tester w)))) (e_newContext env) ;;
  modify (withTester setContext) ;;
  await NewPage (e_newPage env) ;;
  modify (withTester (setPage (Some {| isClosed := false;
                                       responseObserver := false |}))).

(** The [try] block of [test()], second half: from [setupEventHandlers()]
    to [return true]. *)
Definition visitPage (env : Env) : M bool :=
  setupEventHandlers ;;
  loadPage env ;;
  onPage "waitForTimeout" (WaitForTimeout CONFIG.SDK_WAIT)
         (e_waitForTimeout env) ;;
  takeScreenshot env ;;
  collectPageInfo env ;;
  modify (withTester (withResults (setStatus "success"))) ;;
  ret true.

Definition testBody (env : Env) : M bool :=
  openPage env ;; visitPage env.

(** The [catch] block of [test()]. *)
Definition testCatch (env : Env) (error : JsError) : M bool :=
  modify (withTester (withResults (setStatus "error"))) ;;
  modify (withTester (withResults (setError (e_message error)))) ;;
  takeErrorScreenshot env ;;
  ret false.

(** [async test()] *)
Definition test (env : Env) : M bool :=
  finally (try_catch (testBody env) (testCatch env)) (cleanup env).

(** ** Argument validation *)

(** [validateArguments()], with [argv2] standing for [process.argv[2]]
    ([None] when the argument is absent).  [!url] holds for [undefined] and
    for the empty string. *)
Definition validateArguments (argv2 : option string) : M string :=
  match argv2 with
  | None => exit 1
  | Some "" => exit 1
  | Some url =>
      if negb (Js.startsWith url "http://") && negb (Js.startsWith url "https://")
      then exit 1
      else ret url
  end.

(** ** The interruptible wait

    [sleep(ms)] arms a one-shot timer for [ms] and an interval timer of
    1000 ms.  Time is counted in milliseconds since the call.  The interval
    callback runs at 1000, 2000, ...; those due before the one-shot timer
    are the ones that can end the wait early.  The delay is taken as given,
    which is what Node does for [1 <= ms <= Js.TIMEOUT_MAX]; the one delay
    the script uses, [CONFIG.INTERVAL], lies in that range. *)

Definition POLL : Z := 1000.

Definition ticksBefore (ms : Z) : list Z :=
  map (fun k => POLL * Z.of_nat k) (seq 1 (Z.to_nat ((ms - 1) / POLL))).

(** The value of [isShuttingDown] at time [t]: set already at the call, or
    set by a signal that arrived at [signalAt]. *)
Definition flagAt (already : bool) (signalAt : option Z) (t : Z) : bool :=
  already || match signalAt with Some s => s <=? t | None => false end.

Record SleepRun := {
  resolvedAt : Z;          (* when the promise resolves *)
  intervalCleared : bool   (* whether [clearInterval] ran *)
}.

(** The interval callback at each tick, then the one-shot timer. *)
Fixpoint runTimers (flag : Z -> bool) (ticks : list Z) (ms : Z) : SleepRun :=
  match ticks with
  | [] => {| resolvedAt := ms; intervalCleared := false |}
  | t :: later =>
      if flag t
      then {| resolvedAt := t; intervalCleared := true |}
      else runTimers flag later ms
  end.

Definition sleepRun (ms : Z) (already : bool) (signalAt : option Z) : SleepRun :=
  runTimers (flagAt already signalAt) (ticksBefore ms) ms.

(** [sleep(ms)] on the world: a signal that arrives during the wait runs
    the shutdown handler; an interval that was not cleared stays armed. *)
Definition sleep (ms : Z) (signal : option (Z * string)) : M unit := fun w =>
  let run := sleepRun ms (isShuttingDown w) (option_map fst signal) in
  let w1 := match signal with
            | Some (s, sig) => if s <? ms then gracefulShutdown sig w else w
            | None => w
            end in
  (Ok tt, if intervalCleared run then w1 else leakInterval w1).

(** ** The rotation loop *)

Record IterEnv := {
  i_visit : Env;                       (* the visit of this iteration *)
  i_sleepSignal : option (Z * string)  (* a signal during the wait after it *)
}.

Record RunEnv := {
  r_devices : Registry;
  r_mkdir : Susp unit;                 (* fs.mkdir at the start of runTests *)
  r_iter : Z -> IterEnv
}.

Record Summary := {
  s_iteration : Z;
  s_successCount : Z;
  s_errorCount : Z
}.

Definition undefinedProfileError : JsError :=
  {| e_name := "TypeError";
     e_message := "Cannot read properties of undefined (reading 'name')" |}.

(** [DEVICE_PROFILES[iteration % DEVICE_PROFILES.length]] *)
Definition selectProfile (catalog : list Profile) (i : Z) : option Profile :=
  let profileIndex := Z.rem i (Z.of_nat (List.length catalog)) in
  nth_error catalog (Z.to_nat profileIndex).

(** The [while] loop of [runTests]; [fuel] bounds the number of rounds and
    [None] is returned only when it runs out. *)
Fixpoint rotation (fuel : nat) (renv : RunEnv) (url : string)
    (i successCount errorCount : Z) : M (option Summary) :=
  w <- get ;;
  if negb (isShuttingDown w) && (i <? CONFIG.MAX_ITERATIONS) then
    match fuel with
    | O => ret None
    | S fuel' =>
        match selectProfile (DEVICE_PROFILES (r_devices renv)) i with
        | None => throw undefinedProfileError
        | Some p =>
            modify (print {| b_iteration := i; b_profile := p |}) ;;
            modify (setCurrentTest (Some (newDeviceTester p i url))) ;;
            success <- test (i_visit (r_iter renv i)) ;;
            modify (setCurrentTest None) ;;
            let successCount' := if success : bool then successCount + 1
                                 else successCount in
            let errorCount' := if success then errorCount else errorCount + 1 in
            let i' := i + 1 in
            w' <- get ;;
            (if negb (isShuttingDown w') && (i' <? CONFIG.MAX_ITERATIONS)
             then sleep CONFIG.INTERVAL (i_sleepSignal (r_iter renv i))
             else ret tt) ;;
            rotation fuel' renv url i' successCount' errorCount'
        end
    end
  else
    ret (Some {| s_iteration := i; s_successCount := successCount;
                 s_errorCount := errorCount |}).

(** [async runTests()] *)
Definition runTests (argv2 : option string) (renv : RunEnv) : M (option Summary) :=
  url <- validateArguments argv2 ;;
  try_catch (await (FsMkdir CONFIG.SCREENSHOT_DIR) (r_mkdir renv))
            (fun _ => ret tt) ;;
  rotation (Z.to_nat CONFIG.MAX_ITERATIONS) renv url 0 0 0.

(** ** The process *)

(** The ['unhandledRejection'] and ['uncaughtException'] handlers. *)
Definition onUnhandledRejection (error : JsError) : M unit := exit 1.
Definition onUncaughtException (error : JsError) : M unit := exit 1.

(** How the Node process ends: it exits with a code, or its event loop is
    kept alive by armed interval timers, or it is stuck at an await. *)
Inductive ProcessEnd :=
| Exited (code : Z)
| KeptAlive (timers : nat)
| Stalled.

(** Once the main function has returned: a pending [process.exit(0)] timer
    ends the process with 0; otherwise Node exits with 0 only when no timer
    is armed any more. *)
Definition afterMain (w : World) : ProcessEnd :=
  if (0 <? exitTimers w)%nat then Exited 0
  else if (liveIntervals w =? 0)%nat then Exited 0
  else KeptAlive (liveIntervals w).

(** The main [async] function with its [catch], run from a fresh process. *)
Definition main (argv2 : option string) (renv : RunEnv) : ProcessEnd * World :=
  match runTests argv2 renv initialWorld with
  | (Ok _, w) => (afterMain w, w)
  | (Throw _, w) => (Exited 1, w)
  | (Exit c, w) => (Exited c, w)
  | (Halt, w) => (if (0 <? exitTimers w)%nat then Exited 0 else Stalled, w)
  end.

(** ** Vocabulary of the statements *)

(** The world at the moment [runTests] has built a tester and stored it in
    [currentTest], just before it calls [test()]. *)
Definition startVisit (p : Profile) (i : Z) (url : string) (w : World) : World :=
  setCurrentTest (Some (newDeviceTester p i url)) w.

Definition isClosePage (a : Action) : bool :=
  match a with ClosePage => true | _ => false end.
Definition isCloseContext (a : Action) : bool :=
  match a with CloseContext => true | _ => false end.
Definition isCloseBrowser (a : Action) : bool :=
  match a with CloseBrowser => true | _ => false end.
Definition isClose (a : Action) : bool :=
  isClosePage a || isCloseContext a || isCloseBrowser a.
Definition isScreenshot (a : Action) : bool :=
  match a with Screenshot _ _ => true | _ => false end.

(** How many actions of one kind the trace holds. *)
Definition occurrences (kind : Action -> bool) (w : World) : nat :=
  List.length (filter kind (trace w)).

(** The screenshot calls made so far. *)
Definition screenshots (w : World) : list Action := filter isScreenshot (trace w).

(** A ['response'] event that the observer records. *)
Definition failingResponse (ev : Event) : bool :=
  match ev with ResponseSeen st => st >=? 400 | _ => false end.

Definition noFailingResponse (evs : list Event) : bool :=
  forallb (fun ev => negb (failingResponse ev)) evs.

Definition isSettled {A} (o : Outcome A) : bool :=
  match o with Unsettled => false | _ => true end.

(** The stages before navigation all succeed: the profile has a viewport,
    the directory exists or is created, browser, context and page open. *)
Definition opensPage (env : Env) (p : Profile) : Prop :=
  viewport p <> None /\
  (outcome (e_access env) = Resolved tt \/
   (exists e, outcome (e_access env) = Rejected e) /\
   outcome (e_mkdir env) = Resolved tt) /\
  outcome (e_launch env) = Resolved tt /\
  outcome (e_newContext env) = Resolved tt /\
  outcome (e_newPage env) = Resolved tt.

(** [loadPage] returns normally: no response, a response below 400, or a
    rejection named [TimeoutError]. *)
Definition navigationPasses (o : Outcome (option Response)) : Prop :=
  match o with
  | Resolved None => True
  | Resolved (Some r) => r_status r < 400
  | Rejected e => e_name e = "TimeoutError"
  | Unsettled => False
  end.

(** Total-correctness triples over the monad: from a world satisfying [P],
    [m] ends with a result and a world satisfying [Q]. *)
Definition hoare {A} (P : World -> Prop) (m : M A)
    (Q : Result A -> World -> Prop) : Prop :=
  forall w, P w -> Q (fst (m w)) (snd (m w)).

(** [m] maintains [P], however it ends. *)
Definition keeps {A} (P : World -> Prop) (m : M A) : Prop :=
  hoare P m (fun _ => P).

(** Predicates that survive whatever happens during a suspension and during
    cleanup, as long as no recorded ['response'] arrives. *)
Record envStable (P : World -> Prop) : Prop := {
  es_cleanup : forall w, P w -> P (cleanupStart w);
  es_flag : forall w, P w -> P (setShuttingDown w);
  es_exit : forall w, P w -> P (scheduleExit w);
  es_gone : forall w, P w -> P (withTester closePageObject w)
}.

(** Predicates that also survive the ['response'] observer. *)
Definition respStable (P : World -> Prop) : Prop :=
  forall st w, P w -> P (withTester (withResults (setHttpStatus st)) w).

(** Predicates that survive every state change the session itself makes
    outside cleanup. *)
Record sessionStable (P : World -> Prop) : Prop := {
  ss_env : envStable P;
  ss_resp : respStable P;
  ss_emit : forall a w, isClose a = false -> P w -> P (emit a w);
  ss_browser : forall w, P w -> P (withTester setBrowser w);
  ss_context : forall w, P w -> P (withTester setContext w);
  ss_page : forall pg w, P w -> P (withTester (setPage (Some pg)) w);
  ss_results : forall f w, P w -> P (withTester (withResults f) w)
}.

(** The banner of iteration [k] over a catalog. *)
Definition bannerOf (catalog : list Profile) (k : nat) : option Banner :=
  option_map (fun p => {| b_iteration := Z.of_nat k; b_profile := p |})
             (selectProfile catalog (Z.of_nat k)).

(** The profiles selected in the [n] iterations that start at [i]. *)
Definition window (catalog : list Profile) (i n : nat) : list (option Profile) :=
  map (fun k => selectProfile catalog (Z.of_nat k)) (seq i n).

(** The argument passes validation, in the words of the interface: it is
    present and begins with one of the two schemes. *)
Definition wellFormedUrl (argv2 : option string) : bool :=
  match argv2 with
  | Some url => Js.startsWith url "http://" || Js.startsWith url "https://"
  | None => false
  end.

(** Since the counts [nP], [nC], [nB] were taken, each resource was closed
    at most once, and not at all as long as the guard is down. *)
Definition closedAtMostOnce (nP nC nB : nat) (w : World) : Prop :=
  (occurrences isClosePage w <= nP + 1)%nat /\
  (occurrences isCloseContext w <= nC + 1)%nat /\
  (occurrences isCloseBrowser w <= nB + 1)%nat /\
  (cleanupCalled (tester w) = false ->
   occurrences isClosePage w = nP /\
   occurrences isCloseContext w = nC /\
   occurrences isCloseBrowser w = nB).

(** No page object yet, and no screenshot call beyond [shots]. *)
Definition noPageYet (shots : list Action) (w : World) : Prop :=
  page (tester w) = None /\ screenshots w = shots.

Definition hasPage (w : World) : Prop := page (tester w) <> None.

(** The fields of the tester that are fixed by its constructor. *)
Definition visitOf (p : Profile) (url : string) (w : World) : Prop :=
  profile (tester w) = p /\ profileName (tester w) = name p /\
  targetUrl (tester w) = url.

Definition performed (a : Action) (w : World) : Prop := In a (trace w).

Definition classified (s : string) (w : World) : Prop :=
  status (testResults (tester w)) = s.

Definition recorded (st : Z) (w : World) : Prop :=
  httpStatus (testResults (tester w)) = st.

(** What a visit has done and recorded once it got past navigation. *)
Definition visited (env : Env) (pn : string) (w : World) : Prop :=
  classified "success" w /\
  performed (WaitForTimeout CONFIG.SDK_WAIT) w /\
  performed (Screenshot (screenshotPathFor (e_now env) pn) true) w /\
  performed Title w.

(** ** Sample environments *)

Definition quiet {A} (o : Outcome A) : Susp A := {| events := []; outcome := o |}.

(** A visit in which everything works and the server answers 200. *)
Definition calmEnv : Env :=
  {| e_access := quiet (Resolved tt);
     e_mkdir := quiet (Resolved tt);
     e_launch := quiet (Resolved tt);
     e_newContext := quiet (Resolved tt);
     e_newPage := quiet (Resolved tt);
     e_goto := quiet (Resolved (Some {| r_status := 200; r_statusText := "OK" |}));
     e_waitForTimeout := quiet (Resolved tt);
     e_now := "2024-01-02T03:04:05.678Z";
     e_screenshot := quiet (Resolved tt);
     e_title := quiet (Resolved "Example Domain");
     e_errorScreenshot := quiet (Resolved tt);
     e_allSettled := [];
     e_allSettledDone := true |}.

Definition withGoto (g : Susp (option Response)) (env : Env) : Env :=
  {| e_access := e_access env; e_mkdir := e_mkdir env; e_launch := e_launch env;
     e_newContext := e_newContext env; e_newPage := e_newPage env;
     e_goto := g;
     e_waitForTimeout := e_waitForTimeout env; e_now := e_now env;
     e_screenshot := e_screenshot env; e_title := e_title env;
     e_errorScreenshot := e_errorScreenshot env;
     e_allSettled := e_allSettled env; e_allSettledDone := e_allSettledDone env |}.

Definition notFound : Response := {| r_status := 404; r_statusText := "Not Found" |}.

(** The server answers 404. *)
Definition env404 : Env := withGoto (quiet (Resolved (Some notFound))) calmEnv.

(** The server answers 404, and while the error screenshot is being taken a
    sub-resource of the error page answers 500. *)
Definition env404then500 : Env :=
  {| e_access := e_access env404; e_mkdir := e_mkdir env404;
     e_launch := e_launch env404; e_newContext := e_newContext env404;
     e_newPage := e_newPage env404; e_goto := e_goto env404;
     e_waitForTimeout := e_waitForTimeout env404; e_now := e_now env404;
     e_screenshot := e_screenshot env404; e_title := e_title env404;
     e_errorScreenshot := {| events := [ResponseSeen 500]; outcome := Resolved tt |};
     e_allSettled := []; e_allSettledDone := true |}.

Definition timeoutError : JsError :=
  {| e_name := "TimeoutError";
     e_message := "page.goto: Timeout 60000ms exceeded." |}.

(** Navigation runs into the page-load timeout. *)
Definition envTimeout : Env := withGoto (quiet (Rejected timeoutError)) calmEnv.

Definition pngQualityError : JsError :=
  {| e_name := "Error";
     e_message := "options.quality is unsupported for the png screenshots" |}.

(** The screenshot and the title read both fail. *)
Definition envNoCapture : Env :=
  {| e_access := e_access calmEnv; e_mkdir := e_mkdir calmEnv;
     e_launch := e_launch calmEnv; e_newContext := e_newContext calmEnv;
     e_newPage := e_newPage calmEnv; e_goto := e_goto calmEnv;
     e_waitForTimeout := e_waitForTimeout calmEnv; e_now := e_now calmEnv;
     e_screenshot := quiet (Rejected pngQualityError);
     e_title := quiet (Rejected pngQualityError);
     e_errorScreenshot := e_errorScreenshot calmEnv;
     e_allSettled := []; e_allSettledDone := true |}.

(** A registry that knows none of the keys, and the one profile of the
    catalog that does not depend on the registry. *)
Definition noDevices : Registry := fun _ => None.

Definition desktopChrome : Profile :=
  {| name := "Desktop Chrome"; category := "desktop";
     viewport := Some {| width := 1366; height := 768 |};
     userAgent := Some desktopChromeUA;
     deviceScaleFactor := Some (1, 1);
     isMobile := Some false;
     hasTouch := Some false |}.

Definition sampleUrl : string := "https://example.com".

(** A registry that answers every key with the same phone descriptor. *)
Definition anyPhone : Registry := fun _ =>
  Some {| d_viewport := {| width := 393; height := 852 |};
          d_userAgent := "Mozilla/5.0 (Linux; Android 14) Mobile";
          d_deviceScaleFactor := (3, 1);
          d_isMobile := true;
          d_hasTouch := true |}.

(** A run with no signal at all, in which every profile is known to the
    registry, every visit behaves as [calmEnv] and every wait runs its full
    minute. *)
Definition calmRun : RunEnv :=
  {| r_devices := anyPhone;
     r_mkdir := quiet (Resolved tt);
     r_iter := fun _ => {| i_visit := calmEnv; i_sleepSignal := None |} |}.

Definition launchError : JsError :=
  {| e_name := "Error";
     e_message := "browserType.launch: Executable doesn't exist" |}.

(** The browser cannot be launched. *)
Definition envLaunchFails : Env :=
  {| e_access := e_access calmEnv; e_mkdir := e_mkdir calmEnv;
     e_launch := quiet (Rejected launchError);
     e_newContext := e_newContext calmEnv; e_newPage := e_newPage calmEnv;
     e_goto := e_goto calmEnv;
     e_waitForTimeout := e_waitForTimeout calmEnv; e_now := e_now calmEnv;
     e_screenshot := e_screenshot calmEnv; e_title := e_title calmEnv;
     e_errorScreenshot := e_errorScreenshot calmEnv;
     e_allSettled := []; e_allSettledDone := true |}.

(** A run whose first wait is interrupted by SIGINT after 2.5 seconds. *)
Definition interruptedRun : RunEnv :=
  {| r_devices := anyPhone;
     r_mkdir := quiet (Resolved tt);
     r_iter := fun _ => {| i_visit := calmEnv;
                           i_sleepSignal := Some (2500, "SIGINT") |} |}.

(** ** Further vocabulary *)

(** Every character of a string passes a test. *)
Fixpoint allChars (p : ascii -> bool) (s : string) : bool :=
  match s with
  | EmptyString => true
  | String c s' => p c && allChars p s'
  end.

(** The characters a slug is made of: [[a-z0-9]] and the separator. *)
Definition slugSafe (c : ascii) : bool :=
  lowerAlnum c || (N_of_ascii c =? 45)%N.

(** The error message stored in [testResults.error]. *)
Definition failedWith (m : string) (w : World) : Prop :=
  error (testResults (tester w)) = Some m.

(** The screenshot fields of [testResults]. *)
Definition captured (taken : bool) (path : option string) (w : World) : Prop :=
  screenshotTaken (testResults (tester w)) = taken /\
  screenshotPath (testResults (tester w)) = path.

(** A result other than [process.exit]. *)
Definition noExit {A} (r : Result A) : Prop :=
  match r with Exit _ => False | _ => True end.

(** [m] never ends the process. *)
Definition neverExits {A} (m : M A) : Prop := forall w, noExit (fst (m w)).

(** A result an [async] function hands to its caller without rejecting:
    a value, or nothing at all because it is still suspended. *)
Definition resolvesOrHangs {A} (r : Result A) : Prop :=
  match r with Ok _ | Halt => True | _ => False end.

(** Predicates that survive suspensions, cleanup, every call other than a
    close, and the assignments of [this.browser], [this.context] and
    [this.page]; writes to [testResults] other than the observer's are left
    to the step that makes them. *)
Record visitStable (P : World -> Prop) : Prop := {
  vs_env : envStable P;
  vs_resp : respStable P;
  vs_emit : forall a w, isClose a = false -> P w -> P (emit a w);
  vs_browser : forall w, P w -> P (withTester setBrowser w);
  vs_context : forall w, P w -> P (withTester setContext w);
  vs_page : forall pg w, P w -> P (withTester (setPage (Some pg)) w)
}.

Definition networkError : JsError :=
  {| e_name := "Error";
     e_message := "page.goto: net::ERR_NAME_NOT_RESOLVED" |}.

(** Navigation fails with an error that is not a timeout. *)
Definition envGotoFails : Env := withGoto (quiet (Rejected networkError)) calmEnv.

Definition closedError : JsError :=
  {| e_name := "Error";
     e_message := "page.waitForTimeout: Target page, context or browser has been closed" |}.

(** The settle wait is rejected. *)
Definition envWaitFails : Env :=
  {| e_access := e_access calmEnv; e_mkdir := e_mkdir calmEnv;
     e_launch := e_launch calmEnv; e_newContext := e_newContext calmEnv;
     e_newPage := e_newPage calmEnv; e_goto := e_goto calmEnv;
     e_waitForTimeout := quiet (Rejected closedError); e_now := e_now calmEnv;
     e_screenshot := e_screenshot calmEnv; e_title := e_title calmEnv;
     e_errorScreenshot := e_errorScreenshot calmEnv;
     e_allSettled := []; e_allSettledDone := true |}.

(** The screenshot fields that the outcome of the screenshot call leads to. *)
Definition capturedAfter (env : Env) (pn : string) (w : World) : Prop :=
  match outcome (e_screenshot env) with
  | Resolved _ => captured true (Some (screenshotPathFor (e_now env) pn)) w
  | _ => captured false None w
  end.

(** Neither browser, nor context, nor page has been assigned. *)
Definition nothingOpen (w : World) : Prop :=
  browser (tester w) = false /\ context (tester w) = false /\
  page (tester w) = None.

(** Nothing is open and the trace is exactly [t]. *)
Definition idleAt (t : list Action) (w : World) : Prop :=
  nothingOpen w /\ trace w = t.

(** The calls of [ensureScreenshotDir] in a given environment. *)
Definition dirCalls (env : Env) : list Action :=
  FsAccess CONFIG.SCREENSHOT_DIR ::
  match outcome (e_access env) with
  | Rejected _ => [FsMkdir CONFIG.SCREENSHOT_DIR]
  | _ => []
  end.

(** The profile has a viewport and the screenshot directory is there or
    gets created. *)
Definition reachesLaunch (env : Env) (p : Profile) : Prop :=
  viewport p <> None /\
  (outcome (e_access env) = Resolved tt \/
   (exists e, outcome (e_access env) = Rejected e) /\
   outcome (e_mkdir env) = Resolved tt).

(** SIGINT arrives while the browser is being launched; the launch then
    succeeds and the visit goes on. *)
Definition envSignalAtLaunch : Env :=
  {| e_access := e_access calmEnv; e_mkdir := e_mkdir calmEnv;
     e_launch := {| events := [Signal "SIGINT"]; outcome := Resolved tt |};
     e_newContext := e_newContext calmEnv; e_newPage := e_newPage calmEnv;
     e_goto := e_goto calmEnv;
     e_waitForTimeout := e_waitForTimeout calmEnv; e_now := e_now calmEnv;
     e_screenshot := e_screenshot calmEnv; e_title := e_title calmEnv;
     e_errorScreenshot := e_errorScreenshot calmEnv;
     e_allSettled := []; e_allSettledDone := true |}.

(** Before anything is open: nothing was closed beyond the [c] closes of
    earlier visits, and [currentTest] refers to the tester. *)
Definition beforeLaunch (c : nat) (w : World) : Prop :=
  nothingOpen w /\ occurrences isClose w = c /\ currentTest w = true.

(** Cleanup has run (its guard is up) without closing anything beyond the
    [c] closes of earlier visits, and the shutdown flag is set. *)
Definition cleanedEarly (c : nat) (w : World) : Prop :=
  cleanupCalled (tester w) = true /\ occurrences isClose w = c /\
  isShuttingDown w = true.

(** The position of a call in the text of [test()]; the close calls of
    cleanup, which a signal can place anywhere, carry no position. *)
Definition stage (a : Action) : nat :=
  match a with
  | FsAccess _ => 1
  | FsMkdir _ => 2
  | Launch => 3
  | NewContext _ => 4
  | NewPage => 5
  | Goto _ _ => 6
  | WaitForTimeout _ => 7
  | Screenshot _ _ => 8
  | Title => 9
  | ClosePage | CloseContext | CloseBrowser => 0
  end%nat.

(** The positions of the calls, closes aside, made after the first [n0]
    actions of the trace. *)
Definition callsSince (n0 : nat) (w : World) : list nat :=
  map stage (filter (fun a => negb (isClose a)) (skipn n0 (trace w))).

(** The first [length t0] actions are still [t0], and the calls made since
    are in strictly increasing position, all below [bound]. *)
Definition inOrder (t0 : list Action) (bound : nat) (w : World) : Prop :=
  firstn (List.length t0) (trace w) = t0 /\
  (List.length t0 <= List.length (trace w))%nat /\
  StronglySorted lt (callsSince (List.length t0) w) /\
  Forall (fun s => s < bound)%nat (callsSince (List.length t0) w).

(** What the body of a visit leaves behind: a rejection can only come
    before the screenshot. *)
Definition orderedBody (t0 : list Action) (r : Result bool) (w : World) : Prop :=
  match r with
  | Throw _ => inOrder t0 8 w
  | _ => inOrder t0 10 w
  end.

(** ** Vocabulary of the rotation *)

(** The options of the [newContext] calls among some actions, in order. *)
Definition contextsOf (t : list Action) : list ContextOptions :=
  flat_map (fun a => match a with NewContext o => [o] | _ => [] end) t.

(** The options handed to [browser.newContext] so far, oldest first. *)
Definition contexts (w : World) : list ContextOptions := contextsOf (trace w).

(** The options that the visit of iteration [k] hands to
    [browser.newContext] when it is made with the profile selected for [k]. *)
Definition contextOf (catalog : list Profile) (k : nat) : option ContextOptions :=
  option_map contextOptions (selectProfile catalog (Z.of_nat k)).

(** The call [a] was made after the first [n0] actions of the trace. *)
Definition calledSince (n0 : nat) (a : Action) (w : World) : Prop :=
  In a (skipn n0 (trace w)).

(** The tester object was built for iteration [i] with profile [p], and
    the banners printed are [l]. *)
Definition testerOf (p : Profile) (i : Z) (l : list Banner) (w : World) : Prop :=
  profile (tester w) = p /\ iteration (tester w) = i /\ console w = l.

(** The tester object built last is the one of the last banner printed: it
    carries that banner's profile and iteration number. *)
Definition testerOfLastBanner (w : World) : Prop :=
  match rev (console w) with
  | [] => True
  | b :: _ => profile (tester w) = b_profile b /\
              iteration (tester w) = b_iteration b
  end.

(** In every iteration the visit gets as far as creating its context: the
    selected profile has a viewport, the screenshot directory is there or
    gets created, and the browser launches. *)
Definition reachesContext (renv : RunEnv) : Prop :=
  forall (k : Z) (p : Profile),
    selectProfile (DEVICE_PROFILES (r_devices renv)) k = Some p ->
    reachesLaunch (i_visit (r_iter renv k)) p /\
    outcome (e_launch (i_visit (r_iter renv k))) = Resolved tt.

(** The state of affairs at the head of iteration [k]: banners 0 .. k-1
    have been printed, each with the profile selected for its iteration;
    the tester object is the one of the last banner; and, when every visit
    gets as far as creating its context, the [newContext] calls so far are
    those of iterations 0 .. k-1, each with the options of the profile
    selected for it. *)
Definition visitedInTurn (renv : RunEnv) (k : nat) (w : World) : Prop :=
  let catalog := DEVICE_PROFILES (r_devices renv) in
  map Some (console w) = map (bannerOf catalog) (seq 0 k) /\
  testerOfLastBanner w /\
  (reachesContext renv ->
   map Some (contexts w) = map (contextOf catalog) (seq 0 k)).

(** * Properties *)

(** ** Slugs *)

Lemma replaceAll_dash_get (cls : ascii -> bool) (s : string) (i : nat) :
  String.get i (Js.replaceAll cls "-" s)
  = option_map (fun c => if cls c then "-"%char else c) (String.get i s).
Proof.
  revert i; induction s as [|c s IH]; intros i; simpl.
  - reflexivity.
  - destruct i; simpl; destruct (cls c); simpl; auto.
Qed.

Lemma replaceAll_dash_length (cls : ascii -> bool) (s : string) :
  String.length (Js.replaceAll cls "-" s) = String.length s.
Proof.
  induction s as [|c s IH]; simpl; [reflexivity|].
  destruct (cls c); simpl; now rewrite IH.
Qed.

Lemma toLowerCase_get (s : string) (i : nat) :
  String.get i (Js.toLowerCase s) = option_map Js.lowerChar (String.get i s).
Proof.
  revert i; induction s as [|c s IH]; intros [|i]; simpl; auto.
Qed.

Lemma toLowerCase_length (s : string) :
  String.length (Js.toLowerCase s) = String.length s.
Proof. induction s; simpl; congruence. Qed.

(** C1, counterexample: the catalog name [iPad (gen 7)] has the run
    space-parenthesis; the slug of the source keeps one separator per
    character of the run, so two separators are adjacent and the slug
    differs from the one with collapsed runs. *)
Lemma safeName_keeps_runs :
  In "iPad (gen 7)" (map name (DEVICE_PROFILES noDevices)) /\
  safeName "iPad (gen 7)" = "ipad--gen-7-" /\
  adjacentSeparators (safeName "iPad (gen 7)") = true /\
  slugCollapsed "iPad (gen 7)" = "ipad-gen-7-" /\
  safeName "iPad (gen 7)" <> slugCollapsed "iPad (gen 7)".
Proof.
  repeat split; try reflexivity.
  - simpl; auto.
  - vm_compute; discriminate.
Qed.

(** C1, as amended, for profile names made of Latin-1 characters (code
    units below 256, the strings of this development, which include every
    name of the catalog): the slug in both screenshot file names is the
    profile name lowercased with each character outside [[a-z0-9]]
    replaced, one for one, by the separator; it has the length of the name
    and its [i]-th character is the image of the name's [i]-th character.
    Outside Latin-1 lowercasing can change the number of code units, so
    nothing is stated about the length there. *)
Theorem safeName_replaces_each_character : forall profileName : string,
  String.length (safeName profileName) = String.length profileName /\
  (forall i, String.get i (safeName profileName)
             = option_map slugChar (String.get i profileName)) /\
  (forall iso, screenshotPathFor iso profileName
     = "screenshots/screenshot-" ++ timestamp iso ++ "-"
         ++ safeName profileName ++ ".png") /\
  errorScreenshotPath profileName
     = "screenshots/error-screenshot-" ++ safeName profileName ++ ".png".
Proof.
  intros s; unfold safeName; repeat split.
  - now rewrite replaceAll_dash_length, toLowerCase_length.
  - intros i. rewrite replaceAll_dash_get, toLowerCase_get.
    destruct (String.get i s) as [c|]; simpl; [|reflexivity].
    unfold slugChar, notLowerAlnum.
    now destruct (lowerAlnum (Js.lowerChar c)).
Qed.

(** ** Argument validation *)

Lemma validateArguments_run (argv2 : option string) (w : World) :
  validateArguments argv2 w
  = (match argv2 with
     | Some url => if wellFormedUrl argv2 then Ok url else Exit 1
     | None => Exit 1
     end, w).
Proof.
  destruct argv2 as [[|c url]|]; try reflexivity.
  unfold validateArguments, wellFormedUrl.
  destruct (Js.startsWith (String c url) "http://"),
           (Js.startsWith (String c url) "https://"); reflexivity.
Qed.

(** C6: validation ends the process with code 1, with no action performed,
    exactly when the argument is absent or begins with neither scheme;
    otherwise it returns the argument as it is. *)
Theorem validateArguments_exact : forall (argv2 : option string) (w : World)
    (renv : RunEnv),
  if wellFormedUrl argv2
  then exists url, argv2 = Some url /\ validateArguments argv2 w = (Ok url, w)
  else validateArguments argv2 w = (Exit 1, w) /\
       main argv2 renv = (Exited 1, initialWorld).
Proof.
  intros argv2 w renv.
  assert (Hm : wellFormedUrl argv2 = false ->
               main argv2 renv = (Exited 1, initialWorld)).
  { intros E. unfold main, runTests, bind.
    rewrite validateArguments_run, E. destruct argv2; reflexivity. }
  rewrite validateArguments_run.
  destruct (wellFormedUrl argv2) eqn:E.
  - destruct argv2 as [url|]; [|discriminate]. exists url; split; reflexivity.
  - split; [destruct argv2; reflexivity | auto].
Qed.

(** ** The interruptible wait *)

Lemma poll_floor (ms : Z) :
  POLL * ((ms - 1) / POLL) <= ms - 1 < POLL * ((ms - 1) / POLL + 1).
Proof.
  unfold POLL.
  pose proof (Z.mod_pos_bound (ms - 1) 1000 ltac:(lia)).
  pose proof (Z.div_mod (ms - 1) 1000 ltac:(lia)). lia.
Qed.

Lemma runTimers_bounds (s ms : Z) (n a : nat) :
  0 <= s < ms ->
  POLL * Z.of_nat a <= s + POLL ->
  Z.of_nat (a + n) = (ms - 1) / POLL + 1 ->
  let r := runTimers (flagAt false (Some s))
             (map (fun k => POLL * Z.of_nat k) (seq a n)) ms in
  s <= resolvedAt r <= s + POLL /\ resolvedAt r <= ms /\
  (intervalCleared r = false -> resolvedAt r = ms).
Proof.
  pose proof (poll_floor ms) as Hfl.
  revert a; induction n as [|n IH]; intros a Hs Ha Hn; cbn [seq map runTimers].
  - cbn [resolvedAt intervalCleared].
    replace (a + 0)%nat with a in Hn by lia. rewrite <- Hn in Hfl.
    unfold POLL in *. lia.
  - assert (Hf : flagAt false (Some s) (POLL * Z.of_nat a)
                 = (s <=? POLL * Z.of_nat a)) by reflexivity.
    rewrite Hf. destruct (s <=? POLL * Z.of_nat a) eqn:E.
    + cbn [resolvedAt intervalCleared]. apply Z.leb_le in E.
      assert (POLL * Z.of_nat a < ms).
      { assert (Z.of_nat a <= (ms - 1) / POLL) by lia.
        unfold POLL in *. nia. }
      repeat split; try lia; discriminate.
    + apply Z.leb_gt in E. apply (IH (S a)); unfold POLL in *; lia.
Qed.

(** ** Reasoning rules for the monad *)

Lemma hoare_conseq {A} (P P' : World -> Prop) (Q Q' : Result A -> World -> Prop)
    (m : M A) :
  hoare P' m Q' -> (forall w, P w -> P' w) ->
  (forall r w, Q' r w -> Q r w) -> hoare P m Q.
Proof. unfold hoare; auto. Qed.

Lemma hoare_bind {A B} (P : World -> Prop) (R : Result A -> World -> Prop)
    (Q : Result B -> World -> Prop) (m : M A) (k : A -> M B) :
  hoare P m R ->
  (forall a, hoare (R (Ok a)) (k a) Q) ->
  (forall e w, R (Throw e) w -> Q (Throw e) w) ->
  (forall c w, R (Exit c) w -> Q (Exit c) w) ->
  (forall w, R Halt w -> Q Halt w) ->
  hoare P (bind m k) Q.
Proof.
  intros Hm Hk Ht He Hh w Hw. specialize (Hm w Hw). unfold bind.
  destruct (m w) as [[a|e|c|] w']; simpl in *; auto.
  apply Hk; assumption.
Qed.

Lemma hoare_try_catch {A} (P : World -> Prop) (R Q : Result A -> World -> Prop)
    (m : M A) (h : JsError -> M A) :
  hoare P m R ->
  (forall e, hoare (R (Throw e)) (h e) Q) ->
  (forall a w, R (Ok a) w -> Q (Ok a) w) ->
  (forall c w, R (Exit c) w -> Q (Exit c) w) ->
  (forall w, R Halt w -> Q Halt w) ->
  hoare P (try_catch m h) Q.
Proof.
  intros Hm Hh Ho He Hl w Hw. specialize (Hm w Hw). unfold try_catch.
  destruct (m w) as [[a|e|c|] w']; simpl in *; auto.
  apply Hh; assumption.
Qed.

Lemma keeps_ret {A} (P : World -> Prop) (a : A) : keeps P (ret a).
Proof. intros w Hw; exact Hw. Qed.

Lemma keeps_throw {A} (P : World -> Prop) (e : JsError) : keeps P (@throw A e).
Proof. intros w Hw; exact Hw. Qed.

Lemma keeps_get (P : World -> Prop) : keeps P get.
Proof. intros w Hw; exact Hw. Qed.

Lemma keeps_modify (P : World -> Prop) (f : World -> World) :
  (forall w, P w -> P (f w)) -> keeps P (modify f).
Proof. intros Hf w Hw; simpl; auto. Qed.

Lemma keeps_bind {A B} (P : World -> Prop) (m : M A) (k : A -> M B) :
  keeps P m -> (forall a, keeps P (k a)) -> keeps P (bind m k).
Proof.
  intros Hm Hk. apply hoare_bind with (R := fun _ => P); auto.
Qed.

Lemma keeps_try_catch {A} (P : World -> Prop) (m : M A) (h : JsError -> M A) :
  keeps P m -> (forall e, keeps P (h e)) -> keeps P (try_catch m h).
Proof.
  intros Hm Hh. apply hoare_try_catch with (R := fun _ => P); auto.
Qed.

Lemma keeps_finally {A} (P : World -> Prop) (m : M A) (f : M unit) :
  keeps P m -> keeps P f -> keeps P (finally m f).
Proof.
  intros Hm Hf w Hw. specialize (Hm w Hw). unfold finally.
  destruct (m w) as [[a|e|c|] w']; simpl in *; auto;
    specialize (Hf w' Hm); destruct (f w') as [[[]|e'|c'|] w'']; simpl in *; auto.
Qed.

(** ** What suspensions and cleanup leave untouched *)

Lemma cleanupStart_pieces (P : World -> Prop) :
  (forall a w, isClose a = true -> P w -> P (emit a w)) ->
  (forall w, P w -> P (withTester setCleanupCalled w)) ->
  forall w, P w -> P (cleanupStart w).
Proof.
  intros Hc Hd w Hw. unfold cleanupStart.
  destruct (cleanupCalled (tester w)); [assumption|].
  set (w1 := withTester setCleanupCalled w).
  assert (H1 : P w1) by (apply Hd; assumption).
  set (w2 := match page (tester w1) with
             | Some p => if negb (isClosed p) then emit ClosePage w1 else w1
             | None => w1
             end).
  assert (H2 : P w2).
  { subst w2. destruct (page (tester w1)) as [p|]; [|assumption].
    destruct (negb (isClosed p)); [apply Hc; auto|assumption]. }
  set (w3 := if context (tester w2) then emit CloseContext w2 else w2).
  assert (H3 : P w3).
  { subst w3. destruct (context (tester w2)); [apply Hc; auto|assumption]. }
  destruct (browser (tester w3)); [apply Hc; auto|assumption].
Qed.

Lemma cleanupStart_keeps (P : World -> Prop) (w : World) :
  envStable P -> P w -> P (cleanupStart w).
Proof. intros HP; apply (es_cleanup P HP). Qed.

Lemma gracefulShutdown_keeps (P : World -> Prop) (s : string) (w : World) :
  envStable P -> P w -> P (gracefulShutdown s w).
Proof.
  intros HP Hw. unfold gracefulShutdown.
  apply (es_exit P HP).
  destruct (currentTest (setShuttingDown w)).
  - apply cleanupStart_keeps; [assumption|]. apply (es_flag P HP); assumption.
  - apply (es_flag P HP); assumption.
Qed.

Lemma deliver_quiet (P : World -> Prop) (ev : Event) (w : World) :
  envStable P -> failingResponse ev = false -> P w -> P (deliver w ev).
Proof.
  intros HP Hq Hw. destruct ev as [s|st|]; simpl in *.
  - apply gracefulShutdown_keeps; assumption.
  - unfold onResponse. rewrite Hq.
    destruct (page (tester w)) as [p|]; [|assumption].
    destruct (responseObserver p); assumption.
  - apply (es_gone P HP); assumption.
Qed.

Lemma deliver_keeps (P : World -> Prop) (ev : Event) (w : World) :
  envStable P -> respStable P -> P w -> P (deliver w ev).
Proof.
  intros HP HR Hw. destruct (failingResponse ev) eqn:E.
  - destruct ev as [s|st|]; simpl in *; try discriminate.
    unfold onResponse. rewrite E.
    destruct (page (tester w)) as [p|]; [|assumption].
    destruct (responseObserver p); [apply HR|]; assumption.
  - apply deliver_quiet; assumption.
Qed.

Lemma deliverAll_quiet (P : World -> Prop) (evs : list Event) (w : World) :
  envStable P -> noFailingResponse evs = true -> P w -> P (deliverAll evs w).
Proof.
  intros HP. revert w. induction evs as [|ev evs IH]; intros w Hq Hw; simpl in *.
  - assumption.
  - apply andb_true_iff in Hq as [Hq1 Hq2]. apply negb_true_iff in Hq1.
    apply IH; [assumption|]. apply deliver_quiet; assumption.
Qed.

Lemma deliverAll_keeps (P : World -> Prop) (evs : list Event) (w : World) :
  envStable P -> respStable P -> P w -> P (deliverAll evs w).
Proof.
  intros HP HR. revert w. induction evs as [|ev evs IH]; intros w Hw; simpl.
  - assumption.
  - apply IH. apply deliver_keeps; assumption.
Qed.

Lemma keeps_suspend {A} (P : World -> Prop) (s : Susp A) :
  envStable P -> respStable P -> keeps P (suspend s).
Proof.
  intros HP HR w Hw. unfold suspend.
  destruct (outcome s); simpl; apply deliverAll_keeps; assumption.
Qed.

Lemma keeps_await {A} (P : World -> Prop) (a : Action) (s : Susp A) :
  envStable P -> respStable P -> (forall w, P w -> P (emit a w)) ->
  keeps P (await a s).
Proof.
  intros HP HR Ha. unfold await. apply keeps_bind.
  - apply keeps_modify. assumption.
  - intros _. apply keeps_suspend; assumption.
Qed.

Lemma keeps_cleanup (P : World -> Prop) (env : Env) :
  envStable P -> respStable P -> keeps P (cleanup env).
Proof.
  intros HP HR. unfold cleanup. apply keeps_bind; [apply keeps_get|].
  intros w. destruct (cleanupCalled (tester w)); [apply keeps_ret|].
  apply keeps_bind.
  - apply keeps_modify. intros v; apply cleanupStart_keeps; assumption.
  - intros _. apply keeps_suspend; assumption.
Qed.

(** ** Invariants of a whole visit *)

Section SessionInvariant.

Variable P : World -> Prop.
Hypothesis HP : sessionStable P.
Variable env : Env.

Let results_ok f w := ss_results P HP f w.

Lemma keeps_call {A} (a : Action) (s : Susp A) :
  isClose a = false -> keeps P (await a s).
Proof.
  intros Ha. apply keeps_await;
    [apply (ss_env P HP) | apply (ss_resp P HP) |].
  intros w; apply (ss_emit P HP); assumption.
Qed.

Lemma keeps_onPage {A} (method : string) (a : Action) (s : Susp A) :
  isClose a = false -> keeps P (onPage method a s).
Proof.
  intros Ha. unfold onPage. apply keeps_bind; [apply keeps_get|].
  intros w. destruct (page (tester w)); [apply keeps_call; assumption|].
  apply keeps_throw.
Qed.

Lemma keeps_ensureScreenshotDir : keeps P (ensureScreenshotDir env).
Proof.
  unfold ensureScreenshotDir. apply keeps_try_catch.
  - apply keeps_call; auto.
  - intros _. apply keeps_call; auto.
Qed.

Lemma keeps_openPage : keeps P (openPage env).
Proof.
  unfold openPage, readViewport.
  apply keeps_bind.
  { apply keeps_bind; [apply keeps_get|]. intros w.
    destruct (viewport (profile (tester w))); [apply keeps_ret|apply keeps_throw]. }
  intros _. apply keeps_bind; [apply keeps_ensureScreenshotDir|].
  intros _. apply keeps_bind; [apply keeps_call; auto|].
  intros _. apply keeps_bind; [apply keeps_modify, (ss_browser P HP)|].
  intros _. apply keeps_bind; [apply keeps_get|].
  intros w. apply keeps_bind; [apply keeps_call; auto|].
  intros _. apply keeps_bind; [apply keeps_modify, (ss_context P HP)|].
  intros _. apply keeps_bind; [apply keeps_call; auto|].
  intros _. apply keeps_modify, (ss_page P HP).
Qed.

Lemma keeps_setupEventHandlers : keeps P setupEventHandlers.
Proof.
  unfold setupEventHandlers. apply keeps_bind; [apply keeps_get|].
  intros w. destruct (page (tester w)); [|apply keeps_throw].
  apply keeps_modify, (ss_page P HP).
Qed.

Lemma keeps_loadPage : keeps P (loadPage env).
Proof.
  unfold loadPage. apply keeps_try_catch.
  - apply keeps_bind; [apply keeps_get|]. intros w.
    apply keeps_bind; [apply keeps_onPage; auto|].
    intros [r|]; [|apply keeps_ret].
    apply keeps_bind; [apply keeps_modify, results_ok|].
    intros _. destruct (r_status r >=? 400); [apply keeps_throw|apply keeps_ret].
  - intros e. destruct (String.eqb (e_name e) "TimeoutError");
      [apply keeps_ret|apply keeps_throw].
Qed.

Lemma keeps_takeScreenshot : keeps P (takeScreenshot env).
Proof.
  unfold takeScreenshot. apply keeps_try_catch; [|intros _; apply keeps_ret].
  apply keeps_bind; [apply keeps_get|]. intros w.
  apply keeps_bind; [apply keeps_onPage; auto|].
  intros _. apply keeps_modify, results_ok.
Qed.

Lemma keeps_collectPageInfo : keeps P (collectPageInfo env).
Proof.
  unfold collectPageInfo. apply keeps_try_catch; [|intros _; apply keeps_ret].
  apply keeps_bind; [apply keeps_onPage; auto|]. intros _; apply keeps_ret.
Qed.

Lemma keeps_takeErrorScreenshot : keeps P (takeErrorScreenshot env).
Proof.
  unfold takeErrorScreenshot. apply keeps_bind; [apply keeps_get|].
  intros w. destruct (page (tester w)); [|apply keeps_ret].
  apply keeps_try_catch; [apply keeps_call; auto|intros _; apply keeps_ret].
Qed.

Lemma keeps_visitPage : keeps P (visitPage env).
Proof.
  unfold visitPage.
  apply keeps_bind; [apply keeps_setupEventHandlers|].
  intros _. apply keeps_bind; [apply keeps_loadPage|].
  intros _. apply keeps_bind; [apply keeps_onPage; auto|].
  intros _. apply keeps_bind; [apply keeps_takeScreenshot|].
  intros _. apply keeps_bind; [apply keeps_collectPageInfo|].
  intros _. apply keeps_bind; [apply keeps_modify, results_ok|].
  intros _. apply keeps_ret.
Qed.

Lemma keeps_testCatch (e : JsError) : keeps P (testCatch env e).
Proof.
  unfold testCatch.
  apply keeps_bind; [apply keeps_modify, results_ok|].
  intros _. apply keeps_bind; [apply keeps_modify, results_ok|].
  intros _. apply keeps_bind; [apply keeps_takeErrorScreenshot|].
  intros _. apply keeps_ret.
Qed.

Lemma keeps_test : keeps P (test env).
Proof.
  unfold test, testBody. apply keeps_finally.
  - apply keeps_try_catch.
    + apply keeps_bind; [apply keeps_openPage|]. intros _; apply keeps_visitPage.
    + apply keeps_testCatch.
  - apply keeps_cleanup; [apply (ss_env P HP) | apply (ss_resp P HP)].
Qed.

End SessionInvariant.

(** ** Stable predicates *)

Lemma occurrences_emit (kind : Action -> bool) (a : Action) (w : World) :
  occurrences kind (emit a w)
  = (occurrences kind w + if kind a then 1 else 0)%nat.
Proof.
  unfold occurrences; simpl. rewrite filter_app, length_app; simpl.
  destruct (kind a); reflexivity.
Qed.

Lemma screenshots_emit (a : Action) (w : World) :
  isScreenshot a = false -> screenshots (emit a w) = screenshots w.
Proof.
  intros Ha. unfold screenshots; simpl. rewrite filter_app; simpl.
  rewrite Ha. apply app_nil_r.
Qed.

Lemma isClose_not_screenshot (a : Action) :
  isClose a = true -> isScreenshot a = false.
Proof. destruct a; cbn; intros H; solve [discriminate H | reflexivity]. Qed.

(** Unfolds the state changes of a stability goal down to the fields. *)
Ltac fields :=
  intros;
  unfold closedAtMostOnce, noPageYet, hasPage, visitOf, performed, classified,
    recorded, occurrences, screenshots, closePageObject in *;
  cbn in *;
  try match goal with
      | |- context [page (tester ?w)] =>
          destruct (page (tester w)) eqn:?; cbn in *
      end;
  try solve [intuition congruence];
  auto using in_or_app.

Ltac env_stable :=
  constructor;
  [ apply cleanupStart_pieces; fields | fields | fields | fields ].

Ltac session_stable :=
  constructor;
  [ env_stable | unfold respStable; fields | fields | fields | fields | fields
  | fields ].

Lemma stable_console (c : list Banner) :
  sessionStable (fun w => console w = c).
Proof. session_stable. Qed.

Lemma stable_hasPage : sessionStable hasPage.
Proof. session_stable. Qed.

Lemma stable_visitOf (p : Profile) (url : string) :
  sessionStable (visitOf p url).
Proof. session_stable. Qed.

Lemma stable_performed (a : Action) : sessionStable (performed a).
Proof. session_stable. Qed.

Lemma stable_classified_env (s : string) : envStable (classified s).
Proof. env_stable. Qed.

Lemma stable_classified_resp (s : string) : respStable (classified s).
Proof. unfold respStable; fields. Qed.

Lemma stable_recorded_env (st : Z) : envStable (recorded st).
Proof. env_stable. Qed.

Lemma sessionStable_and (P Q : World -> Prop) :
  sessionStable P -> sessionStable Q -> sessionStable (fun w => P w /\ Q w).
Proof.
  intros [[p1 p2 p3 p4] p5 p6 p7 p8 p9 p10] [[q1 q2 q3 q4] q5 q6 q7 q8 q9 q10].
  constructor; [constructor|unfold respStable in *|..]; intros; intuition.
Qed.

Lemma envStable_and (P Q : World -> Prop) :
  envStable P -> envStable Q -> envStable (fun w => P w /\ Q w).
Proof.
  intros [p1 p2 p3 p4] [q1 q2 q3 q4]. constructor; intros; intuition.
Qed.

Lemma envStable_or (P Q : World -> Prop) :
  envStable P -> envStable Q -> envStable (fun w => P w \/ Q w).
Proof.
  intros [p1 p2 p3 p4] [q1 q2 q3 q4]. constructor; intros; intuition.
Qed.

Lemma respStable_and (P Q : World -> Prop) :
  respStable P -> respStable Q -> respStable (fun w => P w /\ Q w).
Proof. unfold respStable; intros; intuition. Qed.

Lemma respStable_or (P Q : World -> Prop) :
  respStable P -> respStable Q -> respStable (fun w => P w \/ Q w).
Proof. unfold respStable; intros; intuition. Qed.

Lemma stable_noPageYet_env (shots : list Action) : envStable (noPageYet shots).
Proof.
  constructor; [apply cleanupStart_pieces|..]; try solve [fields].
  intros a w Ha [H1 H2]; split; [exact H1|]. subst shots.
  rewrite screenshots_emit; auto using isClose_not_screenshot.
Qed.

Lemma stable_noPageYet_resp (shots : list Action) : respStable (noPageYet shots).
Proof. unfold respStable; fields. Qed.

Lemma cleanupStart_sets_guard (w : World) :
  cleanupCalled (tester (cleanupStart w)) = true.
Proof.
  unfold cleanupStart. destruct (cleanupCalled (tester w)) eqn:E; [exact E|].
  cbn. destruct (page (tester w)) as [[[] o]|]; cbn;
    destruct (context (tester w)); cbn; destruct (browser (tester w)); reflexivity.
Qed.

Lemma cleanupStart_closes_once (nP nC nB : nat) (w : World) :
  closedAtMostOnce nP nC nB w -> closedAtMostOnce nP nC nB (cleanupStart w).
Proof.
  intros H. pose proof (cleanupStart_sets_guard w) as Hg.
  unfold closedAtMostOnce. rewrite Hg.
  assert (Hgoal :
    (occurrences isClosePage (cleanupStart w) <= nP + 1)%nat /\
    (occurrences isCloseContext (cleanupStart w) <= nC + 1)%nat /\
    (occurrences isCloseBrowser (cleanupStart w) <= nB + 1)%nat).
  { clear Hg. unfold cleanupStart.
    destruct H as (H1 & H2 & H3 & H4).
    destruct (cleanupCalled (tester w)) eqn:E; [auto|].
    destruct (H4 eq_refl) as (E1 & E2 & E3).
    cbn. destruct (page (tester w)) as [[[] o]|]; cbn;
      destruct (context (tester w)); cbn; destruct (browser (tester w));
      repeat rewrite occurrences_emit; unfold occurrences in *; cbn; lia. }
  intuition discriminate.
Qed.

Lemma stable_closedAtMostOnce (nP nC nB : nat) :
  sessionStable (closedAtMostOnce nP nC nB).
Proof.
  constructor; [constructor|unfold respStable|..];
    try solve [intros; apply cleanupStart_closes_once; assumption];
    try solve [fields].
  intros a w Ha H. unfold closedAtMostOnce in *.
  rewrite !occurrences_emit.
  assert (isClosePage a = false /\ isCloseContext a = false /\
          isCloseBrowser a = false) as (E1 & E2 & E3).
  { unfold isClose in Ha. destruct (isClosePage a), (isCloseContext a),
      (isCloseBrowser a); simpl in Ha; try discriminate; auto. }
  rewrite E1, E2, E3, !Nat.add_0_r. exact H.
Qed.

(** ** Cleanup runs once *)

Lemma cleanup_after_guard (env : Env) (w : World) :
  cleanupCalled (tester w) = true -> cleanup env w = (Ok tt, w).
Proof. intros H. unfold cleanup, bind, get; simpl. now rewrite H. Qed.

Lemma cleanupStart_after_guard (w : World) :
  cleanupCalled (tester w) = true -> cleanupStart w = w.
Proof. intros H. unfold cleanupStart. now rewrite H. Qed.

Lemma gracefulShutdown_sets_guard (sig : string) (t : DeviceTester) (w : World) :
  cleanupCalled (tester (gracefulShutdown sig (setCurrentTest (Some t) w))) = true.
Proof.
  unfold gracefulShutdown. cbn [currentTest setShuttingDown setCurrentTest].
  cbn [scheduleExit tester]. apply cleanupStart_sets_guard.
Qed.

(** C4: over a whole visit, whatever the environment does (signals at any
    suspension point included), each of page, context and browser is closed
    at most once; a second [cleanup()] after a first one returns at once and
    leaves the world as it is, whether the first ran from the [finally]
    block or from the shutdown handler, and the shutdown handler after a
    cleanup closes nothing. *)
Theorem cleanup_closes_at_most_once : forall (env : Env) (p : Profile) (i : Z)
    (url : string) (w0 : World),
  let w' := snd (test env (startVisit p i url w0)) in
  (occurrences isClosePage w' <= occurrences isClosePage w0 + 1)%nat /\
  (occurrences isCloseContext w' <= occurrences isCloseContext w0 + 1)%nat /\
  (occurrences isCloseBrowser w' <= occurrences isCloseBrowser w0 + 1)%nat /\
  (forall v env', cleanup env' (cleanupStart v) = (Ok tt, cleanupStart v)) /\
  (forall v, cleanupStart (cleanupStart v) = cleanupStart v) /\
  (forall v sig,
     trace (gracefulShutdown sig (cleanupStart v)) = trace (cleanupStart v)) /\
  (forall v t sig env',
     let v' := gracefulShutdown sig (setCurrentTest (Some t) v) in
     cleanup env' v' = (Ok tt, v')).
Proof.
  intros env p i url w0 w'.
  pose proof (keeps_test _ (stable_closedAtMostOnce
                (occurrences isClosePage w0) (occurrences isCloseContext w0)
                (occurrences isCloseBrowser w0)) env (startVisit p i url w0)) as H.
  assert (H0 : closedAtMostOnce (occurrences isClosePage w0)
                 (occurrences isCloseContext w0) (occurrences isCloseBrowser w0)
                 (startVisit p i url w0)).
  { unfold closedAtMostOnce, occurrences; cbn. repeat split; lia. }
  specialize (H H0). cbv beta in H. fold w' in H.
  destruct H as (H1 & H2 & H3 & _).
  repeat split; auto.
  - intros v env'. apply cleanup_after_guard, cleanupStart_sets_guard.
  - intros v. apply cleanupStart_after_guard, cleanupStart_sets_guard.
  - intros v sig. unfold gracefulShutdown.
    cbn [scheduleExit trace]. destruct (currentTest (setShuttingDown (cleanupStart v))).
    + rewrite cleanupStart_after_guard; [reflexivity|].
      cbn. apply cleanupStart_sets_guard.
    + reflexivity.
  - intros v t sig env' v'. apply cleanup_after_guard.
    apply gracefulShutdown_sets_guard.
Qed.

(** ** The interruptible wait, on the world *)

Lemma gracefulShutdown_sets_flag (sig : string) (w : World) :
  isShuttingDown (gracefulShutdown sig w) = true.
Proof.
  unfold gracefulShutdown. cbn [scheduleExit isShuttingDown].
  destruct (currentTest (setShuttingDown w)); [|reflexivity].
  apply (cleanupStart_pieces (fun v => isShuttingDown v = true));
    intros; cbn; auto.
Qed.

Lemma sleep_returns (ms : Z) (signal : option (Z * string)) (w : World) :
  sleep ms signal w = (Ok tt, snd (sleep ms signal w)).
Proof. reflexivity. Qed.

(** C8: a signal that sets the flag [s] ms into a wait of [ms] ms makes
    [sleep] resolve (it returns, it does not throw) at the first poll at or
    after [s]: no later than one polling period after the signal, never
    after the full interval, and before it when more than a period was
    left; the flag is then set, so the rotation loop starts no further
    visit. *)
Theorem sleep_returns_within_one_poll : forall (ms s : Z) (sig : string)
    (w : World),
  0 <= s < ms ->
  isShuttingDown w = false ->
  let r := sleepRun ms false (Some s) in
  POLL = 1000 /\
  s <= resolvedAt r <= s + POLL /\
  resolvedAt r <= ms /\
  (s + POLL < ms -> resolvedAt r < ms /\ intervalCleared r = true) /\
  fst (sleep ms (Some (s, sig)) w) = Ok tt /\
  isShuttingDown (snd (sleep ms (Some (s, sig)) w)) = true /\
  forall fuel renv url i sc ec,
    rotation fuel renv url i sc ec (snd (sleep ms (Some (s, sig)) w))
    = (Ok (Some {| s_iteration := i; s_successCount := sc; s_errorCount := ec |}),
       snd (sleep ms (Some (s, sig)) w)).
Proof.
  intros ms s sig w Hs Hw r.
  assert (Hb : s <= resolvedAt r <= s + POLL /\ resolvedAt r <= ms /\
               (intervalCleared r = false -> resolvedAt r = ms)).
  { subst r. unfold sleepRun, ticksBefore.
    apply runTimers_bounds; auto; [unfold POLL; lia|].
    assert (0 <= (ms - 1) / POLL) by (apply Z.div_pos; unfold POLL; lia).
    rewrite Nat2Z.inj_add, Z2Nat.id by lia.
    change (Z.of_nat 1) with 1. lia. }
  destruct Hb as (Hb1 & Hb2 & Hb3).
  assert (Hflag : isShuttingDown (snd (sleep ms (Some (s, sig)) w)) = true).
  { unfold sleep. cbn [snd option_map fst].
    destruct (s <? ms) eqn:E; [|apply Z.ltb_ge in E; lia].
    destruct (intervalCleared (sleepRun ms (isShuttingDown w) (Some s)));
      cbn [leakInterval isShuttingDown];
      apply gracefulShutdown_sets_flag. }
  split; [reflexivity|]. split; [exact Hb1|]. split; [exact Hb2|].
  split.
  { intros Hlt. destruct (intervalCleared r) eqn:E.
    - split; [|reflexivity]. unfold POLL in *; lia.
    - specialize (Hb3 eq_refl). unfold POLL in *; lia. }
  split; [reflexivity|]. split; [exact Hflag|].
  intros fuel renv url i sc ec.
  destruct fuel; cbn [rotation]; unfold bind, get; rewrite Hflag; reflexivity.
Qed.

Lemma sleep_returns_within_one_poll_witness :
  let r := sleepRun 60000 false (Some 2500) in
  2500 <= resolvedAt r <= 2500 + POLL /\ resolvedAt r <= 60000.
Proof.
  pose proof (sleep_returns_within_one_poll 60000 2500 "SIGINT" initialWorld
                ltac:(lia) eq_refl) as H.
  cbv zeta in H. destruct H as (_ & H1 & H2 & _). split; [exact H1 | exact H2].
Defined.

(** ** Rotation over the catalog *)

Lemma periodic_window {A} (f : nat -> A) (n : nat) :
  (forall k, f (k + n)%nat = f k) ->
  forall i, Permutation (map f (seq i n)) (map f (seq 0 n)).
Proof.
  intros Hf. induction i as [|i IH]; [reflexivity|].
  rewrite <- IH. destruct n as [|m]; [reflexivity|].
  rewrite seq_S, map_app. cbn [seq map].
  replace (S i + m)%nat with (i + S m)%nat by lia. rewrite Hf.
  symmetry. apply Permutation_cons_append.
Qed.

Lemma nth_error_seq {A} (l : list A) :
  map (nth_error l) (seq 0 (List.length l)) = map Some l.
Proof.
  induction l as [|a l IH]; [reflexivity|].
  cbn [List.length seq map nth_error]. f_equal.
  rewrite <- seq_shift, map_map. exact IH.
Qed.

Lemma selectProfile_index (catalog : list Profile) (k : nat) :
  catalog <> [] ->
  selectProfile catalog (Z.of_nat k)
  = nth_error catalog (k mod List.length catalog).
Proof.
  intros Hne. unfold selectProfile.
  assert (0 < List.length catalog)%nat
    by (destruct catalog; cbn; [congruence|lia]).
  rewrite Z.rem_mod_nonneg by lia.
  rewrite <- Nat2Z.inj_mod, Nat2Z.id. reflexivity.
Qed.

Lemma window_permutation (catalog : list Profile) (i : nat) :
  Permutation (window catalog i (List.length catalog)) (map Some catalog).
Proof.
  destruct catalog as [|p l] eqn:E; [reflexivity|]. rewrite <- E.
  assert (Hne : catalog <> []) by (rewrite E; discriminate).
  unfold window. rewrite periodic_window.
  - rewrite <- nth_error_seq. apply Permutation_refl'. apply map_ext_in.
    intros k Hk. apply in_seq in Hk. rewrite selectProfile_index by assumption.
    rewrite Nat.mod_small by lia. reflexivity.
  - intros k. rewrite !selectProfile_index by assumption.
    f_equal. rewrite <- Nat.Div0.add_mod_idemp_r, Nat.Div0.mod_same, Nat.add_0_r.
    reflexivity.
Qed.

(** One round of the loop, spelled out. *)
Lemma rotation_round (fuel : nat) (renv : RunEnv) (url : string)
    (i sc ec : Z) (w : World) :
  rotation (S fuel) renv url i sc ec w =
  if negb (isShuttingDown w) && (i <? CONFIG.MAX_ITERATIONS) then
    match selectProfile (DEVICE_PROFILES (r_devices renv)) i with
    | None => (Throw undefinedProfileError, w)
    | Some p =>
        let w1 := startVisit p i url
                    (print {| b_iteration := i; b_profile := p |} w) in
        match test (i_visit (r_iter renv i)) w1 with
        | (Ok success, w2) =>
            let w3 := setCurrentTest None w2 in
            let w4 := if negb (isShuttingDown w3)
                         && (i + 1 <? CONFIG.MAX_ITERATIONS)
                      then snd (sleep CONFIG.INTERVAL
                                  (i_sleepSignal (r_iter renv i)) w3)
                      else w3 in
            rotation fuel renv url (i + 1)
              (if success then sc + 1 else sc)
              (if success then ec else ec + 1) w4
        | (Throw e, w2) => (Throw e, w2)
        | (Exit c, w2) => (Exit c, w2)
        | (Halt, w2) => (Halt, w2)
        end
    end
  else (Ok (Some {| s_iteration := i; s_successCount := sc;
                    s_errorCount := ec |}), w).
Proof.
  cbn [rotation]. unfold bind at 1. unfold get at 1.
  destruct (negb (isShuttingDown w) && (i <? CONFIG.MAX_ITERATIONS));
    [|reflexivity].
  destruct (selectProfile (DEVICE_PROFILES (r_devices renv)) i) as [p|];
    [|reflexivity].
  unfold bind, modify, get, startVisit.
  destruct (test (i_visit (r_iter renv i)) _) as [[success|e|c|] w2];
    try reflexivity.
  cbn [isShuttingDown setCurrentTest].
  destruct (negb (isShuttingDown w2) && (i + 1 <? CONFIG.MAX_ITERATIONS));
    reflexivity.
Qed.

Lemma sleep_keeps_console (ms : Z) (signal : option (Z * string)) (w : World) :
  console (snd (sleep ms signal w)) = console w.
Proof.
  unfold sleep. cbn [snd].
  assert (H : forall sig, console (gracefulShutdown sig w) = console w).
  { intros sig.
    apply (gracefulShutdown_keeps (fun v => console v = console w) sig);
      [apply (ss_env _ (stable_console (console w))) | reflexivity]. }
  destruct (intervalCleared _); destruct signal as [[s sig]|];
    try destruct (s <? ms); cbn [leakInterval console]; auto.
Qed.

Lemma banners_length (catalog : list Profile) (l : list Banner) (n : nat) :
  map Some l = map (bannerOf catalog) (seq 0 n) -> List.length l = n.
Proof.
  intros H. apply (f_equal (@List.length _)) in H.
  now rewrite !length_map, length_seq in H.
Qed.

(** ** Composition rules with known outcomes *)

Lemma hoare_bind_ok {A B} (P R : World -> Prop) (Q : Result B -> World -> Prop)
    (m : M A) (k : A -> M B) (a0 : A) :
  hoare P m (fun r w => r = Ok a0 /\ R w) ->
  hoare R (k a0) Q ->
  hoare P (bind m k) Q.
Proof.
  intros Hm Hk w Hw. specialize (Hm w Hw). unfold bind.
  destruct (m w) as [r w']; cbn [fst snd] in Hm. destruct Hm as [-> HR].
  apply Hk; assumption.
Qed.

Lemma hoare_finally_keeps {A} (P I : World -> Prop) (m : M A) (f : M unit) :
  hoare P m (fun _ => I) -> keeps I f -> hoare P (finally m f) (fun _ => I).
Proof.
  intros Hm Hf w Hw. specialize (Hm w Hw). unfold finally.
  destruct (m w) as [[a|e|c|] w']; cbn [fst snd] in *; auto;
    specialize (Hf w' Hm); destruct (f w') as [[[]|e'|c'|] w''];
    cbn [fst snd] in *; auto.
Qed.

Lemma suspend_run {A} (s : Susp A) (w : World) :
  suspend s w
  = (match outcome s with
     | Resolved a => Ok a
     | Rejected e => Throw e
     | Unsettled => Halt
     end, deliverAll (events s) w).
Proof. unfold suspend. destruct (outcome s); reflexivity. Qed.

Lemma await_run {A} (a : Action) (s : Susp A) (w : World) :
  await a s w
  = (match outcome s with
     | Resolved x => Ok x
     | Rejected e => Throw e
     | Unsettled => Halt
     end, deliverAll (events s) (emit a w)).
Proof. unfold await, bind, modify. apply suspend_run. Qed.

Lemma hoare_get_bind {B} (P : World -> Prop) (k : World -> M B)
    (Q : Result B -> World -> Prop) :
  (forall w0, P w0 -> hoare (fun w => w = w0) (k w0) Q) ->
  hoare P (bind get k) Q.
Proof. intros H w Hw. unfold bind, get. apply (H w Hw w eq_refl). Qed.

Lemma hoare_pre {A} (P P' : World -> Prop) (Q : Result A -> World -> Prop)
    (m : M A) :
  hoare P' m Q -> (forall w, P w -> P' w) -> hoare P m Q.
Proof. unfold hoare; auto. Qed.

(** ** Visits that stop before the page exists *)

Lemma noPageYet_emit (shots : list Action) (a : Action) (w : World) :
  isScreenshot a = false -> noPageYet shots w -> noPageYet shots (emit a w).
Proof.
  intros Ha [H1 H2]. split; [exact H1|]. now rewrite screenshots_emit.
Qed.

Lemma noPageYet_call {A} (shots : list Action) (a : Action) (s : Susp A) :
  isScreenshot a = false -> keeps (noPageYet shots) (await a s).
Proof.
  intros Ha. apply keeps_await.
  - apply stable_noPageYet_env.
  - apply stable_noPageYet_resp.
  - intros w. apply noPageYet_emit; assumption.
Qed.

Lemma openPage_phases (shots : list Action) (env : Env) :
  hoare (noPageYet shots) (openPage env)
        (fun r w => match r with Ok _ => hasPage w | _ => noPageYet shots w end).
Proof.
  unfold openPage.
  assert (Hstep : forall {A B} (m : M A) (k : A -> M B),
            keeps (noPageYet shots) m ->
            (forall a, hoare (noPageYet shots) (k a)
               (fun r w => match r with Ok _ => hasPage w
                                   | _ => noPageYet shots w end)) ->
            hoare (noPageYet shots) (bind m k)
               (fun r w => match r with Ok _ => hasPage w
                                   | _ => noPageYet shots w end)).
  { intros A B m k Hm Hk.
    apply hoare_bind with (R := fun _ => noPageYet shots); auto. }
  apply Hstep.
  { unfold readViewport. apply keeps_bind; [apply keeps_get|]. intros w.
    destruct (viewport (profile (tester w))); [apply keeps_ret|apply keeps_throw]. }
  intros _. apply Hstep.
  { unfold ensureScreenshotDir. apply keeps_try_catch;
      [|intros _]; apply noPageYet_call; reflexivity. }
  intros _. apply Hstep; [apply noPageYet_call; reflexivity|].
  intros _. apply Hstep; [apply keeps_modify; fields|].
  intros _. apply Hstep; [apply keeps_get|].
  intros w. apply Hstep; [apply noPageYet_call; reflexivity|].
  intros _. apply Hstep; [apply keeps_modify; fields|].
  intros _. apply Hstep; [apply noPageYet_call; reflexivity|].
  intros _ v _. cbn. unfold hasPage; cbn. discriminate.
Qed.

Lemma takeErrorScreenshot_run (env : Env) (w : World) :
  takeErrorScreenshot env w
  = match page (tester w) with
    | None => (Ok tt, w)
    | Some _ =>
        try_catch
          (await (Screenshot (errorScreenshotPath (profileName (tester w))) false)
                 (e_errorScreenshot env))
          (fun _ => ret tt) w
    end.
Proof.
  unfold takeErrorScreenshot, bind, get. destruct (page (tester w)); reflexivity.
Qed.

Lemma testCatch_phases (shots : list Action) (env : Env) (e : JsError) :
  keeps (fun w => noPageYet shots w \/ hasPage w) (testCatch env e).
Proof.
  unfold testCatch.
  apply keeps_bind; [apply keeps_modify; fields|].
  intros _. apply keeps_bind; [apply keeps_modify; fields|].
  intros _. apply keeps_bind; [|intros _; apply keeps_ret].
  intros w Hw. cbv beta.
  pose proof (keeps_takeErrorScreenshot _ stable_hasPage env w) as Hk.
  cbv beta in Hk. rewrite takeErrorScreenshot_run in *.
  destruct (page (tester w)) eqn:Hp; [|exact Hw].
  right. apply Hk. unfold hasPage; congruence.
Qed.

Lemma test_phases (shots : list Action) (env : Env) :
  hoare (noPageYet shots) (test env)
        (fun _ w => noPageYet shots w \/ hasPage w).
Proof.
  unfold test, testBody. apply hoare_finally_keeps.
  - apply hoare_try_catch
      with (R := fun _ w => noPageYet shots w \/ hasPage w); auto.
    + eapply hoare_bind; [apply openPage_phases| | | |]; cbn; auto.
      intros _. eapply hoare_conseq;
        [apply (keeps_visitPage _ stable_hasPage env)|auto|cbn; auto].
    + intros e. apply testCatch_phases.
  - apply keeps_cleanup.
    + apply envStable_or;
        [apply stable_noPageYet_env | apply (ss_env _ stable_hasPage)].
    + apply respStable_or;
        [apply stable_noPageYet_resp | apply (ss_resp _ stable_hasPage)].
Qed.

(** C10: a visit that ends without a page object (the launch, the context
    or the page creation failed, or an earlier step did) has made no
    screenshot call at all, so no error screenshot either: only a visit
    whose page was created can attempt one. *)
Theorem no_error_screenshot_without_page : forall (env : Env) (p : Profile)
    (i : Z) (url : string) (w0 : World),
  let w' := snd (test env (startVisit p i url w0)) in
  page (tester w') = None ->
  screenshots w' = screenshots w0.
Proof.
  intros env p i url w0 w' Hnone.
  assert (H : noPageYet (screenshots w0) w' \/ hasPage w').
  { apply (test_phases (screenshots w0) env (startVisit p i url w0)).
    split; reflexivity. }
  destruct H as [[_ H]|H]; [exact H|contradiction].
Qed.

Lemma no_error_screenshot_without_page_witness :
  let w' := snd (test envLaunchFails
                   (startVisit desktopChrome 0 sampleUrl initialWorld)) in
  status (testResults (tester w')) = "error" /\
  page (tester w') = None /\
  screenshots w' = [].
Proof.
  cbv zeta. split; [reflexivity|]. split; [reflexivity|].
  apply (no_error_screenshot_without_page envLaunchFails desktopChrome 0
           sampleUrl initialWorld).
  reflexivity.
Defined.

(** ** Steps with known outcomes *)

Section KnownOutcomes.

Variable X : World -> Prop.
Hypothesis HX : sessionStable X.
Variable env : Env.

Lemma after_call (a : Action) (evs : list Event) (w : World) :
  isClose a = false -> X w ->
  X (deliverAll evs (emit a w)) /\ performed a (deliverAll evs (emit a w)).
Proof.
  intros Ha Hw.
  apply (deliverAll_keeps (fun v => X v /\ performed a v)).
  - apply envStable_and; [apply (ss_env _ HX)|apply (ss_env _ (stable_performed a))].
  - apply respStable_and; [apply (ss_resp _ HX)|apply (ss_resp _ (stable_performed a))].
  - split; [apply (ss_emit _ HX); assumption|].
    unfold performed; cbn. apply in_or_app; right; left; reflexivity.
Qed.

Lemma call_resolved {A} (a : Action) (s : Susp A) (a0 : A) :
  isClose a = false -> outcome s = Resolved a0 ->
  hoare X (await a s) (fun r w => r = Ok a0 /\ X w /\ performed a w).
Proof.
  intros Ha Hs w Hw. rewrite await_run, Hs. cbn [fst snd].
  split; [reflexivity|]. apply after_call; assumption.
Qed.

Lemma ensureScreenshotDir_ok :
  (outcome (e_access env) = Resolved tt \/
   (exists e, outcome (e_access env) = Rejected e) /\
   outcome (e_mkdir env) = Resolved tt) ->
  hoare X (ensureScreenshotDir env) (fun r w => r = Ok tt /\ X w).
Proof.
  intros [Ha|[[e Ha] Hm]] w Hw; unfold ensureScreenshotDir, try_catch;
    rewrite await_run, Ha; cbn [fst snd].
  - split; [reflexivity|]. apply after_call; [reflexivity|assumption].
  - rewrite await_run, Hm. cbn [fst snd]. split; [reflexivity|].
    apply after_call; [reflexivity|]. apply after_call; [reflexivity|assumption].
Qed.

Lemma openPage_ok (p : Profile) :
  opensPage env p ->
  (forall w, X w -> profile (tester w) = p) ->
  hoare X (openPage env) (fun r w => r = Ok tt /\ X w /\ hasPage w).
Proof.
  intros (Hv & Hd & Hl & Hc & Hp) Hprof. unfold openPage.
  apply hoare_bind_ok with (R := X) (a0 := tt).
  { intros w Hw. unfold readViewport, bind, get. rewrite (Hprof w Hw).
    destruct (viewport p); [split; [reflexivity|exact Hw]|congruence]. }
  apply hoare_bind_ok with (R := X) (a0 := tt);
    [apply ensureScreenshotDir_ok; assumption|].
  apply hoare_bind_ok with (R := X) (a0 := tt).
  { eapply hoare_conseq; [apply (call_resolved Launch _ tt eq_refl Hl)|auto|].
    cbv beta; tauto. }
  apply hoare_bind_ok with (R := X) (a0 := tt).
  { intros w Hw. split; [reflexivity|]. apply (ss_browser _ HX); assumption. }
  apply hoare_get_bind. intros w0 Hw0.
  apply hoare_pre with (P' := X); [|intros w ->; exact Hw0].
  apply hoare_bind_ok with (R := X) (a0 := tt).
  { eapply hoare_conseq;
      [apply (call_resolved (NewContext (contextOptions (profile (tester w0))))
                _ tt eq_refl Hc)|auto|].
    cbv beta; tauto. }
  apply hoare_bind_ok with (R := X) (a0 := tt).
  { intros w Hw. split; [reflexivity|]. apply (ss_context _ HX); assumption. }
  apply hoare_bind_ok with (R := X) (a0 := tt).
  { eapply hoare_conseq; [apply (call_resolved NewPage _ tt eq_refl Hp)|auto|].
    cbv beta; tauto. }
  intros w Hw. split; [reflexivity|]. split.
  - apply (ss_page _ HX); assumption.
  - unfold hasPage; cbn. discriminate.
Qed.

End KnownOutcomes.

Lemma onPage_run {A} (method : string) (a : Action) (s : Susp A) (w : World) :
  hasPage w -> onPage method a s w = await a s w.
Proof.
  intros H. unfold hasPage in H. unfold onPage, bind at 1, get.
  destruct (page (tester w)); [reflexivity|congruence].
Qed.

(** ** Steps on an existing page, with known outcomes *)

Section OnPage.

Variable X : World -> Prop.
Hypothesis HX : sessionStable X.
Hypothesis Hpage : forall w, X w -> hasPage w.
Variable env : Env.

Lemma setupEventHandlers_ok :
  hoare X setupEventHandlers (fun r w => r = Ok tt /\ X w).
Proof.
  intros w Hw. unfold setupEventHandlers, bind, get.
  pose proof (Hpage w Hw) as Hp. unfold hasPage in Hp.
  destruct (page (tester w)) as [pg|]; [|congruence].
  split; [reflexivity|]. apply (ss_page _ HX); assumption.
Qed.

Lemma onPage_resolved {A} (method : string) (a : Action) (s : Susp A) (a0 : A) :
  isClose a = false -> outcome s = Resolved a0 ->
  hoare X (onPage method a s) (fun r w => r = Ok a0 /\ X w /\ performed a w).
Proof.
  intros Ha Hs w Hw. rewrite onPage_run by (apply Hpage; assumption).
  apply (call_resolved X HX a s a0 Ha Hs w Hw).
Qed.

Lemma loadPage_passes :
  navigationPasses (outcome (e_goto env)) ->
  hoare X (loadPage env) (fun r w => r = Ok tt /\ X w).
Proof.
  intros Hnav w Hw. unfold loadPage, try_catch, bind at 1, get.
  unfold bind. rewrite onPage_run, await_run by (apply Hpage; assumption).
  pose proof (after_call X HX (Goto (targetUrl (tester w)) CONFIG.PAGE_LOAD_TIMEOUT)
                (events (e_goto env)) w eq_refl Hw) as [Hx _].
  destruct (outcome (e_goto env)) as [[r|]|e|]; cbn in Hnav.
  - unfold modify. apply Z.ltb_lt in Hnav. rewrite Z.geb_leb.
    rewrite Z.ltb_antisym in Hnav. apply negb_true_iff in Hnav.
    rewrite Hnav. cbn [fst snd ret].
    split; [reflexivity|]. apply (ss_results _ HX); assumption.
  - split; [reflexivity|exact Hx].
  - rewrite Hnav. cbn. split; [reflexivity|exact Hx].
  - contradiction.
Qed.

Lemma loadPage_fails (r : Response) :
  outcome (e_goto env) = Resolved (Some r) -> 400 <= r_status r ->
  hoare X (loadPage env)
        (fun res w => res = Throw (httpError r) /\ X w /\
                      recorded (r_status r) w).
Proof.
  intros Hgo Hst w Hw. unfold loadPage, try_catch, bind at 1, get.
  unfold bind. rewrite onPage_run, await_run, Hgo by (apply Hpage; assumption).
  pose proof (after_call X HX (Goto (targetUrl (tester w)) CONFIG.PAGE_LOAD_TIMEOUT)
                (events (e_goto env)) w eq_refl Hw) as [Hx _].
  unfold modify. rewrite Z.geb_leb. apply Z.leb_le in Hst. rewrite Hst.
  cbn. split; [reflexivity|]. split; [|reflexivity].
  apply (ss_results _ HX); assumption.
Qed.

Lemma takeScreenshot_settled (pn : string) :
  isSettled (outcome (e_screenshot env)) = true ->
  (forall w, X w -> profileName (tester w) = pn) ->
  hoare X (takeScreenshot env)
        (fun r w => r = Ok tt /\ X w /\
           performed (Screenshot (screenshotPathFor (e_now env) pn) true) w).
Proof.
  intros Hs Hpn w Hw. unfold takeScreenshot, try_catch, bind at 1, get.
  unfold bind. rewrite onPage_run, await_run, (Hpn w Hw)
    by (apply Hpage; assumption).
  pose proof (after_call X HX (Screenshot (screenshotPathFor (e_now env) pn) true)
                (events (e_screenshot env)) w eq_refl Hw) as [Hx Hp].
  destruct (outcome (e_screenshot env)) as [[]|e|]; [| |discriminate];
    cbn [fst snd modify ret]; (split; [reflexivity|]); [|split; assumption].
  split; [apply (ss_results _ HX); assumption|exact Hp].
Qed.

Lemma collectPageInfo_settled :
  isSettled (outcome (e_title env)) = true ->
  hoare X (collectPageInfo env)
        (fun r w => r = Ok tt /\ X w /\ performed Title w).
Proof.
  intros Hs w Hw. unfold collectPageInfo, try_catch, bind.
  rewrite onPage_run, await_run by (apply Hpage; assumption).
  pose proof (after_call X HX Title (events (e_title env)) w eq_refl Hw) as Hx.
  destruct (outcome (e_title env)) as [t|e|]; [| |discriminate];
    cbn [fst snd ret]; (split; [reflexivity|exact Hx]).
Qed.

End OnPage.

(** ** Visits that pass navigation *)

Lemma cleanup_result (env : Env) (w : World) :
  (fst (cleanup env w) = Ok tt \/ fst (cleanup env w) = Halt) /\
  (e_allSettledDone env = true -> fst (cleanup env w) = Ok tt).
Proof.
  unfold cleanup, bind, get, modify.
  destruct (cleanupCalled (tester w)); [split; auto|].
  rewrite suspend_run. cbn [outcome fst].
  destruct (e_allSettledDone env); split; auto; discriminate.
Qed.

Lemma cleanup_quiet (Z : World -> Prop) (env : Env) :
  envStable Z -> noFailingResponse (e_allSettled env) = true ->
  keeps Z (cleanup env).
Proof.
  intros HZ Hq w Hw. unfold cleanup, bind, get, modify.
  destruct (cleanupCalled (tester w)); [exact Hw|].
  rewrite suspend_run. cbn [events snd].
  apply deliverAll_quiet; [assumption..|].
  apply cleanupStart_keeps; assumption.
Qed.

Lemma finally_cleanup {A} (P Z : World -> Prop) (m : M A) (env : Env) (a0 : A) :
  hoare P m (fun r w => r = Ok a0 /\ Z w) ->
  keeps Z (cleanup env) ->
  hoare P (finally m (cleanup env))
        (fun r w => Z w /\ (r = Ok a0 \/ r = Halt) /\
                    (e_allSettledDone env = true -> r = Ok a0)).
Proof.
  intros Hm Hc w Hw. specialize (Hm w Hw). unfold finally.
  destruct (m w) as [r w1]; cbn [fst snd] in Hm. destruct Hm as [-> HZ].
  specialize (Hc w1 HZ). destruct (cleanup_result env w1) as [Hr Hd].
  destruct (cleanup env w1) as [[[]|e|c|] w2]; cbn [fst snd] in *;
    (split; [exact Hc|]); split; auto;
    try (destruct Hr; discriminate); try (intros Hs; specialize (Hd Hs); discriminate).
Qed.

Lemma visited_stable (env : Env) (pn : string) :
  envStable (visited env pn) /\ respStable (visited env pn).
Proof.
  unfold visited. split.
  - repeat apply envStable_and;
      first [apply stable_classified_env | apply (ss_env _ (stable_performed _))].
  - repeat apply respStable_and;
      first [apply stable_classified_resp | apply (ss_resp _ (stable_performed _))].
Qed.

Lemma visitPage_passes (X : World -> Prop) (env : Env) (pn : string) :
  sessionStable X ->
  (forall w, X w -> hasPage w /\ profileName (tester w) = pn) ->
  navigationPasses (outcome (e_goto env)) ->
  outcome (e_waitForTimeout env) = Resolved tt ->
  isSettled (outcome (e_screenshot env)) = true ->
  isSettled (outcome (e_title env)) = true ->
  hoare X (visitPage env) (fun r w => r = Ok true /\ visited env pn w).
Proof.
  intros HX Hx Hnav Hwait Hshot Htitle. unfold visitPage.
  assert (Hp : forall w, X w -> hasPage w) by (intros w Hw; apply Hx, Hw).
  apply hoare_bind_ok with (R := X) (a0 := tt);
    [apply setupEventHandlers_ok; assumption|].
  apply hoare_bind_ok with (R := X) (a0 := tt);
    [apply loadPage_passes; assumption|].
  set (Y1 := fun w => X w /\ performed (WaitForTimeout CONFIG.SDK_WAIT) w).
  assert (HY1 : sessionStable Y1)
    by (apply sessionStable_and; [assumption|apply stable_performed]).
  apply hoare_bind_ok with (R := Y1) (a0 := tt);
    [apply onPage_resolved; auto|].
  set (Y2 := fun w =>
         Y1 w /\ performed (Screenshot (screenshotPathFor (e_now env) pn) true) w).
  assert (HY2 : sessionStable Y2)
    by (apply sessionStable_and; [assumption|apply stable_performed]).
  apply hoare_bind_ok with (R := Y2) (a0 := tt).
  { apply takeScreenshot_settled; auto.
    - intros w [Hw _]; auto.
    - intros w [Hw _]. apply Hx, Hw. }
  apply hoare_bind_ok with (R := fun w => Y2 w /\ performed Title w) (a0 := tt).
  { apply collectPageInfo_settled; auto. intros w [[Hw _] _]; auto. }
  intros w [[[_ H1] H2] H3]. cbn. split; [reflexivity|].
  unfold visited, classified, performed in *; cbn. auto.
Qed.

Lemma test_passes (env : Env) (p : Profile) (i : Z) (url : string) (w0 : World) :
  opensPage env p ->
  navigationPasses (outcome (e_goto env)) ->
  outcome (e_waitForTimeout env) = Resolved tt ->
  isSettled (outcome (e_screenshot env)) = true ->
  isSettled (outcome (e_title env)) = true ->
  let r := fst (test env (startVisit p i url w0)) in
  let w' := snd (test env (startVisit p i url w0)) in
  visited env (name p) w' /\ (r = Ok true \/ r = Halt) /\
  (e_allSettledDone env = true -> r = Ok true).
Proof.
  intros Hopen Hnav Hwait Hshot Htitle.
  assert (HX : sessionStable (fun w => visitOf p url w /\ hasPage w))
    by (apply sessionStable_and; [apply stable_visitOf|apply stable_hasPage]).
  apply (finally_cleanup (visitOf p url) (visited env (name p))).
  - apply hoare_try_catch
      with (R := fun r w => r = Ok true /\ visited env (name p) w); auto.
    + unfold testBody.
      apply hoare_bind_ok
        with (R := fun w => visitOf p url w /\ hasPage w) (a0 := tt).
      * apply (openPage_ok (visitOf p url) (stable_visitOf p url) env p Hopen).
        intros w H; apply H.
      * apply visitPage_passes; auto.
        intros w [(_ & H & _) H']; auto.
    + intros e w [H _]; discriminate.
  - apply keeps_cleanup; apply visited_stable.
  - unfold visitOf; cbn; auto.
Qed.

(** C3: when [page.goto] rejects with a [TimeoutError], [loadPage] returns
    normally (the error is not re-raised); if the settle wait then resolves,
    the visit performs the wait, the screenshot call and the title read,
    its status is [success], and [test()] returns [true] (unless the process
    ends while cleanup is pending). *)
Theorem navigation_timeout_is_swallowed : forall (env : Env) (p : Profile)
    (i : Z) (url : string) (w0 : World) (e : JsError),
  opensPage env p ->
  outcome (e_goto env) = Rejected e ->
  e_name e = "TimeoutError" ->
  outcome (e_waitForTimeout env) = Resolved tt ->
  isSettled (outcome (e_screenshot env)) = true ->
  isSettled (outcome (e_title env)) = true ->
  let r := fst (test env (startVisit p i url w0)) in
  let w' := snd (test env (startVisit p i url w0)) in
  (forall v, hasPage v -> fst (loadPage env v) = Ok tt) /\
  performed (WaitForTimeout CONFIG.SDK_WAIT) w' /\
  performed (Screenshot (screenshotPathFor (e_now env) (name p)) true) w' /\
  performed Title w' /\
  status (testResults (tester w')) = "success" /\
  (r = Ok true \/ r = Halt) /\
  (e_allSettledDone env = true -> r = Ok true).
Proof.
  intros env p i url w0 e Hopen Hgo Hname Hwait Hshot Htitle r w'.
  assert (Hnav : navigationPasses (outcome (e_goto env)))
    by (rewrite Hgo; exact Hname).
  destruct (test_passes env p i url w0 Hopen Hnav Hwait Hshot Htitle)
    as ((H1 & H2 & H3 & H4) & H5 & H6).
  split; [|repeat split; assumption].
  intros v Hv.
  apply (loadPage_passes hasPage stable_hasPage (fun _ H => H) env Hnav v Hv).
Qed.

Lemma opensPage_calm (g : Susp (option Response)) :
  opensPage (withGoto g calmEnv) desktopChrome.
Proof.
  unfold opensPage; cbn. repeat split; auto. discriminate.
Qed.

Lemma navigation_timeout_is_swallowed_witness :
  let w' := snd (test envTimeout
                   (startVisit desktopChrome 0 sampleUrl initialWorld)) in
  status (testResults (tester w')) = "success" /\
  fst (test envTimeout (startVisit desktopChrome 0 sampleUrl initialWorld))
  = Ok true.
Proof.
  pose proof (navigation_timeout_is_swallowed envTimeout desktopChrome 0
                sampleUrl initialWorld timeoutError
                (opensPage_calm _) eq_refl eq_refl eq_refl eq_refl eq_refl) as H.
  cbv zeta in H. destruct H as (_ & _ & _ & _ & Hs & _ & Hr).
  split; [exact Hs|exact (Hr eq_refl)].
Defined.

Lemma takeScreenshot_frame (env : Env) (v : World) :
  (fst (takeScreenshot env v) = Ok tt \/ fst (takeScreenshot env v) = Halt) /\
  status (testResults (tester (snd (takeScreenshot env v))))
  = status (testResults (tester v)).
Proof.
  unfold takeScreenshot, try_catch, bind at 1, get. unfold bind.
  unfold onPage, bind, get. destruct (page (tester v)); [|split; auto].
  rewrite await_run.
  set (a := Screenshot _ true).
  assert (H : classified (status (testResults (tester v)))
                (deliverAll (events (e_screenshot env)) (emit a v))).
  { apply deliverAll_keeps;
      [apply stable_classified_env|apply stable_classified_resp|reflexivity]. }
  destruct (outcome (e_screenshot env)) as [[]|e|]; cbn [fst snd modify ret];
    split; auto.
Qed.

Lemma collectPageInfo_frame (env : Env) (v : World) :
  (fst (collectPageInfo env v) = Ok tt \/ fst (collectPageInfo env v) = Halt) /\
  status (testResults (tester (snd (collectPageInfo env v))))
  = status (testResults (tester v)).
Proof.
  unfold collectPageInfo, try_catch, bind.
  unfold onPage, bind, get. destruct (page (tester v)); [|split; auto].
  rewrite await_run.
  assert (H : classified (status (testResults (tester v)))
                (deliverAll (events (e_title env)) (emit Title v))).
  { apply deliverAll_keeps;
      [apply stable_classified_env|apply stable_classified_resp|reflexivity]. }
  destruct (outcome (e_title env)) as [t|e|]; cbn [fst snd ret]; split; auto.
Qed.

(** C7: [takeScreenshot] and [collectPageInfo] never throw and never touch
    the status, whatever the browser answers; so a visit that got past
    navigation and the settle wait ends with status [success] whether the
    screenshot and the title read are fulfilled or rejected, and [test()]
    returns [true] (unless the process ends while cleanup is pending). *)
Theorem capture_failures_keep_classification : forall (env : Env)
    (p : Profile) (i : Z) (url : string) (w0 : World),
  opensPage env p ->
  navigationPasses (outcome (e_goto env)) ->
  outcome (e_waitForTimeout env) = Resolved tt ->
  isSettled (outcome (e_screenshot env)) = true ->
  isSettled (outcome (e_title env)) = true ->
  let r := fst (test env (startVisit p i url w0)) in
  let w' := snd (test env (startVisit p i url w0)) in
  (forall env' v,
     (fst (takeScreenshot env' v) = Ok tt \/ fst (takeScreenshot env' v) = Halt) /\
     status (testResults (tester (snd (takeScreenshot env' v))))
     = status (testResults (tester v))) /\
  (forall env' v,
     (fst (collectPageInfo env' v) = Ok tt \/ fst (collectPageInfo env' v) = Halt) /\
     status (testResults (tester (snd (collectPageInfo env' v))))
     = status (testResults (tester v))) /\
  status (testResults (tester w')) = "success" /\
  r <> Ok false /\
  (e_allSettledDone env = true -> r = Ok true).
Proof.
  intros env p i url w0 Hopen Hnav Hwait Hshot Htitle r w'.
  destruct (test_passes env p i url w0 Hopen Hnav Hwait Hshot Htitle)
    as ((H1 & _) & H5 & H6).
  split; [intros; apply takeScreenshot_frame|].
  split; [intros; apply collectPageInfo_frame|].
  split; [exact H1|]. split; [|exact H6].
  fold r in H5. destruct H5 as [-> | ->]; discriminate.
Qed.

Lemma capture_failures_keep_classification_witness :
  outcome (e_screenshot envNoCapture) = Rejected pngQualityError /\
  outcome (e_title envNoCapture) = Rejected pngQualityError /\
  status (testResults (tester (snd (test envNoCapture
            (startVisit desktopChrome 0 sampleUrl initialWorld)))))
  = "success".
Proof.
  split; [reflexivity|]. split; [reflexivity|].
  assert (Hopen : opensPage envNoCapture desktopChrome).
  { unfold opensPage; cbn. repeat split; auto. discriminate. }
  pose proof (capture_failures_keep_classification envNoCapture desktopChrome 0
                sampleUrl initialWorld Hopen) as H.
  cbv zeta in H. apply H; cbn; (reflexivity || lia).
Defined.

(** ** Visits whose navigation is answered with an error status *)

Lemma hoare_bind_throw {A B} (P R : World -> Prop) (m : M A) (k : A -> M B)
    (e : JsError) :
  hoare P m (fun r w => r = Throw e /\ R w) ->
  hoare P (bind m k) (fun r w => r = Throw e /\ R w).
Proof.
  intros Hm w Hw. specialize (Hm w Hw). unfold bind.
  destruct (m w) as [r w']; cbn [fst snd] in *. destruct Hm as [-> HR].
  split; [reflexivity|exact HR].
Qed.

Lemma visitPage_http_error (X : World -> Prop) (env : Env) (r : Response) :
  sessionStable X ->
  (forall w, X w -> hasPage w) ->
  outcome (e_goto env) = Resolved (Some r) -> 400 <= r_status r ->
  hoare X (visitPage env)
        (fun res w => res = Throw (httpError r) /\ X w /\
                      recorded (r_status r) w).
Proof.
  intros HX Hx Hgo Hst. unfold visitPage.
  apply hoare_bind_ok with (R := X) (a0 := tt);
    [apply setupEventHandlers_ok; assumption|].
  apply hoare_bind_throw. apply loadPage_fails; assumption.
Qed.

Lemma testCatch_run (env : Env) (e : JsError) (w : World) (pg : Page) :
  page (tester w) = Some pg ->
  testCatch env e w
  = (match outcome (e_errorScreenshot env) with
     | Unsettled => Halt
     | _ => Ok false
     end,
     deliverAll (events (e_errorScreenshot env))
       (emit (Screenshot (errorScreenshotPath (profileName (tester w))) false)
          (withTester (withResults (setError (e_message e)))
             (withTester (withResults (setStatus "error")) w)))).
Proof.
  intros Hp. unfold testCatch, bind at 1, modify at 1.
  unfold bind at 1, modify at 1. unfold bind at 1.
  rewrite takeErrorScreenshot_run. cbn [tester withTester page withResults].
  rewrite Hp. unfold try_catch. rewrite await_run.
  cbn [profileName withTester withResults tester].
  destruct (outcome (e_errorScreenshot env)) as [[]|e'|]; reflexivity.
Qed.

Lemma noFailingResponse_app (l1 l2 : list Event) :
  noFailingResponse (l1 ++ l2) = true ->
  noFailingResponse l1 = true /\ noFailingResponse l2 = true.
Proof.
  unfold noFailingResponse. rewrite forallb_app. apply andb_true_iff.
Qed.

(** C2, counterexample: navigation is answered with 404 and, while the error
    screenshot is pending, a sub-resource of the error page is answered with
    500; the response observer overwrites the recorded status, and the
    visit ends with [httpStatus] 500, not 404. *)
Lemma http_status_can_be_overwritten :
  let w' := snd (test env404then500
                   (startVisit desktopChrome 0 sampleUrl initialWorld)) in
  outcome (e_goto env404then500) = Resolved (Some notFound) /\
  r_status notFound = 404 /\
  status (testResults (tester w')) = "error" /\
  httpStatus (testResults (tester w')) = 500 /\
  httpStatus (testResults (tester w')) <> r_status notFound.
Proof.
  cbv zeta. repeat split; try reflexivity.
  vm_compute; discriminate.
Qed.

(** C2, as amended: when navigation completes with a response of status at
    least 400, [loadPage] records that status in [httpStatus] and throws;
    the visit ends with status [error], the error screenshot call is made,
    and [test()] does not return [true]; [httpStatus] still holds that
    status at the end unless a later response of status at least 400 is
    observed while the error screenshot or the cleanup is pending. *)
Theorem http_error_fails_the_visit : forall (env : Env) (p : Profile) (i : Z)
    (url : string) (w0 : World) (r : Response),
  opensPage env p ->
  outcome (e_goto env) = Resolved (Some r) ->
  400 <= r_status r ->
  let res := fst (test env (startVisit p i url w0)) in
  let w' := snd (test env (startVisit p i url w0)) in
  (forall v, hasPage v ->
             fst (loadPage env v) = Throw (httpError r) /\
             httpStatus (testResults (tester (snd (loadPage env v))))
             = r_status r) /\
  status (testResults (tester w')) = "error" /\
  performed (Screenshot (errorScreenshotPath (name p)) false) w' /\
  (res = Ok false \/ res = Halt) /\
  (noFailingResponse (events (e_errorScreenshot env) ++ e_allSettled env) = true ->
   httpStatus (testResults (tester w')) = r_status r).
Proof.
  intros env p i url w0 r Hopen Hgo Hst res w'.
  split.
  { intros v Hv.
    destruct (loadPage_fails hasPage stable_hasPage (fun _ H => H) env r
                Hgo Hst v Hv) as (H1 & _ & H2).
    split; assumption. }
  set (X := fun w => visitOf p url w /\ hasPage w).
  assert (HX : sessionStable X)
    by (apply sessionStable_and; [apply stable_visitOf|apply stable_hasPage]).
  assert (Hbody : hoare (visitOf p url) (testBody env)
            (fun res w => res = Throw (httpError r) /\ X w /\
                          recorded (r_status r) w)).
  { unfold testBody. apply hoare_bind_ok with (R := X) (a0 := tt).
    - apply (openPage_ok (visitOf p url) (stable_visitOf p url) env p Hopen).
      intros w H; apply H.
    - apply visitPage_http_error; auto. intros w H; apply H. }
  assert (Hstart : visitOf p url (startVisit p i url w0))
    by (unfold visitOf; cbn; auto).
  specialize (Hbody (startVisit p i url w0) Hstart). cbv beta in Hbody.
  subst res w'. unfold test, finally, try_catch.
  destruct (testBody env (startVisit p i url w0)) as [rb w1].
  cbn [fst snd] in Hbody.
  destruct Hbody as (-> & ((_ & Hpn & _) & Hpg) & Hrec).
  unfold hasPage in Hpg. destruct (page (tester w1)) as [pg|] eqn:Epg;
    [clear Hpg|congruence].
  rewrite (testCatch_run env (httpError r) w1 pg Epg), Hpn.
  set (shot := Screenshot (errorScreenshotPath (name p)) false).
  set (w1' := withTester (withResults (setError (e_message (httpError r))))
                (withTester (withResults (setStatus "error")) w1)).
  set (w2 := deliverAll (events (e_errorScreenshot env)) (emit shot w1')).
  set (Z := fun w => classified "error" w /\ performed shot w).
  assert (HZe : envStable Z)
    by (apply envStable_and;
        [apply stable_classified_env|apply (ss_env _ (stable_performed shot))]).
  assert (HZr : respStable Z)
    by (apply respStable_and;
        [apply stable_classified_resp|apply (ss_resp _ (stable_performed shot))]).
  assert (HZ2 : Z w2).
  { apply deliverAll_keeps; auto. split; [reflexivity|].
    unfold performed; cbn. apply in_or_app; right; left; reflexivity. }
  assert (Hq2 : noFailingResponse (events (e_errorScreenshot env)) = true ->
                recorded (r_status r) w2).
  { intros Hq. apply deliverAll_quiet;
      [apply stable_recorded_env|assumption|exact Hrec]. }
  assert (Hfin :
            let out := match cleanup env w2 with
                       | (Ok _, w'') => (Ok false, w'')
                       | (Throw e, w'') => (Throw e, w'')
                       | (Exit c, w'') => (Exit c, w'')
                       | (Halt, w'') => (Halt, w'')
                       end in
            status (testResults (tester (snd out))) = "error" /\
            performed shot (snd out) /\
            (fst out = Ok false \/ fst out = Halt) /\
            (noFailingResponse (events (e_errorScreenshot env) ++ e_allSettled env)
             = true ->
             httpStatus (testResults (tester (snd out))) = r_status r)).
  { intros out. subst out.
    pose proof (keeps_cleanup Z env HZe HZr w2 HZ2) as Hk.
    pose proof (fun Hq => cleanup_quiet (recorded (r_status r)) env
                            (stable_recorded_env _) Hq w2) as Hk2.
    destruct (cleanup_result env w2) as [Hr _].
    destruct (cleanup env w2) as [[[]|e|c|] w3]; cbn [fst snd] in *;
      try (destruct Hr; discriminate);
      (split; [apply Hk|]); (split; [apply Hk|]); (split; [auto|]);
      intros Hq; apply noFailingResponse_app in Hq as [Hqa Hqb];
      apply (Hk2 Hqb), Hq2, Hqa. }
  destruct (outcome (e_errorScreenshot env)) as [[]|e'|];
    try (apply Hfin).
  cbn [fst snd]. split; [apply HZ2|]. split; [apply HZ2|]. split; [auto|].
  intros Hq; apply noFailingResponse_app in Hq as [Hqa _]. apply Hq2, Hqa.
Qed.

Lemma http_error_fails_the_visit_witness :
  let w' := snd (test env404 (startVisit desktopChrome 0 sampleUrl initialWorld)) in
  status (testResults (tester w')) = "error" /\
  httpStatus (testResults (tester w')) = 404 /\
  performed (Screenshot "screenshots/error-screenshot-desktop-chrome.png" false) w'.
Proof.
  pose proof (http_error_fails_the_visit env404 desktopChrome 0 sampleUrl
                initialWorld notFound (opensPage_calm _) eq_refl
                ltac:(cbn; lia)) as H.
  cbv zeta in H. destruct H as (_ & Hs & Hp & _ & Hh).
  split; [exact Hs|]. split; [exact (Hh eq_refl)|exact Hp].
Defined.

(** ** The end of the process *)

Lemma rotation_has_fuel (fuel : nat) (renv : RunEnv) (url : string) :
  forall (i sc ec : Z) (w : World),
  CONFIG.MAX_ITERATIONS - i <= Z.of_nat fuel ->
  fst (rotation fuel renv url i sc ec w) <> Ok None.
Proof.
  induction fuel as [|fuel IH]; intros i sc ec w Hf.
  - cbn [rotation]. unfold bind, get.
    destruct (i <? CONFIG.MAX_ITERATIONS) eqn:E;
      [apply Z.ltb_lt in E; lia|].
    rewrite andb_false_r. discriminate.
  - rewrite rotation_round.
    destruct (negb (isShuttingDown w) && _); [|discriminate].
    destruct (selectProfile _ i); [|discriminate].
    cbv zeta. destruct (test _ _) as [[success|e|c|] w2]; try discriminate.
    apply IH. lia.
Qed.

(** [runTests] always has rounds enough: the model never stops for lack of
    fuel. *)
Lemma runTests_has_fuel (argv2 : option string) (renv : RunEnv) (w : World) :
  fst (runTests argv2 renv w) <> Ok None.
Proof.
  unfold runTests, bind.
  destruct (validateArguments argv2 w) as [[url|e|c|] w1]; try discriminate.
  destruct (try_catch _ _ w1) as [[[]|e|c|] w2]; try discriminate.
  apply rotation_has_fuel. rewrite Z2Nat.id; unfold CONFIG.MAX_ITERATIONS; lia.
Qed.

Lemma sleep_leaks_interval (ms : Z) (w : World) :
  isShuttingDown w = false ->
  liveIntervals (snd (sleep ms None w)) = S (liveIntervals w).
Proof.
  intros Hw. unfold sleep, sleepRun. rewrite Hw. cbn [option_map snd].
  assert (H : forall l, intervalCleared (runTimers (flagAt false None) l ms) = false)
    by (induction l; cbn; auto).
  rewrite H. reflexivity.
Qed.

(** C9, the failing run: a valid URL, no signal, every visit succeeding.
    All 1000 iterations run, [runTests] returns, and then the process does
    not exit: the 999 waits each left their interval timer armed, which
    keeps the event loop alive (exit code 0 is never produced). *)
Theorem natural_completion_does_not_exit :
  let out := main (Some sampleUrl) calmRun in
  fst out = KeptAlive 999 /\
  fst out <> Exited 0 /\
  List.length (console (snd out)) = 1000%nat /\
  isShuttingDown (snd out) = false /\
  exitTimers (snd out) = 0%nat.
Proof.
  vm_compute. repeat split. discriminate.
Qed.

(** A signal during the first wait: one visit, then the loop stops and the
    shutdown timer ends the process with code 0. *)
Lemma interrupted_run_exits_zero :
  let out := main (Some sampleUrl) interruptedRun in
  fst out = Exited 0 /\
  List.length (console (snd out)) = 1%nat /\
  isShuttingDown (snd out) = true.
Proof. vm_compute. repeat split. Qed.

(** The two process-level handlers end the process with code 1. *)
Lemma fatal_handlers_exit_one (error : JsError) (w : World) :
  onUnhandledRejection error w = (Exit 1, w) /\
  onUncaughtException error w = (Exit 1, w).
Proof. split; reflexivity. Qed.

(** * Further properties of the code *)

(** * Further properties of the modelled code *)

(** ** File-name components *)

Lemma slugChar_safe (c : ascii) : slugSafe (slugChar c) = true.
Proof.
  destruct c as [[] [] [] [] [] [] [] []]; vm_compute; reflexivity.
Qed.

Lemma slugChar_fixed (c : ascii) : slugChar (slugChar c) = slugChar c.
Proof.
  destruct c as [[] [] [] [] [] [] [] []]; vm_compute; reflexivity.
Qed.

Lemma safeName_cons (c : ascii) (s : string) :
  safeName (String c s) = String (slugChar c) (safeName s).
Proof.
  unfold safeName, slugChar, notLowerAlnum. cbn [Js.toLowerCase Js.replaceAll].
  destruct (lowerAlnum (Js.lowerChar c)); reflexivity.
Qed.

(** X1: a slug consists of characters of [[a-z0-9]] and separators only,
    whatever the profile name, and slugging a slug changes nothing. *)
Theorem safeName_is_path_safe : forall name : string,
  allChars slugSafe (safeName name) = true /\
  safeName (safeName name) = safeName name.
Proof.
  intros name. induction name as [|c s [IH1 IH2]]; [split; reflexivity|].
  rewrite safeName_cons. split.
  - cbn [allChars]. now rewrite slugChar_safe, IH1.
  - rewrite safeName_cons, slugChar_fixed, IH2. reflexivity.
Qed.

(** X2: the time stamp of a file name has the length of the ISO string,
    holds neither a colon nor a dot, and differs from the ISO string only
    where one of the two stood. *)
Theorem timestamp_has_no_colon_or_dot : forall iso : string,
  String.length (timestamp iso) = String.length iso /\
  allChars (fun c => negb (colonOrDot c)) (timestamp iso) = true /\
  (forall i, String.get i (timestamp iso)
             = option_map (fun c => if colonOrDot c then "-"%char else c)
                          (String.get i iso)).
Proof.
  intros iso. unfold timestamp. split; [apply replaceAll_dash_length|].
  split; [|intros i; apply replaceAll_dash_get].
  induction iso as [|c s IH]; [reflexivity|].
  cbn [Js.replaceAll]. destruct (colonOrDot c) eqn:E.
  - cbn. exact IH.
  - cbn [allChars]. now rewrite E, IH.
Qed.

(** X3: the file of an error screenshot is never the file of a regular
    screenshot, whatever the time stamp and the profile names. *)
Theorem error_screenshot_path_is_separate : forall iso name name',
  String.eqb (screenshotPathFor iso name) (errorScreenshotPath name') = false.
Proof.
  intros iso n n'. apply String.eqb_neq.
  unfold screenshotPathFor, errorScreenshotPath, Js.pathJoin.
  cbn. discriminate.
Qed.

(** ** [test()] never rejects *)

Lemma neverExits_ret {A} (a : A) : neverExits (ret a).
Proof. intros w; exact I. Qed.

Lemma neverExits_throw {A} (e : JsError) : neverExits (@throw A e).
Proof. intros w; exact I. Qed.

Lemma neverExits_modify (f : World -> World) : neverExits (modify f).
Proof. intros w; exact I. Qed.

Lemma neverExits_bind {A B} (m : M A) (k : A -> M B) :
  neverExits m -> (forall a, neverExits (k a)) -> neverExits (bind m k).
Proof.
  intros Hm Hk w. specialize (Hm w). unfold bind.
  destruct (m w) as [[a|e|c|] w1]; cbn in *; auto. apply Hk.
Qed.

Lemma neverExits_get_bind {B} (k : World -> M B) :
  (forall w, neverExits (k w)) -> neverExits (bind get k).
Proof. intros Hk w. unfold bind, get. apply Hk. Qed.

Lemma neverExits_try_catch {A} (m : M A) (h : JsError -> M A) :
  neverExits m -> (forall e, neverExits (h e)) -> neverExits (try_catch m h).
Proof.
  intros Hm Hh w. specialize (Hm w). unfold try_catch.
  destruct (m w) as [[a|e|c|] w1]; cbn in *; auto. apply Hh.
Qed.

Lemma neverExits_await {A} (a : Action) (s : Susp A) : neverExits (await a s).
Proof. intros w. rewrite await_run. destruct (outcome s); exact I. Qed.

Lemma neverExits_onPage {A} (method : string) (a : Action) (s : Susp A) :
  neverExits (onPage method a s).
Proof.
  unfold onPage. apply neverExits_get_bind. intros w.
  destruct (page (tester w)); [apply neverExits_await|apply neverExits_throw].
Qed.

(** One syntactic step through a computation. *)
Ltac never_exits :=
  match goal with
  | |- neverExits (bind get _) => apply neverExits_get_bind; intros ?
  | |- neverExits (bind _ _) => apply neverExits_bind; [|intros ?]
  | |- neverExits (try_catch _ _) => apply neverExits_try_catch; [|intros ?]
  | |- neverExits (await _ _) => apply neverExits_await
  | |- neverExits (onPage _ _ _) => apply neverExits_onPage
  | |- neverExits (modify _) => apply neverExits_modify
  | |- neverExits (ret _) => apply neverExits_ret
  | |- neverExits (throw _) => apply neverExits_throw
  | |- neverExits (match ?x with _ => _ end) => destruct x
  end.

Lemma neverExits_openPage (env : Env) : neverExits (openPage env).
Proof.
  unfold openPage, readViewport, ensureScreenshotDir. repeat never_exits.
Qed.

Lemma neverExits_loadPage (env : Env) : neverExits (loadPage env).
Proof. unfold loadPage. repeat never_exits. Qed.

Lemma neverExits_setupEventHandlers : neverExits setupEventHandlers.
Proof.
  unfold setupEventHandlers. apply neverExits_get_bind. intros w.
  destruct (page (tester w)); [apply neverExits_modify|apply neverExits_throw].
Qed.

Lemma neverExits_seq {A B} (Q : Result B -> World -> Prop) (m : M A)
    (k : A -> M B) :
  neverExits m ->
  (forall a, hoare (fun _ => True) (k a) Q) ->
  (forall e w, Q (Throw e) w) -> (forall w, Q Halt w) ->
  hoare (fun _ => True) (bind m k) Q.
Proof.
  intros Hm Hk Ht Hh w _. specialize (Hm w). unfold bind.
  destruct (m w) as [[a|e|c|] w1]; cbn in *; auto; [|contradiction].
  apply Hk; exact I.
Qed.

Lemma testBody_result (env : Env) :
  hoare (fun _ => True) (testBody env)
        (fun r w => match r with
                    | Ok b => b = true /\ classified "success" w
                    | Exit _ => False
                    | _ => True
                    end).
Proof.
  unfold testBody, visitPage.
  apply neverExits_seq; auto using neverExits_openPage. intros _.
  apply neverExits_seq; auto using neverExits_setupEventHandlers. intros _.
  apply neverExits_seq; auto using neverExits_loadPage. intros _.
  apply neverExits_seq; auto using @neverExits_onPage. intros _.
  apply neverExits_seq; auto.
  { intros w. destruct (takeScreenshot_frame env w) as [[H|H] _];
      rewrite H; exact I. }
  intros _. apply neverExits_seq; auto.
  { intros w. destruct (collectPageInfo_frame env w) as [[H|H] _];
      rewrite H; exact I. }
  intros _ w _. cbn. split; reflexivity.
Qed.

Lemma testCatch_run_nopage (env : Env) (e : JsError) (w : World) :
  page (tester w) = None ->
  testCatch env e w
  = (Ok false,
     withTester (withResults (setError (e_message e)))
       (withTester (withResults (setStatus "error")) w)).
Proof.
  intros Hp. unfold testCatch, bind at 1, modify at 1.
  unfold bind at 1, modify at 1. unfold bind at 1.
  rewrite takeErrorScreenshot_run. cbn [tester withTester page withResults].
  rewrite Hp. reflexivity.
Qed.

Lemma stable_failedWith (m : string) :
  envStable (failedWith m) /\ respStable (failedWith m).
Proof.
  split.
  - constructor; [apply cleanupStart_pieces|..]; unfold failedWith; fields.
  - unfold respStable, failedWith; fields.
Qed.

Lemma testCatch_result (env : Env) (e : JsError) (w : World) :
  (fst (testCatch env e w) = Ok false \/ fst (testCatch env e w) = Halt) /\
  classified "error" (snd (testCatch env e w)) /\
  failedWith (e_message e) (snd (testCatch env e w)).
Proof.
  destruct (page (tester w)) as [pg|] eqn:Hp.
  - rewrite (testCatch_run env e w pg Hp). cbn [fst snd].
    split; [destruct (outcome (e_errorScreenshot env)); auto|].
    apply (deliverAll_keeps (fun v => classified "error" v
                                      /\ failedWith (e_message e) v)).
    + apply envStable_and; [apply stable_classified_env|apply stable_failedWith].
    + apply respStable_and; [apply stable_classified_resp|apply stable_failedWith].
    + split; reflexivity.
  - rewrite (testCatch_run_nopage env e w Hp). cbn [fst snd].
    repeat split; auto.
Qed.

Lemma stable_guard : sessionStable (fun w => cleanupCalled (tester w) = true).
Proof. session_stable. Qed.

Lemma cleanup_sets_guard (env : Env) (w : World) :
  fst (cleanup env w) = Ok tt ->
  cleanupCalled (tester (snd (cleanup env w))) = true.
Proof.
  unfold cleanup, bind, get, modify.
  destruct (cleanupCalled (tester w)) eqn:E; [intros _; exact E|].
  rewrite suspend_run. cbn [snd events]. intros _.
  apply (deliverAll_keeps (fun v => cleanupCalled (tester v) = true));
    [apply (ss_env _ stable_guard)|apply (ss_resp _ stable_guard)|].
  apply cleanupStart_sets_guard.
Qed.

Lemma test_outcome (env : Env) (w : World) :
  let r := fst (test env w) in
  let w' := snd (test env w) in
  resolvesOrHangs r /\
  (r = Ok true -> status (testResults (tester w')) = "success") /\
  (r = Ok false -> status (testResults (tester w')) = "error" /\
                   error (testResults (tester w')) <> None) /\
  (forall b, r = Ok b -> cleanupCalled (tester w') = true).
Proof.
  intros r w'. subst r w'. unfold test, finally, try_catch.
  pose proof (testBody_result env w I) as Hb. cbv beta in Hb.
  destruct (testBody env w) as [[b|e|c|] w1]; cbn [fst snd] in Hb.
  - destruct Hb as [-> Hs].
    pose proof (keeps_cleanup _ env (stable_classified_env "success")
                  (stable_classified_resp "success") w1 Hs) as Hk.
    pose proof (cleanup_sets_guard env w1) as Hg.
    destruct (cleanup_result env w1) as [Hr _].
    destruct (cleanup env w1) as [[[]|e|c|] w2]; cbn [fst snd] in *;
      try (destruct Hr; discriminate);
      repeat split; auto; try discriminate.
  - destruct (testCatch_result env e w1) as (Hr & Hs & He).
    destruct (testCatch env e w1) as [r2 w2]; cbn [fst snd] in *.
    destruct Hr as [-> | ->]; [|repeat split; discriminate].
    assert (HZ : classified "error" w2 /\ failedWith (e_message e) w2)
      by (split; assumption).
    assert (HZe : envStable (fun v => classified "error" v
                                      /\ failedWith (e_message e) v))
      by (apply envStable_and;
          [apply stable_classified_env|apply stable_failedWith]).
    assert (HZr : respStable (fun v => classified "error" v
                                       /\ failedWith (e_message e) v))
      by (apply respStable_and;
          [apply stable_classified_resp|apply stable_failedWith]).
    pose proof (keeps_cleanup _ env HZe HZr w2 HZ) as Hk.
    pose proof (cleanup_sets_guard env w2) as Hg.
    destruct (cleanup_result env w2) as [Hr _].
    destruct (cleanup env w2) as [[[]|e2|c|] w3]; cbn [fst snd] in *;
      try (destruct Hr; discriminate);
      repeat split; auto; try discriminate.
    + apply Hk.
    + destruct Hk as [_ Hf]. unfold failedWith in Hf. congruence.
  - contradiction.
  - repeat split; discriminate.
Qed.

(** X4: [test()] never rejects and never ends the process, whatever the
    browser, the file system and the signals do: it returns a boolean or
    stays suspended; when it returns [true] the status is [success], when
    it returns [false] the status is [error] and the message of the error
    is recorded, and in both cases cleanup has run. *)
Theorem test_never_rejects : forall (env : Env) (w : World),
  let r := fst (test env w) in
  let w' := snd (test env w) in
  resolvesOrHangs r /\
  (r = Ok true -> status (testResults (tester w')) = "success") /\
  (r = Ok false -> status (testResults (tester w')) = "error" /\
                   error (testResults (tester w')) <> None) /\
  (forall b, r = Ok b -> cleanupCalled (tester w') = true).
Proof. intros env w. apply test_outcome. Qed.

(** ** The rotation loop and the process *)

Lemma selectProfile_some (devices : Registry) (i : Z) :
  0 <= i -> exists p, selectProfile (DEVICE_PROFILES devices) i = Some p.
Proof.
  intros Hi. rewrite <- (Z2Nat.id i Hi).
  rewrite selectProfile_index by discriminate.
  destruct (nth_error (DEVICE_PROFILES devices) _) as [p|] eqn:E; [eauto|].
  apply nth_error_None in E.
  pose proof (Nat.mod_upper_bound (Z.to_nat i)
                (List.length (DEVICE_PROFILES devices))) as Hb.
  cbn [List.length DEVICE_PROFILES] in *. lia.
Qed.

Lemma rotation_outcome (fuel : nat) (renv : RunEnv) (url : string) :
  forall (i sc ec : Z) (w : World),
  0 <= i -> resolvesOrHangs (fst (rotation fuel renv url i sc ec w)).
Proof.
  induction fuel as [|fuel IH]; intros i sc ec w Hi.
  - cbn [rotation]. unfold bind, get.
    destruct (negb (isShuttingDown w) && _); exact I.
  - rewrite rotation_round.
    destruct (negb (isShuttingDown w) && _); [|exact I].
    destruct (selectProfile_some (r_devices renv) i Hi) as [p ->].
    cbv zeta.
    match goal with
    | |- context [test ?e ?v] =>
        destruct (test_outcome e v) as (Hr & _); destruct (test e v) as [[b|e1|c|] w2]
    end; cbn [fst] in Hr; try contradiction; [|exact I].
    apply IH. lia.
Qed.

Lemma runTests_outcome (argv2 : option string) (renv : RunEnv) (w : World) :
  wellFormedUrl argv2 = true ->
  resolvesOrHangs (fst (runTests argv2 renv w)).
Proof.
  intros Hv. unfold runTests. unfold bind at 1.
  rewrite validateArguments_run, Hv.
  destruct argv2 as [url|]; [|discriminate].
  unfold bind at 1, try_catch. rewrite await_run.
  destruct (outcome (r_mkdir renv)) as [[]|e|]; cbn [fst snd ret];
    try exact I; apply rotation_outcome; lia.
Qed.

(** X5: the process ends with exit code 1 exactly when the argument fails
    validation: once the URL is accepted, [runTests] never throws (the
    ["Fatal error"] branch of the main function is never taken) and never
    calls [process.exit] itself. *)
Theorem exit_code_one_only_for_bad_argument : forall (argv2 : option string)
    (renv : RunEnv),
  (fst (main argv2 renv) = Exited 1 <-> wellFormedUrl argv2 = false) /\
  (wellFormedUrl argv2 = true ->
   resolvesOrHangs (fst (runTests argv2 renv initialWorld))).
Proof.
  intros argv2 renv. split; [|apply runTests_outcome].
  destruct (wellFormedUrl argv2) eqn:Hv.
  - pose proof (runTests_outcome argv2 renv initialWorld Hv) as Hr.
    unfold main. destruct (runTests argv2 renv initialWorld) as [[s|e|c|] w];
      cbn [fst] in *; try contradiction; split; try discriminate.
    + unfold afterMain. destruct (0 <? exitTimers w)%nat; [discriminate|].
      destruct (liveIntervals w =? 0)%nat; discriminate.
    + destruct (0 <? exitTimers w)%nat; discriminate.
  - split; [reflexivity|]. intros _. unfold main, runTests, bind.
    rewrite validateArguments_run, Hv. destruct argv2; reflexivity.
Qed.

(** What the loop hands back: the counters add up to the number of
    iterations, which is at most the cap; a banner was printed per
    iteration; and the loop stopped because of the flag or at the cap. *)
Lemma rotation_counters (fuel : nat) (renv : RunEnv) (url : string) :
  forall (i sc ec : Z) (w : World),
  0 <= i <= CONFIG.MAX_ITERATIONS -> 0 <= sc -> 0 <= ec -> sc + ec = i ->
  Z.of_nat (List.length (console w)) = i ->
  let out := rotation fuel renv url i sc ec w in
  match fst out with
  | Ok (Some s) =>
      s_successCount s + s_errorCount s = s_iteration s /\
      0 <= s_successCount s /\ 0 <= s_errorCount s /\
      i <= s_iteration s <= CONFIG.MAX_ITERATIONS /\
      Z.of_nat (List.length (console (snd out))) = s_iteration s /\
      (isShuttingDown (snd out) = true \/ s_iteration s = CONFIG.MAX_ITERATIONS)
  | _ => True
  end.
Proof.
  induction fuel as [|fuel IH]; intros i sc ec w Hi Hsc Hec Hsum Hcon out;
    subst out.
  - cbn [rotation]. unfold bind, get.
    destruct (isShuttingDown w) eqn:Ef; cbn [negb andb].
    + cbn. repeat split; auto; lia.
    + destruct (i <? CONFIG.MAX_ITERATIONS) eqn:E; [exact I|].
      apply Z.ltb_ge in E. cbn. repeat split; auto; try lia; right; lia.
  - rewrite rotation_round.
    destruct (isShuttingDown w) eqn:Ef; cbn [negb andb].
    + cbn. repeat split; auto; lia.
    + destruct (i <? CONFIG.MAX_ITERATIONS) eqn:E.
      2:{ apply Z.ltb_ge in E. cbn. repeat split; auto; try lia; right; lia. }
      apply Z.ltb_lt in E.
      destruct (selectProfile _ i) as [p|]; [|exact I].
      cbv zeta.
      set (w1 := startVisit p i url _).
      assert (H1 : console w1
                   = (console w ++ [{| b_iteration := i; b_profile := p |}])%list)
        by reflexivity.
      pose proof (keeps_test _ (stable_console (console w1))
                    (i_visit (r_iter renv i)) w1 eq_refl) as Ht.
      cbv beta in Ht.
      destruct (test (i_visit (r_iter renv i)) w1) as [[success|e|c|] w2];
        try exact I.
      cbn [snd] in Ht.
      set (sc' := if success then sc + 1 else sc).
      set (ec' := if success then ec else ec + 1).
      set (w4 := if negb (isShuttingDown (setCurrentTest None w2)) && _
                 then _ else _).
      assert (Hc4 : Z.of_nat (List.length (console w4)) = i + 1).
      { assert (Hc : console w4 = console w2).
        { subst w4. destruct (negb (isShuttingDown (setCurrentTest None w2)) && _);
            [rewrite sleep_keeps_console|]; reflexivity. }
        rewrite Hc, Ht, H1, length_app. cbn [List.length]. lia. }
      assert (Hs' : 0 <= sc' /\ 0 <= ec' /\ sc' + ec' = i + 1)
        by (subst sc' ec'; destruct success; lia).
      destruct Hs' as (Ha & Hb & Hc).
      pose proof (IH (i + 1) sc' ec' w4 ltac:(lia) Ha Hb Hc Hc4) as H.
      cbv zeta in H.
      destruct (rotation fuel renv url (i + 1) sc' ec' w4) as [[[s|]|e|c|] w5];
        try exact I.
      cbn [fst snd] in *. repeat split; try apply H; lia.
Qed.

(** X6: when [runTests] returns, the passed and failed counts add up to the
    iteration count, which never exceeds the cap of 1000; one banner was
    printed per iteration; and the loop was left because the shutdown flag
    was set or the cap was reached. *)
Theorem runTests_counters_add_up : forall (argv2 : option string)
    (renv : RunEnv),
  match runTests argv2 renv initialWorld with
  | (Ok (Some s), w') =>
      s_successCount s + s_errorCount s = s_iteration s /\
      0 <= s_successCount s /\ 0 <= s_errorCount s /\
      0 <= s_iteration s <= 1000 /\
      Z.of_nat (List.length (console w')) = s_iteration s /\
      (isShuttingDown w' = true \/ s_iteration s = 1000)
  | (Ok None, _) => False
  | _ => True
  end.
Proof.
  intros argv2 renv.
  pose proof (runTests_has_fuel argv2 renv initialWorld) as Hfuel.
  unfold runTests in *. unfold bind at 1 in Hfuel. unfold bind at 1.
  destruct (validateArguments argv2 initialWorld) as [[url|e|c|] w0] eqn:Ev;
    try exact I.
  assert (Hw0 : w0 = initialWorld).
  { rewrite validateArguments_run in Ev. now inversion Ev. }
  subst w0. unfold bind at 1 in Hfuel. unfold bind at 1.
  pose proof (keeps_try_catch (fun v => console v = [])
                (await (FsMkdir CONFIG.SCREENSHOT_DIR) (r_mkdir renv))
                (fun _ => ret tt)
                (keeps_call _ (stable_console [])
                   (FsMkdir CONFIG.SCREENSHOT_DIR) (r_mkdir renv) eq_refl)
                (fun _ => keeps_ret _ tt) initialWorld eq_refl) as Hm.
  cbv beta in Hm.
  destruct (try_catch _ _ initialWorld) as [[[]|e|c|] w1]; try exact I.
  cbn [snd] in Hm.
  pose proof (rotation_counters (Z.to_nat CONFIG.MAX_ITERATIONS) renv url
                0 0 0 w1) as H.
  cbv zeta in H.
  destruct (rotation _ renv url 0 0 0 w1) as [[[s|]|e|c|] w2]; try exact I.
  - cbn [fst snd] in H. unfold CONFIG.MAX_ITERATIONS in H.
    apply H; try lia. now rewrite Hm.
  - cbn [fst] in Hfuel. congruence.
Qed.

(** ** The uninterrupted wait *)

Lemma runTimers_no_signal (ticks : list Z) (ms : Z) :
  runTimers (flagAt false None) ticks ms
  = {| resolvedAt := ms; intervalCleared := false |}.
Proof. induction ticks; cbn; auto. Qed.

(** X13: a wait of [ms] milliseconds, for a delay that the timers take as
    given ([1 <= ms <= 2147483647]), during which no signal arrives lasts
    exactly [ms], makes no call, leaves the flag down, and leaves its
    interval timer armed: the only thing it changes is the count of armed
    intervals, which grows by one. *)
Theorem sleep_without_signal_leaks_its_interval : forall (ms : Z) (w : World),
  1 <= ms <= Js.TIMEOUT_MAX ->
  isShuttingDown w = false ->
  resolvedAt (sleepRun ms false None) = ms /\
  intervalCleared (sleepRun ms false None) = false /\
  sleep ms None w = (Ok tt, leakInterval w) /\
  liveIntervals (snd (sleep ms None w)) = S (liveIntervals w).
Proof.
  intros ms w _ Hw. unfold sleep, sleepRun. rewrite Hw. cbn [option_map].
  rewrite runTimers_no_signal. repeat split.
Qed.

Lemma sleep_without_signal_leaks_its_interval_witness :
  sleep CONFIG.INTERVAL None initialWorld = (Ok tt, leakInterval initialWorld).
Proof.
  apply (sleep_without_signal_leaks_its_interval CONFIG.INTERVAL initialWorld
           ltac:(unfold CONFIG.INTERVAL, Js.TIMEOUT_MAX; lia) eq_refl).
Defined.

(** ** Visits that fail after the page was created *)

Ltac visit_stable :=
  constructor;
  [ env_stable | unfold respStable; fields | fields | fields | fields | fields ].

Lemma visitStable_and (P Q : World -> Prop) :
  visitStable P -> visitStable Q -> visitStable (fun w => P w /\ Q w).
Proof.
  intros [[p1 p2 p3 p4] p5 p6 p7 p8 p9] [[q1 q2 q3 q4] q5 q6 q7 q8 q9].
  constructor; [constructor|unfold respStable in *|..]; intros; intuition.
Qed.

Lemma sessionStable_visitStable (P : World -> Prop) :
  sessionStable P -> visitStable P.
Proof. intros [a b c d e f g]. constructor; assumption. Qed.

Lemma stable_captured (taken : bool) (path : option string) :
  visitStable (captured taken path).
Proof. unfold captured. visit_stable. Qed.

Section KnownOutcomesOfVisit.

Variable X : World -> Prop.
Hypothesis HX : visitStable X.
Variable env : Env.

Lemma after_call_v (a : Action) (evs : list Event) (w : World) :
  isClose a = false -> X w ->
  X (deliverAll evs (emit a w)) /\ performed a (deliverAll evs (emit a w)).
Proof.
  intros Ha Hw.
  apply (deliverAll_keeps (fun v => X v /\ performed a v)).
  - apply envStable_and; [apply (vs_env _ HX)|apply (ss_env _ (stable_performed a))].
  - apply respStable_and; [apply (vs_resp _ HX)|apply (ss_resp _ (stable_performed a))].
  - split; [apply (vs_emit _ HX); assumption|].
    unfold performed; cbn. apply in_or_app; right; left; reflexivity.
Qed.

Lemma await_settles_v {A} (a : Action) (s : Susp A) :
  isClose a = false ->
  hoare X (await a s)
        (fun r w => r = match outcome s with
                        | Resolved x => Ok x
                        | Rejected e => Throw e
                        | Unsettled => Halt
                        end /\ X w /\ performed a w).
Proof.
  intros Ha w Hw. rewrite await_run. cbn [fst snd].
  split; [reflexivity|]. apply after_call_v; assumption.
Qed.

Lemma openPage_ok_v (p : Profile) :
  opensPage env p ->
  (forall w, X w -> profile (tester w) = p) ->
  hoare X (openPage env) (fun r w => r = Ok tt /\ X w /\ hasPage w).
Proof.
  intros (Hv & Hd & Hl & Hc & Hp) Hprof. unfold openPage.
  apply hoare_bind_ok with (R := X) (a0 := tt).
  { intros w Hw. unfold readViewport, bind, get. rewrite (Hprof w Hw).
    destruct (viewport p); [split; [reflexivity|exact Hw]|congruence]. }
  apply hoare_bind_ok with (R := X) (a0 := tt).
  { intros w Hw. unfold ensureScreenshotDir, try_catch.
    destruct Hd as [Ha|[[e Ha] Hm]]; rewrite await_run, Ha; cbn [fst snd].
    - split; [reflexivity|]. apply after_call_v; [reflexivity|assumption].
    - rewrite await_run, Hm. cbn [fst snd]. split; [reflexivity|].
      apply after_call_v; [reflexivity|].
      apply after_call_v; [reflexivity|assumption]. }
  apply hoare_bind_ok with (R := X) (a0 := tt).
  { intros w Hw. destruct (await_settles_v Launch (e_launch env) eq_refl w Hw)
      as (H1 & H2 & _). rewrite Hl in H1. split; assumption. }
  apply hoare_bind_ok with (R := X) (a0 := tt).
  { intros w Hw. split; [reflexivity|]. apply (vs_browser _ HX); assumption. }
  apply hoare_get_bind. intros w0 Hw0.
  apply hoare_pre with (P' := X); [|intros w ->; exact Hw0].
  apply hoare_bind_ok with (R := X) (a0 := tt).
  { intros w Hw.
    destruct (await_settles_v (NewContext (contextOptions (profile (tester w0))))
                (e_newContext env) eq_refl w Hw) as (H1 & H2 & _).
    rewrite Hc in H1. split; assumption. }
  apply hoare_bind_ok with (R := X) (a0 := tt).
  { intros w Hw. split; [reflexivity|]. apply (vs_context _ HX); assumption. }
  apply hoare_bind_ok with (R := X) (a0 := tt).
  { intros w Hw. destruct (await_settles_v NewPage (e_newPage env) eq_refl w Hw)
      as (H1 & H2 & _). rewrite Hp in H1. split; assumption. }
  intros w Hw. split; [reflexivity|]. split.
  - apply (vs_page _ HX); assumption.
  - unfold hasPage; cbn. discriminate.
Qed.

Hypothesis Hpage : forall w, X w -> hasPage w.

Lemma setupEventHandlers_ok_v :
  hoare X setupEventHandlers (fun r w => r = Ok tt /\ X w).
Proof.
  intros w Hw. unfold setupEventHandlers, bind, get.
  pose proof (Hpage w Hw) as Hp. unfold hasPage in Hp.
  destruct (page (tester w)) as [pg|]; [|congruence].
  split; [reflexivity|]. apply (vs_page _ HX); assumption.
Qed.

Lemma onPage_settles_v {A} (method : string) (a : Action) (s : Susp A) :
  isClose a = false ->
  hoare X (onPage method a s)
        (fun r w => r = match outcome s with
                        | Resolved x => Ok x
                        | Rejected e => Throw e
                        | Unsettled => Halt
                        end /\ X w /\ performed a w).
Proof.
  intros Ha w Hw. rewrite onPage_run by (apply Hpage; assumption).
  apply await_settles_v; assumption.
Qed.

Lemma loadPage_passes_v :
  navigationPasses (outcome (e_goto env)) ->
  hoare X (loadPage env) (fun r w => r = Ok tt /\ X w).
Proof.
  intros Hnav w Hw. unfold loadPage, try_catch, bind at 1, get.
  unfold bind. rewrite onPage_run, await_run by (apply Hpage; assumption).
  pose proof (after_call_v (Goto (targetUrl (tester w)) CONFIG.PAGE_LOAD_TIMEOUT)
                (events (e_goto env)) w eq_refl Hw) as [Hx _].
  destruct (outcome (e_goto env)) as [[r|]|e|]; cbn in Hnav.
  - unfold modify. apply Z.ltb_lt in Hnav. rewrite Z.geb_leb.
    rewrite Z.ltb_antisym in Hnav. apply negb_true_iff in Hnav.
    rewrite Hnav. cbn [fst snd ret].
    split; [reflexivity|]. apply (vs_resp _ HX); assumption.
  - split; [reflexivity|exact Hx].
  - rewrite Hnav. cbn. split; [reflexivity|exact Hx].
  - contradiction.
Qed.

Lemma loadPage_rethrows_v (e : JsError) :
  outcome (e_goto env) = Rejected e ->
  String.eqb (e_name e) "TimeoutError" = false ->
  hoare X (loadPage env) (fun r w => r = Throw e /\ X w).
Proof.
  intros Hgo Hname w Hw. unfold loadPage, try_catch, bind at 1, get.
  unfold bind. rewrite onPage_run, await_run, Hgo by (apply Hpage; assumption).
  rewrite Hname. cbn [fst snd throw]. split; [reflexivity|].
  apply after_call_v; [reflexivity|assumption].
Qed.

End KnownOutcomesOfVisit.

(** How a visit ends once its [try] block has thrown with a page at hand. *)
Lemma visit_fails (env : Env) (p : Profile) (i : Z) (url : string)
    (w0 : World) (e : JsError) :
  hoare (fun w => visitOf p url w /\ captured false None w) (testBody env)
        (fun res w => res = Throw e /\
                      (visitOf p url w /\ captured false None w) /\ hasPage w) ->
  let res := fst (test env (startVisit p i url w0)) in
  let w' := snd (test env (startVisit p i url w0)) in
  classified "error" w' /\
  failedWith (e_message e) w' /\
  captured false None w' /\
  performed (Screenshot (errorScreenshotPath (name p)) false) w' /\
  (res = Ok false \/ res = Halt).
Proof.
  intros Hbody res w'.
  assert (Hstart : visitOf p url (startVisit p i url w0)
                   /\ captured false None (startVisit p i url w0))
    by (unfold visitOf, captured; cbn; auto).
  specialize (Hbody (startVisit p i url w0) Hstart). cbv beta in Hbody.
  subst res w'. unfold test, finally, try_catch.
  destruct (testBody env (startVisit p i url w0)) as [rb w1].
  cbn [fst snd] in Hbody.
  destruct Hbody as (-> & ((_ & Hpn & _) & Hcap) & Hpg).
  unfold hasPage in Hpg. destruct (page (tester w1)) as [pg|] eqn:Epg;
    [clear Hpg|congruence].
  rewrite (testCatch_run env e w1 pg Epg), Hpn.
  set (shot := Screenshot (errorScreenshotPath (name p)) false).
  set (w1' := withTester (withResults (setError (e_message e)))
                (withTester (withResults (setStatus "error")) w1)).
  set (w2 := deliverAll (events (e_errorScreenshot env)) (emit shot w1')).
  set (Z := fun w => (classified "error" w /\ failedWith (e_message e) w) /\
                     (captured false None w /\ performed shot w)).
  assert (HZe : envStable Z).
  { unfold Z. apply envStable_and; apply envStable_and.
    - apply stable_classified_env.
    - apply stable_failedWith.
    - apply (vs_env _ (stable_captured false None)).
    - apply (ss_env _ (stable_performed shot)). }
  assert (HZr : respStable Z).
  { unfold Z. apply respStable_and; apply respStable_and.
    - apply stable_classified_resp.
    - apply stable_failedWith.
    - apply (vs_resp _ (stable_captured false None)).
    - apply (ss_resp _ (stable_performed shot)). }
  assert (HZ2 : Z w2).
  { apply deliverAll_keeps; auto. repeat split; try apply Hcap.
    unfold performed; cbn. apply in_or_app; right; left; reflexivity. }
  assert (Hfin :
            let out := match cleanup env w2 with
                       | (Ok _, w'') => (Ok false, w'')
                       | (Throw e, w'') => (Throw e, w'')
                       | (Exit c, w'') => (Exit c, w'')
                       | (Halt, w'') => (Halt, w'')
                       end in
            Z (snd out) /\ (fst out = Ok false \/ fst out = Halt)).
  { intros out. subst out.
    pose proof (keeps_cleanup Z env HZe HZr w2 HZ2) as Hk.
    destruct (cleanup_result env w2) as [Hr _].
    destruct (cleanup env w2) as [[[]|e2|c|] w3]; cbn [fst snd] in *;
      try (destruct Hr; discriminate); split; auto. }
  assert (Hgoal : forall out : Result bool * World,
            Z (snd out) /\ (fst out = Ok false \/ fst out = Halt) ->
            classified "error" (snd out) /\ failedWith (e_message e) (snd out) /\
            captured false None (snd out) /\ performed shot (snd out) /\
            (fst out = Ok false \/ fst out = Halt))
    by (unfold Z; intros out H; tauto).
  destruct (outcome (e_errorScreenshot env)) as [[]|e'|];
    try (apply Hgoal, Hfin).
  apply Hgoal. cbn [fst snd]. split; [exact HZ2|auto].
Qed.

Lemma stable_visit_start (p : Profile) (url : string) :
  visitStable (fun w => visitOf p url w /\ captured false None w).
Proof.
  apply visitStable_and;
    [apply sessionStable_visitStable, stable_visitOf|apply stable_captured].
Qed.

Lemma stable_visit_page (p : Profile) (url : string) :
  visitStable (fun w => (visitOf p url w /\ captured false None w) /\ hasPage w).
Proof.
  apply visitStable_and;
    [apply stable_visit_start|apply sessionStable_visitStable, stable_hasPage].
Qed.

(** X7: when [page.goto] rejects with an error that is not named
    [TimeoutError], the error is re-thrown: the visit ends with status
    [error] and the message of that very error, no regular screenshot is
    recorded, the error screenshot call is made, and [test()] does not
    return [true]. *)
Theorem navigation_error_fails_the_visit : forall (env : Env) (p : Profile)
    (i : Z) (url : string) (w0 : World) (e : JsError),
  opensPage env p ->
  outcome (e_goto env) = Rejected e ->
  String.eqb (e_name e) "TimeoutError" = false ->
  let res := fst (test env (startVisit p i url w0)) in
  let w' := snd (test env (startVisit p i url w0)) in
  status (testResults (tester w')) = "error" /\
  error (testResults (tester w')) = Some (e_message e) /\
  screenshotTaken (testResults (tester w')) = false /\
  performed (Screenshot (errorScreenshotPath (name p)) false) w' /\
  (res = Ok false \/ res = Halt).
Proof.
  intros env p i url w0 e Hopen Hgo Hname.
  assert (H : hoare (fun w => visitOf p url w /\ captured false None w)
                (testBody env)
                (fun res w => res = Throw e /\
                   (visitOf p url w /\ captured false None w) /\ hasPage w)).
  { unfold testBody, visitPage.
    apply hoare_bind_ok
      with (R := fun w => (visitOf p url w /\ captured false None w) /\ hasPage w)
           (a0 := tt).
    { apply (openPage_ok_v _ (stable_visit_start p url) env p Hopen).
      intros w H; apply H. }
    apply hoare_bind_ok
      with (R := fun w => (visitOf p url w /\ captured false None w) /\ hasPage w)
           (a0 := tt).
    { apply setupEventHandlers_ok_v; [apply stable_visit_page|].
      intros w H; apply H. }
    apply hoare_bind_throw.
    apply loadPage_rethrows_v; auto using stable_visit_page.
    intros w H; apply H. }
  destruct (visit_fails env p i url w0 e H) as (H1 & H2 & [H3 _] & H4 & H5).
  cbv zeta. repeat split; assumption.
Qed.

Lemma navigation_error_fails_the_visit_witness :
  status (testResults (tester (snd (test envGotoFails
            (startVisit desktopChrome 0 sampleUrl initialWorld))))) = "error" /\
  error (testResults (tester (snd (test envGotoFails
            (startVisit desktopChrome 0 sampleUrl initialWorld)))))
  = Some "page.goto: net::ERR_NAME_NOT_RESOLVED".
Proof.
  pose proof (navigation_error_fails_the_visit envGotoFails desktopChrome 0
                sampleUrl initialWorld networkError (opensPage_calm _)
                eq_refl eq_refl) as H.
  cbv zeta in H. destruct H as (H1 & H2 & _). split; [exact H1|exact H2].
Defined.

(** X8: when the settle wait is rejected after a navigation that passed
    (for instance because a shutdown closed the page meanwhile), the visit
    ends with status [error] and the message of that error, no regular
    screenshot is recorded, the error screenshot call is made, and
    [test()] does not return [true]. *)
Theorem settle_wait_failure_fails_the_visit : forall (env : Env) (p : Profile)
    (i : Z) (url : string) (w0 : World) (e : JsError),
  opensPage env p ->
  navigationPasses (outcome (e_goto env)) ->
  outcome (e_waitForTimeout env) = Rejected e ->
  let res := fst (test env (startVisit p i url w0)) in
  let w' := snd (test env (startVisit p i url w0)) in
  status (testResults (tester w')) = "error" /\
  error (testResults (tester w')) = Some (e_message e) /\
  screenshotTaken (testResults (tester w')) = false /\
  performed (Screenshot (errorScreenshotPath (name p)) false) w' /\
  (res = Ok false \/ res = Halt).
Proof.
  intros env p i url w0 e Hopen Hnav Hwait.
  set (X := fun w => (visitOf p url w /\ captured false None w) /\ hasPage w).
  assert (HXp : forall w, X w -> hasPage w) by (intros w H; apply H).
  assert (H : hoare (fun w => visitOf p url w /\ captured false None w)
                (testBody env) (fun res w => res = Throw e /\ X w)).
  { unfold testBody, visitPage.
    apply hoare_bind_ok with (R := X) (a0 := tt).
    { apply (openPage_ok_v _ (stable_visit_start p url) env p Hopen).
      intros w H; apply H. }
    apply hoare_bind_ok with (R := X) (a0 := tt);
      [apply (setupEventHandlers_ok_v X (stable_visit_page p url) HXp)|].
    apply hoare_bind_ok with (R := X) (a0 := tt);
      [apply (loadPage_passes_v X (stable_visit_page p url) env HXp Hnav)|].
    apply hoare_bind_throw.
    intros w Hw.
    destruct (onPage_settles_v X (stable_visit_page p url) HXp "waitForTimeout"
                (WaitForTimeout CONFIG.SDK_WAIT) (e_waitForTimeout env)
                eq_refl w Hw) as (H1 & H2 & _).
    rewrite Hwait in H1. split; assumption. }
  destruct (visit_fails env p i url w0 e H) as (H1 & H2 & [H3 _] & H4 & H5).
  cbv zeta. repeat split; assumption.
Qed.

Lemma settle_wait_failure_fails_the_visit_witness :
  status (testResults (tester (snd (test envWaitFails
            (startVisit desktopChrome 0 sampleUrl initialWorld))))) = "error" /\
  fst (test envWaitFails (startVisit desktopChrome 0 sampleUrl initialWorld))
  = Ok false.
Proof.
  assert (Hopen : opensPage envWaitFails desktopChrome).
  { unfold opensPage; cbn. repeat split; auto. discriminate. }
  pose proof (settle_wait_failure_fails_the_visit envWaitFails desktopChrome 0
                sampleUrl initialWorld closedError Hopen
                ltac:(cbn; lia) eq_refl) as H.
  cbv zeta in H. destruct H as (H1 & _). split; [exact H1|reflexivity].
Defined.

(** ** The screenshot fields of the result *)

Lemma testCatch_keeps_captured (taken : bool) (path : option string)
    (env : Env) (e : JsError) :
  keeps (captured taken path) (testCatch env e).
Proof.
  intros w Hw. cbv beta. destruct (page (tester w)) as [pg|] eqn:Hp.
  - rewrite (testCatch_run env e w pg Hp). cbn [snd].
    apply deliverAll_keeps;
      [apply (vs_env _ (stable_captured taken path))
      |apply (vs_resp _ (stable_captured taken path))|exact Hw].
  - rewrite (testCatch_run_nopage env e w Hp). exact Hw.
Qed.

Lemma collectPageInfo_keeps_captured (taken : bool) (path : option string)
    (env : Env) :
  keeps (captured taken path) (collectPageInfo env).
Proof.
  intros w Hw. cbv beta. unfold collectPageInfo, try_catch, bind.
  unfold onPage, bind, get. destruct (page (tester w)); [|exact Hw].
  rewrite await_run.
  assert (H : captured taken path
                (deliverAll (events (e_title env)) (emit Title w))).
  { apply deliverAll_keeps;
      [apply (vs_env _ (stable_captured taken path))
      |apply (vs_resp _ (stable_captured taken path))|exact Hw]. }
  destruct (outcome (e_title env)) as [t|e|]; exact H.
Qed.

Lemma takeScreenshot_captures (env : Env) (pn : string) (w : World) :
  hasPage w -> profileName (tester w) = pn -> captured false None w ->
  capturedAfter env pn (snd (takeScreenshot env w)).
Proof.
  intros Hp Hpn Hc. unfold takeScreenshot, try_catch, bind at 1, get.
  unfold bind. rewrite onPage_run, await_run, Hpn by assumption.
  unfold capturedAfter.
  assert (H : captured false None
                (deliverAll (events (e_screenshot env))
                   (emit (Screenshot (screenshotPathFor (e_now env) pn) true) w))).
  { apply deliverAll_keeps;
      [apply (vs_env _ (stable_captured false None))
      |apply (vs_resp _ (stable_captured false None))|exact Hc]. }
  destruct (outcome (e_screenshot env)) as [[]|e|]; cbn [fst snd modify ret];
    [split; reflexivity|exact H|exact H].
Qed.

(** X10: on a visit that got past navigation and the settle wait, the
    result says [screenshotTaken = true], with the path that was handed to
    the screenshot call, exactly when that call was fulfilled; when it was
    rejected or never settled, [screenshotTaken] stays [false] and no path
    is recorded. *)
Theorem screenshot_recorded_iff_fulfilled : forall (env : Env) (p : Profile)
    (i : Z) (url : string) (w0 : World),
  opensPage env p ->
  navigationPasses (outcome (e_goto env)) ->
  outcome (e_waitForTimeout env) = Resolved tt ->
  let w' := snd (test env (startVisit p i url w0)) in
  match outcome (e_screenshot env) with
  | Resolved _ =>
      screenshotTaken (testResults (tester w')) = true /\
      screenshotPath (testResults (tester w'))
      = Some (screenshotPathFor (e_now env) (name p))
  | _ =>
      screenshotTaken (testResults (tester w')) = false /\
      screenshotPath (testResults (tester w')) = None
  end.
Proof.
  intros env p i url w0 Hopen Hnav Hwait w'.
  set (X := fun w => (visitOf p url w /\ captured false None w) /\ hasPage w).
  assert (HXp : forall w, X w -> hasPage w) by (intros w H; apply H).
  assert (HQ : forall b pth, envStable (captured b pth) /\ respStable (captured b pth))
    by (intros; split; apply stable_captured).
  assert (HQ' : envStable (capturedAfter env (name p))
                /\ respStable (capturedAfter env (name p))).
  { unfold capturedAfter. destruct (outcome (e_screenshot env)); apply HQ. }
  assert (Hfin : capturedAfter env (name p) w').
  { subst w'. unfold test.
    apply (hoare_finally_keeps
             (fun w => visitOf p url w /\ captured false None w)
             (capturedAfter env (name p))).
    - apply hoare_try_catch with (R := fun _ => capturedAfter env (name p)); auto.
      + unfold testBody, visitPage.
        apply hoare_bind_ok with (R := X) (a0 := tt).
        { apply (openPage_ok_v _ (stable_visit_start p url) env p Hopen).
          intros w H; apply H. }
        apply hoare_bind_ok with (R := X) (a0 := tt);
          [apply (setupEventHandlers_ok_v X (stable_visit_page p url) HXp)|].
        apply hoare_bind_ok with (R := X) (a0 := tt);
          [apply (loadPage_passes_v X (stable_visit_page p url) env HXp Hnav)|].
        apply hoare_bind_ok with (R := X) (a0 := tt).
        { intros w Hw.
          destruct (onPage_settles_v X (stable_visit_page p url) HXp
                      "waitForTimeout" (WaitForTimeout CONFIG.SDK_WAIT)
                      (e_waitForTimeout env) eq_refl w Hw) as (H1 & H2 & _).
          rewrite Hwait in H1. split; assumption. }
        apply hoare_bind with (R := fun _ => capturedAfter env (name p)); auto.
        * intros w [[[_ [Hpn _]] Hc] Hp].
          apply takeScreenshot_captures; assumption.
        * intros _. apply keeps_bind.
          { unfold capturedAfter. destruct (outcome (e_screenshot env));
              apply collectPageInfo_keeps_captured. }
          intros _. apply keeps_bind; [|intros _; apply keeps_ret].
          apply keeps_modify. intros w Hw. unfold capturedAfter in *.
          destruct (outcome (e_screenshot env)); exact Hw.
      + intros e. unfold capturedAfter.
        destruct (outcome (e_screenshot env)); apply testCatch_keeps_captured.
    - apply keeps_cleanup; apply HQ'.
    - unfold visitOf, captured; cbn; auto. }
  unfold capturedAfter, captured in Hfin.
  destruct (outcome (e_screenshot env)); exact Hfin.
Qed.

Lemma screenshot_recorded_iff_fulfilled_witness :
  screenshotTaken (testResults (tester (snd (test calmEnv
     (startVisit desktopChrome 0 sampleUrl initialWorld))))) = true /\
  screenshotTaken (testResults (tester (snd (test envNoCapture
     (startVisit desktopChrome 0 sampleUrl initialWorld))))) = false.
Proof.
  assert (Hopen : opensPage envNoCapture desktopChrome).
  { unfold opensPage; cbn. repeat split; auto. discriminate. }
  pose proof (screenshot_recorded_iff_fulfilled calmEnv desktopChrome 0
                sampleUrl initialWorld
                (opensPage_calm (quiet (Resolved (Some {| r_status := 200;
                                                          r_statusText := "OK" |}))))
                ltac:(cbn; lia) eq_refl) as H1.
  pose proof (screenshot_recorded_iff_fulfilled envNoCapture desktopChrome 0
                sampleUrl initialWorld Hopen ltac:(cbn; lia) eq_refl) as H2.
  cbv zeta in H1, H2. cbn [outcome e_screenshot calmEnv envNoCapture quiet] in H1, H2.
  split; [apply H1|apply H2].
Defined.

(** ** Visits that stop at the launch *)

Lemma cleanupStart_nothingOpen (w : World) :
  nothingOpen w ->
  cleanupStart w = w \/ cleanupStart w = withTester setCleanupCalled w.
Proof.
  intros (Hb & Hc & Hp). unfold cleanupStart.
  destruct (cleanupCalled (tester w)); [left; reflexivity|right].
  cbn. rewrite Hp. cbn. rewrite Hc. cbn. rewrite Hb. reflexivity.
Qed.

Lemma stable_idleAt (t : list Action) :
  envStable (idleAt t) /\ respStable (idleAt t).
Proof.
  split; [constructor|unfold respStable]; unfold idleAt, nothingOpen;
    try solve [fields].
  intros w H. destruct (cleanupStart_nothingOpen w (proj1 H)) as [-> | ->];
    [exact H|fields].
Qed.

Lemma idleAt_call (t : list Action) (a : Action) (evs : list Event) (w : World) :
  idleAt t w -> idleAt (t ++ [a]) (deliverAll evs (emit a w)).
Proof.
  intros H. apply deliverAll_keeps; try apply stable_idleAt.
  destruct H as [H1 H2]. split; [exact H1|]. cbn. now rewrite H2.
Qed.

Lemma ensureScreenshotDir_idle (env : Env) (t : list Action) (w : World) :
  (outcome (e_access env) = Resolved tt \/
   (exists e, outcome (e_access env) = Rejected e) /\
   outcome (e_mkdir env) = Resolved tt) ->
  idleAt t w ->
  fst (ensureScreenshotDir env w) = Ok tt /\
  idleAt (t ++ dirCalls env) (snd (ensureScreenshotDir env w)).
Proof.
  intros Hd Hw. unfold ensureScreenshotDir, try_catch, dirCalls.
  destruct Hd as [Ha|[[e Ha] Hm]]; rewrite await_run, Ha; cbn [fst snd].
  - split; [reflexivity|]. apply idleAt_call; assumption.
  - rewrite await_run, Hm. cbn [fst snd]. split; [reflexivity|].
    change (t ++ [FsAccess CONFIG.SCREENSHOT_DIR; FsMkdir CONFIG.SCREENSHOT_DIR])%list
      with (t ++ ([FsAccess CONFIG.SCREENSHOT_DIR] ++ [FsMkdir CONFIG.SCREENSHOT_DIR]))%list.
    rewrite app_assoc. apply idleAt_call, idleAt_call; assumption.
Qed.

Lemma readViewport_ok (p : Profile) (w : World) :
  viewport p <> None -> profile (tester w) = p -> readViewport w = (Ok tt, w).
Proof.
  intros Hv Hp. unfold readViewport, bind, get. rewrite Hp.
  destruct (viewport p); [reflexivity|congruence].
Qed.

(** X9: when the browser cannot be launched, the visit has made exactly the
    directory calls and the launch call and nothing else (no context, no
    page, no navigation, no screenshot, and no close call, since there is
    nothing to close); it ends with status [error] and the message of the
    launch error, and [test()] does not return [true]. *)
Theorem launch_failure_stops_the_visit : forall (env : Env) (p : Profile)
    (i : Z) (url : string) (w0 : World) (e : JsError),
  reachesLaunch env p ->
  outcome (e_launch env) = Rejected e ->
  let res := fst (test env (startVisit p i url w0)) in
  let w' := snd (test env (startVisit p i url w0)) in
  trace w' = (trace w0 ++ dirCalls env ++ [Launch])%list /\
  status (testResults (tester w')) = "error" /\
  error (testResults (tester w')) = Some (e_message e) /\
  nothingOpen w' /\
  (res = Ok false \/ res = Halt).
Proof.
  intros env p i url w0 e [Hv Hd] Hl res w'. subst res w'.
  set (ws := startVisit p i url w0).
  set (t1 := (trace w0 ++ dirCalls env ++ [Launch])%list).
  assert (Hs : idleAt (trace w0) ws) by (repeat split).
  assert (Hbody : fst (testBody env ws) = Throw e
                  /\ idleAt t1 (snd (testBody env ws))).
  { assert (H : hoare (fun w => idleAt (trace w0) w /\ profile (tester w) = p)
                  (testBody env)
                  (fun r w => r = Throw e /\ idleAt t1 w));
      [|exact (H ws (conj Hs eq_refl))].
    unfold testBody, openPage.
    apply hoare_bind_throw.
    apply hoare_bind_ok with (R := idleAt (trace w0)) (a0 := tt).
    { intros w [Hw Hp]. rewrite (readViewport_ok p w Hv Hp). split; auto. }
    apply hoare_bind_ok with (R := idleAt (trace w0 ++ dirCalls env)) (a0 := tt).
    { intros w Hw. apply ensureScreenshotDir_idle; assumption. }
    apply hoare_bind_throw.
    intros w Hw. rewrite await_run, Hl. cbn [fst snd].
    split; [reflexivity|]. subst t1. rewrite app_assoc.
    apply idleAt_call; assumption. }
  unfold test, finally, try_catch.
  destruct (testBody env ws) as [rb w1]. cbn [fst snd] in Hbody.
  destruct Hbody as [-> Hi1].
  rewrite (testCatch_run_nopage env e w1 (proj2 (proj2 (proj1 Hi1)))).
  set (w2 := withTester (withResults (setError (e_message e)))
               (withTester (withResults (setStatus "error")) w1)).
  set (Z := fun w => idleAt t1 w /\
                     (classified "error" w /\ failedWith (e_message e) w)).
  assert (HZ : Z w2) by (split; [exact Hi1|split; reflexivity]).
  assert (HZe : envStable Z).
  { unfold Z. apply envStable_and; [apply stable_idleAt|].
    apply envStable_and; [apply stable_classified_env|apply stable_failedWith]. }
  assert (HZr : respStable Z).
  { unfold Z. apply respStable_and; [apply stable_idleAt|].
    apply respStable_and; [apply stable_classified_resp|apply stable_failedWith]. }
  pose proof (keeps_cleanup Z env HZe HZr w2 HZ) as Hk.
  destruct (cleanup_result env w2) as [Hr _].
  destruct (cleanup env w2) as [[[]|e2|c|] w3]; cbn [fst snd] in *;
    try (destruct Hr; discriminate);
    destruct Hk as ((Hn & Ht) & Hc & Hf); repeat split; auto; apply Hn.
Qed.

Lemma launch_failure_stops_the_visit_witness :
  trace (snd (test envLaunchFails
                (startVisit desktopChrome 0 sampleUrl initialWorld)))
  = [FsAccess "screenshots"; Launch] /\
  error (testResults (tester (snd (test envLaunchFails
           (startVisit desktopChrome 0 sampleUrl initialWorld)))))
  = Some "browserType.launch: Executable doesn't exist".
Proof.
  assert (Hr : reachesLaunch envLaunchFails desktopChrome).
  { split; [discriminate|left; reflexivity]. }
  pose proof (launch_failure_stops_the_visit envLaunchFails desktopChrome 0
                sampleUrl initialWorld launchError Hr eq_refl) as H.
  cbv zeta in H. destruct H as (H1 & _ & H3 & _). split; [exact H1|exact H3].
Defined.

(** ** A signal while the browser is being launched *)

Lemma stable_beforeLaunch (c : nat) :
  envStable (beforeLaunch c) /\ respStable (beforeLaunch c).
Proof.
  split; [constructor|unfold respStable]; unfold beforeLaunch, nothingOpen;
    try solve [fields].
  intros w H.
  destruct (cleanupStart_nothingOpen w (proj1 H)) as [-> | ->];
    [exact H|fields].
Qed.

Lemma beforeLaunch_call (c : nat) (a : Action) (evs : list Event) (w : World) :
  isClose a = false -> beforeLaunch c w ->
  beforeLaunch c (deliverAll evs (emit a w)).
Proof.
  intros Ha (H1 & H2 & H3). apply deliverAll_keeps; try apply stable_beforeLaunch.
  split; [exact H1|]. split; [|exact H3].
  rewrite occurrences_emit, Ha. lia.
Qed.

Lemma stable_cleanedEarly (c : nat) : sessionStable (cleanedEarly c).
Proof.
  constructor; [constructor|unfold respStable|..]; unfold cleanedEarly;
    try solve [fields].
  - intros w H. rewrite cleanupStart_after_guard; [exact H|apply H].
  - intros a w Ha (H1 & H2 & H3). repeat split; auto.
    rewrite occurrences_emit, Ha. lia.
Qed.

Lemma sessionStable_given (C : Prop) (P : World -> Prop) :
  sessionStable P -> sessionStable (fun w => C -> P w).
Proof.
  intros [[p1 p2 p3 p4] p5 p6 p7 p8 p9 p10].
  constructor; [constructor|unfold respStable in *|..]; intros; auto.
Qed.

Lemma stable_browser : sessionStable (fun w => browser (tester w) = true).
Proof. session_stable. Qed.

Lemma gracefulShutdown_cleans (sig : string) (c : nat) (w : World) :
  beforeLaunch c w -> cleanedEarly c (gracefulShutdown sig w).
Proof.
  intros (Hn & Ho & Hc). unfold gracefulShutdown.
  cbn [currentTest setShuttingDown]. rewrite Hc.
  assert (Hn' : nothingOpen (setShuttingDown w)) by exact Hn.
  unfold cleanedEarly.
  destruct (cleanupStart_nothingOpen _ Hn') as [E | E].
  - pose proof (cleanupStart_sets_guard (setShuttingDown w)) as Hg.
    rewrite E in *. repeat split; auto.
  - rewrite E. repeat split; auto.
Qed.

Lemma deliverAll_signal_cleans (sig : string) (c : nat) (evs : list Event) :
  forall w, In (Signal sig) evs -> beforeLaunch c w ->
  cleanedEarly c (deliverAll evs w) /\ nothingOpen (deliverAll evs w).
Proof.
  induction evs as [|ev evs IH]; intros w Hin Hw; [contradiction|].
  cbn [deliverAll fold_left]. fold (deliverAll evs (deliver w ev)).
  assert (Hb : beforeLaunch c (deliver w ev))
    by (apply deliver_keeps; try apply stable_beforeLaunch; exact Hw).
  destruct Hin as [-> | Hin]; [|apply IH; assumption].
  split.
  - apply deliverAll_keeps;
      [apply (ss_env _ (stable_cleanedEarly c))
      |apply (ss_resp _ (stable_cleanedEarly c))|].
    cbn [deliver]. apply gracefulShutdown_cleans; exact Hw.
  - apply (deliverAll_keeps (beforeLaunch c)); try apply stable_beforeLaunch.
    exact Hb.
Qed.

(** X12: a shutdown signal that arrives while the browser launch is pending
    runs cleanup when there is nothing to close yet; the guard then keeps
    the [finally] block from closing anything, so the visit makes no close
    call at all, and a browser whose launch succeeds afterwards is left
    open. *)
Theorem signal_during_launch_leaves_browser_open : forall (env : Env)
    (p : Profile) (i : Z) (url : string) (w0 : World) (sig : string),
  reachesLaunch env p ->
  In (Signal sig) (events (e_launch env)) ->
  let w' := snd (test env (startVisit p i url w0)) in
  occurrences isClose w' = occurrences isClose w0 /\
  cleanupCalled (tester w') = true /\
  isShuttingDown w' = true /\
  (outcome (e_launch env) = Resolved tt -> browser (tester w') = true).
Proof.
  intros env p i url w0 sig [Hv Hd] Hsig w'.
  set (c := occurrences isClose w0).
  set (L := outcome (e_launch env) = Resolved tt).
  set (G := fun w => cleanedEarly c w /\ (L -> browser (tester w) = true)).
  assert (HG : sessionStable G).
  { apply sessionStable_and; [apply stable_cleanedEarly|].
    apply sessionStable_given, stable_browser. }
  assert (H : G w').
  { subst w'. unfold test.
    apply (hoare_finally_keeps
             (fun w => beforeLaunch c w /\ profile (tester w) = p) G).
    - apply hoare_try_catch with (R := fun _ => G); auto.
      + unfold testBody.
        apply hoare_bind with (R := fun _ => G); auto;
          [|intros _; apply keeps_visitPage; exact HG].
        unfold openPage.
        apply hoare_bind_ok with (R := beforeLaunch c) (a0 := tt).
        { intros w [Hw Hp]. rewrite (readViewport_ok p w Hv Hp). split; auto. }
        apply hoare_bind_ok with (R := beforeLaunch c) (a0 := tt).
        { intros w Hw. unfold ensureScreenshotDir, try_catch.
          destruct Hd as [Ha|[[e Ha] Hm]]; rewrite await_run, Ha; cbn [fst snd].
          - split; [reflexivity|]. apply beforeLaunch_call; auto.
          - rewrite await_run, Hm. cbn [fst snd]. split; [reflexivity|].
            apply beforeLaunch_call; auto. apply beforeLaunch_call; auto. }
        apply hoare_bind
          with (R := fun r w => (cleanedEarly c w /\ nothingOpen w)
                                /\ (L -> r = Ok tt)).
        * intros w Hw. rewrite await_run. cbn [fst snd]. split.
          { apply (deliverAll_signal_cleans sig); [exact Hsig|].
            destruct Hw as (H1 & H2 & H3). split; [exact H1|]. split; [|exact H3].
            rewrite occurrences_emit. cbn. lia. }
          { intros HL. unfold L in HL. rewrite HL. reflexivity. }
        * intros []. apply hoare_bind with (R := fun _ => G); auto.
          { intros w [[Hc _] _]. cbn [fst snd modify]. split.
            - apply (ss_browser _ (stable_cleanedEarly c)); exact Hc.
            - intros _. reflexivity. }
          intros _. apply keeps_bind; [apply keeps_get|]. intros v.
          apply keeps_bind; [apply keeps_call; auto|]. intros _.
          apply keeps_bind; [apply keeps_modify, (ss_context _ HG)|]. intros _.
          apply keeps_bind; [apply keeps_call; auto|]. intros _.
          apply keeps_modify, (ss_page _ HG).
        * intros e w [[Hc _] HL]. split; [exact Hc|].
          intros Hl. specialize (HL Hl). discriminate.
        * intros x w [[Hc _] HL]. split; [exact Hc|].
          intros Hl. specialize (HL Hl). discriminate.
        * intros w [[Hc _] HL]. split; [exact Hc|].
          intros Hl. specialize (HL Hl). discriminate.
      + intros e. apply keeps_testCatch; exact HG.
    - apply keeps_cleanup; [apply (ss_env _ HG)|apply (ss_resp _ HG)].
    - split; [|reflexivity]. repeat split. }
  destruct H as ((H1 & H2 & H3) & H4). repeat split; assumption.
Qed.

Lemma signal_during_launch_leaves_browser_open_witness :
  let w' := snd (test envSignalAtLaunch
                   (startVisit desktopChrome 0 sampleUrl initialWorld)) in
  occurrences isClose w' = 0%nat /\
  browser (tester w') = true /\
  performed Launch w'.
Proof.
  assert (Hr : reachesLaunch envSignalAtLaunch desktopChrome).
  { split; [discriminate|left; reflexivity]. }
  pose proof (signal_during_launch_leaves_browser_open envSignalAtLaunch
                desktopChrome 0 sampleUrl initialWorld "SIGINT" Hr
                (or_introl eq_refl)) as H.
  cbv zeta in H. destruct H as (H1 & _ & _ & H4).
  split; [exact H1|]. split; [exact (H4 eq_refl)|].
  vm_compute. auto 20.
Defined.

(** ** The order of the calls of a visit *)

Lemma callsSince_emit (n0 : nat) (a : Action) (w : World) :
  (n0 <= List.length (trace w))%nat ->
  callsSince n0 (emit a w)
  = (callsSince n0 w ++ if isClose a then [] else [stage a])%list.
Proof.
  intros Hn. unfold callsSince. cbn [trace emit].
  rewrite skipn_app. replace (n0 - List.length (trace w))%nat with 0%nat by lia.
  cbn [skipn]. rewrite filter_app, map_app. cbn [filter].
  destruct (isClose a); reflexivity.
Qed.

Lemma sorted_snoc (l : list nat) (x : nat) :
  StronglySorted lt l -> Forall (fun s => s < x)%nat l ->
  StronglySorted lt (l ++ [x]).
Proof.
  induction 1 as [|y l Hs IH Hy]; intros Hx; cbn.
  - repeat constructor.
  - inversion Hx; subst. constructor; [auto|].
    apply Forall_app; split; [assumption|repeat constructor; assumption].
Qed.

Lemma inOrder_mono (t0 : list Action) (b b' : nat) (w : World) :
  (b <= b')%nat -> inOrder t0 b w -> inOrder t0 b' w.
Proof.
  intros Hb (H1 & H2 & H3 & H4). repeat split; auto.
  eapply Forall_impl; [|exact H4]. cbv beta. intros; lia.
Qed.

Lemma inOrder_emit (t0 : list Action) (b : nat) (a : Action) (w : World) :
  (isClose a = true \/ (b <= stage a)%nat) ->
  inOrder t0 b w -> inOrder t0 (if isClose a then b else S (stage a)) (emit a w).
Proof.
  intros Ha (H1 & H2 & H3 & H4). unfold inOrder.
  rewrite callsSince_emit by assumption. cbn [trace emit].
  rewrite firstn_app, length_app.
  replace (List.length t0 - List.length (trace w))%nat with 0%nat by lia.
  cbn [firstn]. rewrite app_nil_r.
  split; [exact H1|]. split; [lia|].
  destruct (isClose a) eqn:E.
  - rewrite app_nil_r. split; assumption.
  - destruct Ha as [Ha|Ha]; [discriminate|]. split.
    + apply sorted_snoc; [assumption|].
      eapply Forall_impl; [|exact H4]. cbv beta. intros; lia.
    + apply Forall_app. split.
      * eapply Forall_impl; [|exact H4]. cbv beta. intros; lia.
      * repeat constructor.
Qed.

Lemma stable_inOrder (t0 : list Action) (b : nat) :
  envStable (inOrder t0 b) /\ respStable (inOrder t0 b).
Proof.
  split; [constructor; [apply cleanupStart_pieces|..]|unfold respStable];
    try solve [intros; assumption].
  intros a w Ha H. pose proof (inOrder_emit t0 b a w (or_introl Ha) H) as H'.
  now rewrite Ha in H'.
Qed.

Lemma inOrder_call (t0 : list Action) (b : nat) (a : Action)
    (evs : list Event) (w : World) :
  isClose a = false -> (b <= stage a)%nat -> inOrder t0 b w ->
  inOrder t0 (S (stage a)) (deliverAll evs (emit a w)).
Proof.
  intros Ha Hb H. apply deliverAll_keeps; try apply stable_inOrder.
  pose proof (inOrder_emit t0 b a w (or_intror Hb) H) as H'.
  now rewrite Ha in H'.
Qed.

Lemma inOrder_results (t0 : list Action) (b : nat) (f : DeviceTester -> DeviceTester)
    (w : World) :
  inOrder t0 b w -> inOrder t0 b (withTester f w).
Proof. intros H; exact H. Qed.

(** The post-condition of the [try] block: a throw can only come from the
    calls up to the settle wait. *)
Lemma ordered_step {A} (t0 : list Action) (b b' : nat) (m : M A)
    (k : A -> M bool) :
  (b' <= 8)%nat ->
  hoare (inOrder t0 b) m (fun _ => inOrder t0 b') ->
  (forall a, hoare (inOrder t0 b') (k a) (orderedBody t0)) ->
  hoare (inOrder t0 b) (bind m k) (orderedBody t0).
Proof.
  intros Hb Hm Hk. apply hoare_bind with (R := fun _ => inOrder t0 b'); auto;
    intros; cbn; apply (inOrder_mono t0 b'); solve [lia|assumption].
Qed.

Lemma ordered_seq {A B} (t0 : list Action) (b b' b'' : nat) (m : M A)
    (k : A -> M B) :
  (b' <= b'')%nat ->
  hoare (inOrder t0 b) m (fun _ => inOrder t0 b') ->
  (forall a, hoare (inOrder t0 b') (k a) (fun _ => inOrder t0 b'')) ->
  hoare (inOrder t0 b) (bind m k) (fun _ => inOrder t0 b'').
Proof.
  intros Hb Hm Hk. apply hoare_bind with (R := fun _ => inOrder t0 b'); auto;
    intros; apply (inOrder_mono t0 b'); solve [lia|assumption].
Qed.

Lemma ordered_await {A} (t0 : list Action) (b : nat) (a : Action) (s : Susp A) :
  isClose a = false -> (b <= stage a)%nat ->
  hoare (inOrder t0 b) (await a s) (fun _ => inOrder t0 (S (stage a))).
Proof.
  intros Ha Hb w Hw. rewrite await_run. cbn [snd].
  apply (inOrder_call t0 b a (events s) w Ha Hb Hw).
Qed.

Lemma ordered_onPage {A} (t0 : list Action) (b : nat) (method : string)
    (a : Action) (s : Susp A) :
  isClose a = false -> (b <= stage a)%nat ->
  hoare (inOrder t0 b) (onPage method a s) (fun _ => inOrder t0 (S (stage a))).
Proof.
  intros Ha Hb w Hw. unfold onPage, bind, get.
  destruct (page (tester w)).
  - apply (ordered_await t0 b a s Ha Hb w Hw).
  - cbn. eapply inOrder_mono; [|exact Hw]. lia.
Qed.

Lemma ordered_modify (t0 : list Action) (b : nat)
    (f : DeviceTester -> DeviceTester) :
  hoare (inOrder t0 b) (modify (withTester f)) (fun _ => inOrder t0 b).
Proof. intros w Hw; exact Hw. Qed.

Lemma ordered_openPage (t0 : list Action) (env : Env) :
  hoare (inOrder t0 1) (openPage env) (fun _ => inOrder t0 6).
Proof.
  unfold openPage.
  apply ordered_seq with (b' := 1%nat); [lia| |intros _].
  { intros w Hw. unfold readViewport, bind, get.
    destruct (viewport (profile (tester w))); exact Hw. }
  apply ordered_seq with (b' := 3%nat); [lia| |intros _].
  { unfold ensureScreenshotDir.
    apply hoare_try_catch with (R := fun _ => inOrder t0 2).
    - apply (ordered_await t0 1 (FsAccess CONFIG.SCREENSHOT_DIR)); auto.
    - intros e. apply (ordered_await t0 2 (FsMkdir CONFIG.SCREENSHOT_DIR)); auto.
    - intros; apply (inOrder_mono t0 2); solve [lia|assumption].
    - intros; apply (inOrder_mono t0 2); solve [lia|assumption].
    - intros; apply (inOrder_mono t0 2); solve [lia|assumption]. }
  apply ordered_seq with (b' := 4%nat); [lia| |intros _].
  { apply (ordered_await t0 3 Launch); auto. }
  apply ordered_seq with (b' := 4%nat); [lia|apply ordered_modify|intros _].
  apply hoare_get_bind. intros v Hv.
  apply hoare_pre with (P' := inOrder t0 4); [|intros w ->; exact Hv].
  apply ordered_seq with (b' := 5%nat); [lia| |intros _].
  { apply (ordered_await t0 4 (NewContext _)); auto. }
  apply ordered_seq with (b' := 5%nat); [lia|apply ordered_modify|intros _].
  apply ordered_seq with (b' := 6%nat); [lia| |intros _].
  { apply (ordered_await t0 5 NewPage); auto. }
  apply ordered_modify.
Qed.

Lemma ordered_loadPage (t0 : list Action) (env : Env) :
  hoare (inOrder t0 6) (loadPage env) (fun _ => inOrder t0 7).
Proof.
  unfold loadPage.
  apply hoare_try_catch with (R := fun _ => inOrder t0 7); auto.
  - apply hoare_get_bind. intros v Hv.
    apply hoare_pre with (P' := inOrder t0 6); [|intros w ->; exact Hv].
    apply ordered_seq with (b' := 7%nat); [lia| |].
    { apply (ordered_onPage t0 6 "goto" (Goto _ _)); auto. }
    intros [r|]; [|intros w Hw; exact Hw].
    apply ordered_seq with (b' := 7%nat); [lia|apply ordered_modify|intros _].
    intros w Hw. destruct (r_status r >=? 400); exact Hw.
  - intros e w Hw. destruct (String.eqb (e_name e) "TimeoutError"); exact Hw.
Qed.

Lemma ordered_takeScreenshot (t0 : list Action) (env : Env) :
  hoare (inOrder t0 8) (takeScreenshot env)
        (fun r w => match r with Throw _ => False | _ => inOrder t0 9 w end).
Proof.
  intros w Hw.
  destruct (takeScreenshot_frame env w) as [Hr _].
  assert (H : inOrder t0 9 (snd (takeScreenshot env w))).
  { unfold takeScreenshot, try_catch, bind at 1, get. unfold bind.
    unfold onPage, bind, get.
    destruct (page (tester w));
      [|cbn; apply (inOrder_mono t0 8); [lia|exact Hw]].
    rewrite await_run.
    pose proof (inOrder_call t0 8
                  (Screenshot (screenshotPathFor (e_now env)
                                 (profileName (tester w))) true)
                  (events (e_screenshot env)) w eq_refl (le_n _) Hw) as Hc.
    destruct (outcome (e_screenshot env)) as [[]|e|]; exact Hc. }
  destruct Hr as [-> | ->]; exact H.
Qed.

Lemma ordered_collectPageInfo (t0 : list Action) (env : Env) :
  hoare (inOrder t0 9) (collectPageInfo env)
        (fun r w => match r with Throw _ => False | _ => inOrder t0 10 w end).
Proof.
  intros w Hw.
  destruct (collectPageInfo_frame env w) as [Hr _].
  assert (H : inOrder t0 10 (snd (collectPageInfo env w))).
  { unfold collectPageInfo, try_catch, bind. unfold onPage, bind, get.
    destruct (page (tester w));
      [|cbn; apply (inOrder_mono t0 9); [lia|exact Hw]].
    rewrite await_run.
    pose proof (inOrder_call t0 9 Title (events (e_title env)) w eq_refl
                  (le_n _) Hw) as Hc.
    destruct (outcome (e_title env)) as [t|e|]; exact Hc. }
  destruct Hr as [-> | ->]; exact H.
Qed.

Lemma ordered_testBody (t0 : list Action) (env : Env) :
  hoare (inOrder t0 1) (testBody env) (orderedBody t0).
Proof.
  unfold testBody, visitPage.
  apply ordered_step with (b' := 6%nat); [lia|apply ordered_openPage|intros _].
  apply ordered_step with (b' := 6%nat); [lia| |intros _].
  { intros w Hw. unfold setupEventHandlers, bind, get.
    destruct (page (tester w)); exact Hw. }
  apply ordered_step with (b' := 7%nat); [lia|apply ordered_loadPage|intros _].
  apply ordered_step with (b' := 8%nat); [lia| |intros _].
  { apply (ordered_onPage t0 7 "waitForTimeout" (WaitForTimeout _)); auto. }
  eapply hoare_bind; [apply ordered_takeScreenshot| | | |];
    cbn; try tauto;
    try (intros; apply (inOrder_mono t0 9); solve [lia|assumption]).
  intros _.
  eapply hoare_bind; [apply ordered_collectPageInfo| | | |];
    cbn; try tauto;
    try (intros; apply (inOrder_mono t0 10); solve [lia|assumption]).
  intros _ w Hw. exact Hw.
Qed.

Lemma ordered_testCatch (t0 : list Action) (env : Env) (e : JsError) :
  hoare (inOrder t0 8) (testCatch env e) (fun _ => inOrder t0 10).
Proof.
  intros w Hw. cbv beta. destruct (page (tester w)) as [pg|] eqn:Hp.
  - rewrite (testCatch_run env e w pg Hp). cbn [snd].
    apply (inOrder_mono t0 9); [lia|].
    apply (inOrder_call t0 8 (Screenshot _ false)); auto.
  - rewrite (testCatch_run_nopage env e w Hp). cbn [snd].
    apply (inOrder_mono t0 8); [lia|exact Hw].
Qed.

(** X11: the calls of a visit, the close calls of cleanup aside, always
    occur in the order file-system check, directory creation, launch,
    context, page, navigation, settle wait, screenshot, title read, each
    at most once; in particular a visit navigates once (no retry) and makes
    at most one screenshot call, regular or error.  The part of the trace
    that was there before the visit is left as it was. *)
Theorem calls_of_a_visit_are_ordered : forall (env : Env) (p : Profile)
    (i : Z) (url : string) (w0 : World),
  let w' := snd (test env (startVisit p i url w0)) in
  firstn (List.length (trace w0)) (trace w') = trace w0 /\
  StronglySorted lt (callsSince (List.length (trace w0)) w') /\
  Forall (fun s => 1 <= s <= 9)%nat (callsSince (List.length (trace w0)) w').
Proof.
  intros env p i url w0 w'.
  assert (H : inOrder (trace w0) 10 w').
  { subst w'. unfold test.
    apply (hoare_finally_keeps (inOrder (trace w0) 1) (inOrder (trace w0) 10)).
    - apply hoare_try_catch with (R := orderedBody (trace w0)); auto.
      + apply ordered_testBody.
      + intros e. apply ordered_testCatch.
    - apply keeps_cleanup; apply stable_inOrder.
    - unfold inOrder, callsSince. cbn [trace startVisit setCurrentTest].
      rewrite firstn_all, skipn_all. repeat split; auto; constructor. }
  destruct H as (H1 & _ & H3 & H4). split; [exact H1|]. split; [exact H3|].
  unfold callsSince in *. apply Forall_forall. intros s Hs.
  pose proof (proj1 (Forall_forall _ _) H4 s Hs) as Hlt. cbv beta in Hlt.
  apply in_map_iff in Hs as (a & <- & Ha). apply filter_In in Ha as [_ Ha].
  destruct a; cbn in *; try discriminate; lia.
Qed.

(** ** The profile of each visit *)

Lemma contextsOf_app (t1 t2 : list Action) :
  contextsOf (t1 ++ t2) = (contextsOf t1 ++ contextsOf t2)%list.
Proof. unfold contextsOf. apply flat_map_app. Qed.

Lemma contextsOf_none (s : list Action) :
  (forall o, ~ In (NewContext o) s) -> contextsOf s = [].
Proof.
  induction s as [|a s IH]; intros H; [reflexivity|].
  assert (Hs : contextsOf s = []).
  { apply IH. intros o Ho. apply (H o). right; exact Ho. }
  destruct a; cbn; try exact Hs.
  exfalso. apply (H o). left; reflexivity.
Qed.

Lemma no_context_later (s : list Action) :
  Forall (lt 4%nat) (map stage (filter (fun a => negb (isClose a)) s)) ->
  forall o, ~ In (NewContext o) s.
Proof.
  intros H o Hin. rewrite Forall_forall in H.
  assert (H4 : (4 < 4)%nat); [|lia].
  apply H. apply in_map_iff. exists (NewContext o). split; [reflexivity|].
  apply filter_In. split; [exact Hin|reflexivity].
Qed.

(** Among calls in strictly increasing position there is one [newContext]
    call at most. *)
Lemma one_context (s : list Action) (c : ContextOptions) :
  StronglySorted lt (map stage (filter (fun a => negb (isClose a)) s)) ->
  In (NewContext c) s -> contextsOf s = [c].
Proof.
  induction s as [|a s IH]; intros Hs Hin; [contradiction|].
  cbn [filter] in Hs.
  destruct (isClose a) eqn:Ea; cbn [negb map] in Hs.
  - destruct Hin as [-> | Hin]; [discriminate|].
    destruct a; try discriminate; cbn; apply IH; assumption.
  - inversion Hs as [|x l Hs' Hall]; subst.
    destruct a; try discriminate;
      try (destruct Hin as [Heq | Hin]; [discriminate|];
           cbn; apply IH; assumption).
    cbn [stage] in Hall. pose proof (no_context_later s Hall) as Hno.
    change (contextsOf (NewContext o :: s)) with (o :: contextsOf s).
    rewrite (contextsOf_none s Hno).
    destruct Hin as [Heq | Hin]; [congruence|].
    exfalso. exact (Hno c Hin).
Qed.

Lemma calledSince_emit (n0 : nat) (a b : Action) (w : World) :
  calledSince n0 a w -> calledSince n0 a (emit b w).
Proof.
  unfold calledSince. cbn [trace emit]. rewrite skipn_app.
  intros H. apply in_or_app. left; exact H.
Qed.

Lemma stable_calledSince (n0 : nat) (a : Action) :
  sessionStable (calledSince n0 a).
Proof.
  constructor; [constructor|unfold respStable|..]; try solve [fields].
  - apply cleanupStart_pieces; [|fields].
    intros b w _. apply calledSince_emit.
  - intros b w _. apply calledSince_emit.
Qed.

(** The tester keeps its profile, and the trace never gets shorter. *)
Lemma stable_grown (p : Profile) (n0 : nat) :
  sessionStable (fun w => profile (tester w) = p /\
                          (n0 <= List.length (trace w))%nat).
Proof.
  assert (He : forall b w,
             profile (tester w) = p /\ (n0 <= List.length (trace w))%nat ->
             profile (tester (emit b w)) = p /\
             (n0 <= List.length (trace (emit b w)))%nat).
  { intros b w [H1 H2]. split; [exact H1|].
    cbn [trace emit]. rewrite length_app. lia. }
  constructor; [constructor|unfold respStable|..]; try solve [fields].
  all: try apply cleanupStart_pieces; try solve [fields];
    intros b w _; apply He.
Qed.

(** A visit that gets as far as the launch succeeding calls [newContext]
    with the options of its own profile. *)
Lemma test_calls_newContext (env : Env) (p : Profile) (i : Z) (url : string)
    (w0 : World) :
  reachesLaunch env p ->
  outcome (e_launch env) = Resolved tt ->
  calledSince (List.length (trace w0)) (NewContext (contextOptions p))
              (snd (test env (startVisit p i url w0))).
Proof.
  intros [Hv Hd] Hl.
  set (n0 := List.length (trace w0)).
  set (G := calledSince n0 (NewContext (contextOptions p))).
  set (R := fun w => profile (tester w) = p /\ (n0 <= List.length (trace w))%nat).
  pose proof (stable_calledSince n0 (NewContext (contextOptions p))) as HG.
  pose proof (stable_grown p n0) as HR.
  fold G in HG. fold R in HR.
  unfold test.
  apply (hoare_finally_keeps R G).
  - apply hoare_try_catch with (R := fun _ => G); auto.
    + unfold testBody.
      apply hoare_bind with (R := fun _ => G); auto;
        [|intros _; apply keeps_visitPage; exact HG].
      unfold openPage.
      apply hoare_bind_ok with (R := R) (a0 := tt).
      { intros w Hw. rewrite (readViewport_ok p w Hv (proj1 Hw)). split; auto. }
      apply hoare_bind_ok with (R := R) (a0 := tt).
      { apply ensureScreenshotDir_ok; assumption. }
      apply hoare_bind_ok with (R := R) (a0 := tt).
      { eapply hoare_conseq;
          [apply (call_resolved R HR Launch _ tt eq_refl Hl)|auto|].
        cbv beta; tauto. }
      apply hoare_bind_ok with (R := R) (a0 := tt).
      { intros w Hw. split; [reflexivity|]. apply (ss_browser _ HR); assumption. }
      apply hoare_get_bind. intros v Hv0.
      apply hoare_pre with (P' := R); [|intros w ->; exact Hv0].
      apply hoare_bind with (R := fun _ => G); auto.
      * intros w Hw. rewrite await_run. cbn [snd].
        apply deliverAll_keeps; [apply (ss_env _ HG)|apply (ss_resp _ HG)|].
        destruct Hv0 as [Hp _]. destruct Hw as [_ Hn]. rewrite Hp.
        unfold G, calledSince. cbn [trace emit]. rewrite skipn_app.
        apply in_or_app. right.
        replace (n0 - List.length (trace w))%nat with 0%nat by lia.
        left; reflexivity.
      * intros _.
        apply keeps_bind; [apply keeps_modify, (ss_context _ HG)|]. intros _.
        apply keeps_bind; [apply (keeps_call _ HG); auto|]. intros _.
        apply keeps_modify, (ss_page _ HG).
    + intros e. apply keeps_testCatch; exact HG.
  - apply keeps_cleanup; [apply (ss_env _ HG)|apply (ss_resp _ HG)].
  - split; [reflexivity|]. cbn [trace startVisit setCurrentTest]. apply le_n.
Qed.

(** The calls of a visit are in order, after the trace it started from. *)
Lemma test_inOrder (env : Env) (p : Profile) (i : Z) (url : string)
    (w0 : World) :
  inOrder (trace w0) 10 (snd (test env (startVisit p i url w0))).
Proof.
  unfold test.
  apply (hoare_finally_keeps (inOrder (trace w0) 1) (inOrder (trace w0) 10)).
  - apply hoare_try_catch with (R := orderedBody (trace w0)); auto.
    + apply ordered_testBody.
    + intros e. apply ordered_testCatch.
  - apply keeps_cleanup; apply stable_inOrder.
  - unfold inOrder, callsSince. cbn [trace startVisit setCurrentTest].
    rewrite firstn_all, skipn_all. repeat split; auto; constructor.
Qed.

(** Such a visit adds exactly one [newContext] call to the trace, and that
    call carries the options of the visit's profile. *)
Lemma test_adds_one_context (env : Env) (p : Profile) (i : Z) (url : string)
    (w0 : World) :
  reachesLaunch env p ->
  outcome (e_launch env) = Resolved tt ->
  contexts (snd (test env (startVisit p i url w0)))
  = (contexts w0 ++ [contextOptions p])%list.
Proof.
  intros Hr Hl.
  pose proof (test_calls_newContext env p i url w0 Hr Hl) as Hc.
  destruct (test_inOrder env p i url w0) as (H1 & _ & H3 & _).
  set (w' := snd (test env (startVisit p i url w0))) in *.
  unfold contexts. rewrite <- (firstn_skipn (List.length (trace w0)) (trace w')).
  rewrite contextsOf_app, H1. f_equal.
  apply one_context; assumption.
Qed.

(** ** The rotation visits the profiles in turn *)

Lemma stable_testerOf (p : Profile) (i : Z) (l : list Banner) :
  sessionStable (testerOf p i l).
Proof.
  constructor; [constructor|unfold respStable|..]; unfold testerOf;
    try solve [fields].
  apply cleanupStart_pieces; fields.
Qed.

Lemma contexts_emit_close (a : Action) (w : World) :
  isClose a = true -> contexts (emit a w) = contexts w.
Proof.
  intros Ha. unfold contexts. cbn [trace emit]. rewrite contextsOf_app.
  destruct a; try discriminate; cbn; apply app_nil_r.
Qed.

Lemma stable_contexts (l : list ContextOptions) :
  envStable (fun w => contexts w = l) /\ respStable (fun w => contexts w = l).
Proof.
  split; [constructor|unfold respStable]; try solve [intros; assumption].
  apply cleanupStart_pieces; [|intros; assumption].
  intros a w Ha H. now rewrite contexts_emit_close.
Qed.

Lemma sleep_keeps (P : World -> Prop) (ms : Z) (signal : option (Z * string))
    (w : World) :
  envStable P -> (forall v, P v -> P (leakInterval v)) ->
  P w -> P (snd (sleep ms signal w)).
Proof.
  intros HP Hleak Hw. unfold sleep. cbn [snd].
  assert (H : P match signal with
                | Some (s, sig) => if s <? ms then gracefulShutdown sig w else w
                | None => w
                end).
  { destruct signal as [[s sig]|]; [|exact Hw].
    destruct (s <? ms); [apply gracefulShutdown_keeps|]; assumption. }
  destruct (intervalCleared _); [|apply Hleak]; exact H.
Qed.

Lemma visitedInTurn_next (renv : RunEnv) (k : nat) (p : Profile)
    (w w' : World) :
  selectProfile (DEVICE_PROFILES (r_devices renv)) (Z.of_nat k) = Some p ->
  visitedInTurn renv k w ->
  testerOf p (Z.of_nat k)
    (console w ++ [{| b_iteration := Z.of_nat k; b_profile := p |}]) w' ->
  (reachesContext renv ->
   contexts w' = (contexts w ++ [contextOptions p])%list) ->
  visitedInTurn renv (S k) w'.
Proof.
  intros Hp (Hb & _ & Hc) (Ht1 & Ht2 & Ht3) Hc'. unfold visitedInTurn.
  split; [|split].
  - rewrite Ht3, map_app, Hb, seq_S, map_app. cbn [map Nat.add].
    unfold bannerOf at 3. rewrite Hp. reflexivity.
  - unfold testerOfLastBanner. rewrite Ht3, rev_app_distr. cbn.
    split; assumption.
  - intros Hr. rewrite (Hc' Hr), map_app, (Hc Hr), seq_S, map_app.
    cbn [map Nat.add]. unfold contextOf at 3. rewrite Hp. reflexivity.
Qed.

(** Every round of the loop visits with the profile it selected. *)
Lemma rotation_visits (fuel : nat) (renv : RunEnv) (url : string) :
  forall (k : nat) (sc ec : Z) (w : World),
  visitedInTurn renv k w ->
  exists n,
    visitedInTurn renv n (snd (rotation fuel renv url (Z.of_nat k) sc ec w)).
Proof.
  induction fuel as [|fuel IH]; intros k sc ec w Hw.
  - exists k. cbn [rotation]. unfold bind, get.
    destruct (negb (isShuttingDown w) && _); exact Hw.
  - rewrite rotation_round.
    destruct (negb (isShuttingDown w) && _); [|exists k; exact Hw].
    destruct (selectProfile _ (Z.of_nat k)) as [p|] eqn:Hp; [|exists k; exact Hw].
    cbv zeta.
    set (b := {| b_iteration := Z.of_nat k; b_profile := p |}).
    set (env := i_visit (r_iter renv (Z.of_nat k))).
    set (w1 := startVisit p (Z.of_nat k) url (print b w)).
    set (l := (console w ++ [b])%list).
    set (cs := (contexts w ++ [contextOptions p])%list).
    set (J := fun v => testerOf p (Z.of_nat k) l v /\
                       (reachesContext renv -> contexts v = cs)).
    assert (HJ2 : J (snd (test env w1))).
    { split.
      - apply (keeps_test _ (stable_testerOf p (Z.of_nat k) l) env w1).
        repeat split.
      - intros Hr. destruct (Hr (Z.of_nat k) p Hp) as [H1 H2].
        apply (test_adds_one_context env p (Z.of_nat k) url (print b w) H1 H2). }
    assert (Hnext : forall v, J v -> visitedInTurn renv (S k) v).
    { intros v [H1 H2]. apply (visitedInTurn_next renv k p w v Hp Hw H1 H2). }
    destruct (test env w1) as [[success|e|c|] w2]; cbn [snd] in HJ2;
      try (exists (S k); cbn [snd]; apply Hnext; exact HJ2).
    replace (Z.of_nat k + 1) with (Z.of_nat (S k)) by lia.
    apply IH. apply Hnext.
    assert (HJ3 : J (setCurrentTest None w2)) by exact HJ2.
    destruct (negb (isShuttingDown (setCurrentTest None w2)) && _);
      [|exact HJ3].
    assert (HJe : envStable J).
    { unfold J. apply envStable_and;
        [apply (ss_env _ (stable_testerOf p (Z.of_nat k) l))|].
      constructor; intros v Hv Hr; specialize (Hv Hr);
        revert v Hv; apply (proj1 (stable_contexts cs)). }
    apply sleep_keeps; [exact HJe|intros v Hv; exact Hv|exact HJ3].
Qed.

Lemma main_world (argv2 : option string) (renv : RunEnv) :
  snd (main argv2 renv) = snd (runTests argv2 renv initialWorld).
Proof.
  unfold main.
  destruct (runTests argv2 renv initialWorld) as [[s|e|c|] w]; reflexivity.
Qed.

(** What holds before the loop: nothing printed, no context created. *)
Lemma before_rotation (renv : RunEnv) (w : World) :
  console w = [] /\ contexts w = [] -> visitedInTurn renv 0 w.
Proof.
  intros [Hc Hx]. unfold visitedInTurn, testerOfLastBanner.
  rewrite Hc, Hx. repeat split.
Qed.

Lemma runTests_visits (argv2 : option string) (renv : RunEnv) :
  exists n, visitedInTurn renv n (snd (runTests argv2 renv initialWorld)).
Proof.
  unfold runTests. unfold bind at 1. rewrite validateArguments_run.
  assert (H0 : visitedInTurn renv 0 initialWorld)
    by (apply before_rotation; split; reflexivity).
  destruct argv2 as [url|]; [|exists 0%nat; exact H0].
  destruct (wellFormedUrl (Some url)); [|exists 0%nat; exact H0].
  unfold bind at 1.
  set (Q := fun v => console v = [] /\ contexts v = []).
  assert (Hm : keeps Q (try_catch (await (FsMkdir CONFIG.SCREENSHOT_DIR)
                                         (r_mkdir renv))
                                  (fun _ => ret tt))).
  { apply keeps_try_catch; [|intros _; apply keeps_ret].
    apply keeps_await.
    - apply envStable_and;
        [apply (ss_env _ (stable_console []))|apply stable_contexts].
    - apply respStable_and;
        [apply (ss_resp _ (stable_console []))|apply stable_contexts].
    - intros v [H1 H2]. split; [exact H1|].
      unfold contexts in *. cbn [trace emit]. rewrite contextsOf_app, H2.
      reflexivity. }
  specialize (Hm initialWorld (conj eq_refl eq_refl)). cbv beta in Hm.
  destruct (try_catch _ _ initialWorld) as [[[]|e|c|] w1]; cbn [snd] in Hm;
    try (exists 0%nat; cbn [snd]; apply before_rotation; exact Hm).
  destruct (rotation_visits (Z.to_nat CONFIG.MAX_ITERATIONS) renv url
              0%nat 0 0 w1 (before_rotation renv w1 Hm)) as [n Hn].
  exists n. exact Hn.
Qed.

(** With a valid argument the loop is left only when the shutdown flag is
    set or the cap is reached, unless a visit stays suspended for good. *)
Lemma runTests_stops (argv2 : option string) (renv : RunEnv) :
  wellFormedUrl argv2 = true ->
  let out := runTests argv2 renv initialWorld in
  isShuttingDown (snd out) = true \/
  List.length (console (snd out)) = 1000%nat \/
  fst out = Halt.
Proof.
  intros Hv out.
  pose proof (runTests_outcome argv2 renv initialWorld Hv) as Hr.
  pose proof (runTests_has_fuel argv2 renv initialWorld) as Hfuel.
  fold out in Hr, Hfuel.
  assert (Hs : match out with
               | (Ok (Some s), w') =>
                   Z.of_nat (List.length (console w')) = s_iteration s /\
                   (isShuttingDown w' = true \/ s_iteration s = 1000)
               | _ => True
               end).
  { subst out. clear Hr Hfuel. unfold runTests. unfold bind at 1.
    rewrite validateArguments_run, Hv.
    destruct argv2 as [url|]; [|discriminate].
    unfold bind at 1.
    pose proof (keeps_try_catch (fun v => console v = [])
                  (await (FsMkdir CONFIG.SCREENSHOT_DIR) (r_mkdir renv))
                  (fun _ => ret tt)
                  (keeps_call _ (stable_console [])
                     (FsMkdir CONFIG.SCREENSHOT_DIR) (r_mkdir renv) eq_refl)
                  (fun _ => keeps_ret _ tt) initialWorld eq_refl) as Hm.
    cbv beta in Hm.
    destruct (try_catch _ _ initialWorld) as [[[]|e|c|] w1]; try exact I.
    cbn [snd] in Hm.
    pose proof (rotation_counters (Z.to_nat CONFIG.MAX_ITERATIONS) renv url
                  0 0 0 w1) as H.
    cbv zeta in H.
    destruct (rotation _ renv url 0 0 0 w1) as [[[s|]|e|c|] w2]; try exact I.
    cbn [fst snd] in H. unfold CONFIG.MAX_ITERATIONS in H.
    assert (Hc : Z.of_nat (List.length (console w1)) = 0) by now rewrite Hm.
    specialize (H ltac:(lia) ltac:(lia) ltac:(lia) ltac:(lia) Hc).
    destruct H as (_ & _ & _ & _ & H5 & H6). split; assumption. }
  destruct out as [[[s|]|e|c|] w']; cbn [fst snd] in *;
    try contradiction; auto.
  destruct Hs as [H1 [H2|H2]]; [left; exact H2|right; left; lia].
Qed.

(** C5: iteration [i] of the loop tests the profile at index [i mod length]
    of the catalog, and the visit of that iteration is made with that very
    profile.  Selection: the profile selected for [i] is the one at index
    [i mod length], and the profiles selected in any [length] consecutive
    iterations are the catalog rearranged, so each is selected exactly once.
    The loop: the banners of any run are those of iterations 0, 1, 2, ...
    in order, each with the selected profile; the tester object built last
    carries the profile and the number of the last banner; in a run whose
    visits all get as far as creating their context, the [newContext]
    calls of the run are, in order, those of iterations 0, 1, 2, ..., one
    per iteration, each with the options of the profile selected for it;
    and with a valid argument the loop goes on until the shutdown flag is
    set or the cap of 1000 iterations is reached, unless a visit stays
    suspended for good. *)
Theorem rotation_is_round_robin : forall (argv2 : option string)
    (renv : RunEnv) (i : nat),
  let catalog := DEVICE_PROFILES (r_devices renv) in
  let w := snd (main argv2 renv) in
  let n := List.length (console w) in
  selectProfile catalog (Z.of_nat i)
    = nth_error catalog (i mod List.length catalog) /\
  map Some (console w) = map (bannerOf catalog) (seq 0 n) /\
  Permutation (window catalog i (List.length catalog)) (map Some catalog) /\
  testerOfLastBanner w /\
  (reachesContext renv ->
   map Some (contexts w) = map (contextOf catalog) (seq 0 n)) /\
  (wellFormedUrl argv2 = true ->
   isShuttingDown w = true \/ n = 1000%nat \/
   fst (runTests argv2 renv initialWorld) = Halt).
Proof.
  intros argv2 renv i catalog w n.
  split; [apply selectProfile_index; discriminate|].
  destruct (runTests_visits argv2 renv) as [m (Hb & Ht & Hc)].
  fold catalog in Hb, Hc.
  assert (Hm : m = n).
  { subst n w. rewrite main_world. symmetry. exact (banners_length _ _ _ Hb). }
  subst m. subst n w. rewrite main_world in *.
  split; [exact Hb|]. split; [apply window_permutation|].
  split; [exact Ht|]. split; [exact Hc|].
  intros Hv. apply (runTests_stops argv2 renv Hv).
Qed.

Lemma calmRun_reachesContext : reachesContext calmRun.
Proof.
  intros k p Hp. split; [split|reflexivity]; [|left; reflexivity].
  unfold selectProfile in Hp. apply nth_error_In in Hp.
  cbn in Hp. intuition (subst; discriminate).
Qed.

Lemma rotation_is_round_robin_witness :
  let w := snd (main (Some sampleUrl) calmRun) in
  List.length (console w) = 1000%nat /\
  map Some (contexts w)
  = map (contextOf (DEVICE_PROFILES anyPhone)) (seq 0 1000).
Proof.
  intros w.
  assert (Hn : List.length (console w) = 1000%nat)
    by (vm_compute; reflexivity).
  split; [exact Hn|].
  pose proof (rotation_is_round_robin (Some sampleUrl) calmRun 0) as H.
  cbv zeta in H. destruct H as (_ & _ & _ & _ & H5 & _).
  fold w in H5. rewrite Hn in H5.
  exact (H5 calmRun_reachesContext).
Defined.
